(** * BlendIQ soil-blending optimiser: a shallow embedding of [optimizer.py]

    The two copies of the engine ([src/netlify/functions/optimizer.py] and
    [src/api/optimize.py]) differ only in comments and type annotations, so
    one embedding serves both.

    Numbers.  Python floats are embedded as exact rationals [Q], compared
    with [==].  The [np.nan] marker that [extract_material_parameters] puts
    where a material has no value is the [None] of [option Q].  Rounding,
    [inf] and [nan] produced by arithmetic are outside this model; the one
    place where the code can produce them without raising (the final
    division by [np.sum(result.x)]) is made explicit as [NotFinite].

    Where a statement depends on rounding, the function is read a second
    time with the numbers it runs on: [calculate_blend_parameters_double]
    is [calculate_blend_parameters] over IEEE 754 binary64 floats. *)

From Stdlib Require Import Floats.
From Stdlib Require Import List String Bool Arith ZArith QArith Qabs Lia Lqa.
From Stdlib Require Import Permutation Sorted.
Import ListNotations.
Open Scope string_scope.
Open Scope list_scope.
Open Scope Q_scope.

(** ** Python values, exceptions and dictionaries *)

Module Py.

(** A value that is either [None] or a number. *)
Inductive pyval : Type :=
| PyNone
| PyNum (q : Q).

Definition is_none (v : pyval) : bool :=
  match v with PyNone => true | PyNum _ => false end.

(** What can stop a call.  The first three are Python exceptions.
    [NotFinite] is not an exception: numpy carries on with [inf]/[nan],
    which the rational model does not follow. *)
Inductive error : Type :=
| ValueError
| TypeError
| IndexError
| NotFinite.

Inductive exc (A : Type) : Type :=
| Ok (a : A)
| Raise (e : error).
Arguments Ok {A} a.
Arguments Raise {A} e.

Definition bind {A B : Type} (c : exc A) (k : A -> exc B) : exc B :=
  match c with
  | Ok a => k a
  | Raise e => Raise e
  end.

(** Insertion-ordered dictionaries with string keys. *)
Definition dict (V : Type) : Type := list (string * V).

Fixpoint dict_get {V : Type} (d : dict V) (k : string) : option V :=
  match d with
  | [] => None
  | (k', v) :: d' => if String.eqb k' k then Some v else dict_get d' k
  end.

(** [d.get(k, default)] *)
Definition get_or {V : Type} (d : dict V) (k : string) (default : V) : V :=
  match dict_get d k with
  | Some v => v
  | None => default
  end.

(** [k in d] *)
Definition dict_mem {V : Type} (d : dict V) (k : string) : bool :=
  match dict_get d k with
  | Some _ => true
  | None => false
  end.

(** [d[k] = v]: an existing key keeps its position, a new one goes last. *)
Fixpoint dict_set {V : Type} (d : dict V) (k : string) (v : V) : dict V :=
  match d with
  | [] => [(k, v)]
  | (k', v') :: d' =>
      if String.eqb k' k then (k', v) :: d' else (k', v') :: dict_set d' k v
  end.

Definition keys {V : Type} (d : dict V) : list string := map fst d.

(** [x in xs] for a list of strings *)
Fixpoint str_in (x : string) (xs : list string) : bool :=
  match xs with
  | [] => false
  | y :: ys => String.eqb y x || str_in x ys
  end.

(** [a < b] on numbers *)
Definition Qlt_bool (a b : Q) : bool := negb (Qle_bool b a).

(** [np.sum] *)
Definition Qsum (xs : list Q) : Q := fold_right Qplus 0 xs.

End Py.
Import Py.

Declare Scope exc_scope.
Notation "x <- c ;; k" := (bind c (fun x => k))
  (at level 61, c at next level, right associativity) : exc_scope.
Open Scope exc_scope.

(** ** Data model *)

(** A material record.  [parameters] maps a parameter name to the content of
    its ['value'] field ([None] when the field is absent or null). *)
Record Material : Type := mkMaterial {
  id : string;
  name : string;
  availableTonnage : option Q;
  parameters : dict (option Q)
}.

Record MaterialConstraint : Type := mkMaterialConstraint {
  materialId : option string;
  minPercentage : option Q;
  maxPercentage : option Q
}.

(** The configuration.  An absent [selectedParameters], [customLimits] or
    [materialConstraints] is the empty collection its [.get] defaults to;
    [tolerance] and [autoRelax] keep their absence, their defaults being
    read at each use. *)
Record Config : Type := mkConfig {
  selectedParameters : list string;
  customLimits : dict (dict pyval);
  materialConstraints : list MaterialConstraint;
  tolerance : option Q;
  autoRelax : option bool
}.

(** [config.get('tolerance', 30)] *)
Definition config_tolerance (config : Config) : Q :=
  match tolerance config with
  | Some t => t
  | None => 30
  end.

(** [config.copy()] followed by [config_copy['tolerance'] = t] *)
Definition with_tolerance (config : Config) (t : Q) : Config :=
  {| selectedParameters := selectedParameters config;
     customLimits := customLimits config;
     materialConstraints := materialConstraints config;
     tolerance := Some t;
     autoRelax := autoRelax config |}.

(** ** extract_material_parameters *)

Definition extract_material_parameters
    (materials : list Material) (config : Config) : dict (list (option Q)) :=
  fold_left
    (fun material_params param_name =>
       let values :=
         map (fun material =>
                match dict_get (parameters material) param_name with
                | Some value => value
                | None => None
                end)
             materials in
       dict_set material_params param_name values)
    (selectedParameters config) [].

(** ** get_targets_and_limits *)

Definition bs3882_limits : dict (dict pyval) :=
  [ ("pH", [("lower", PyNum 5.5); ("upper", PyNum 8.5)]);
    ("Stone Content (>2mm)", [("upper", PyNum 8)]);
    ("Organic Matter", [("lower", PyNum 3.5); ("upper", PyNum 10)]);
    ("Clay", [("lower", PyNum 8); ("upper", PyNum 35)]);
    ("Silt", [("lower", PyNum 15); ("upper", PyNum 60)]);
    ("Sand", [("lower", PyNum 30); ("upper", PyNum 60)]);
    ("Arsenic", [("upper", PyNum 20)]);
    ("Cadmium", [("upper", PyNum 3)]);
    ("Chromium (Total)", [("upper", PyNum 100)]);
    ("Copper", [("upper", PyNum 200)]);
    ("Lead", [("upper", PyNum 450)]);
    ("Mercury", [("upper", PyNum 1)]);
    ("Nickel", [("upper", PyNum 75)]);
    ("Zinc", [("upper", PyNum 300)]) ].

Definition zero_seeking : list string :=
  [ "Arsenic"; "Cadmium"; "Chromium (Total)"; "Chromium (VI)";
    "Lead"; "Mercury"; "Selenium"; "Molybdenum";
    "Cyanide (Free)"; "Cyanide (Total)"; "TPH (Total Petroleum Hydrocarbons)";
    "PAH (Total)"; "PCBs (Total)"; "Asbestos" ].

(** The dictionary literal built for each parameter: both keys are always
    present, with [None] as the value of a bound that nothing supplies. *)
Definition resolve_limits (config : Config) (param_name : string) : dict pyval :=
  let custom_limits := get_or (customLimits config) param_name [] in
  let default_limits := get_or bs3882_limits param_name [] in
  [ ("lower", get_or custom_limits "lower" (get_or default_limits "lower" PyNone));
    ("upper", get_or custom_limits "upper" (get_or default_limits "upper" PyNone)) ].

(** The [if]/[elif] chain that picks the target.  In the first branch
    [param_limits.get('lower', 0)] is a lookup with default [0]. *)
Definition resolve_target (param_name : string) (param_limits : dict pyval) : pyval :=
  if str_in param_name zero_seeking then
    get_or param_limits "lower" (PyNum 0)
  else
    match get_or param_limits "lower" PyNone, get_or param_limits "upper" PyNone with
    | PyNum lower, PyNum upper => PyNum ((lower + upper) / 2)
    | PyNum lower, PyNone => PyNum lower
    | PyNone, PyNum upper => PyNum upper
    | PyNone, PyNone => PyNum 0
    end.

Definition get_targets_and_limits
    (material_params : dict (list (option Q))) (config : Config)
  : dict pyval * dict (dict pyval) :=
  fold_left
    (fun '(targets, limits) param_name =>
       let param_limits := resolve_limits config param_name in
       (dict_set targets param_name (resolve_target param_name param_limits),
        dict_set limits param_name param_limits))
    (keys material_params) ([], []).

(** ** setup_constraints *)

(** The three lambdas of [setup_constraints], each with the values it
    captures through its default arguments. *)
Inductive constraint_fun : Type :=
| SumMinusOne                                 (* lambda x: np.sum(x) - 1 *)
| RatioMinusMin (idx : nat) (min_val : Q)     (* lambda x: x[idx] - min_val *)
| MaxMinusRatio (idx : nat) (max_val : Q).    (* lambda x: max_val - x[idx] *)

Inductive constraint_type : Type := Eq_ | Ineq.

Record constraint : Type := mkConstraint {
  c_type : constraint_type;
  c_fun : constraint_fun
}.

(** [x[idx]] *)
Definition subscript (x : list Q) (idx : nat) : exc Q :=
  match nth_error x idx with
  | Some v => Ok v
  | None => Raise IndexError
  end.

(** Calling a constraint's ['fun'] on a ratio vector. *)
Definition constraint_apply (f : constraint_fun) (x : list Q) : exc Q :=
  match f with
  | SumMinusOne => Ok (Qsum x - 1)
  | RatioMinusMin idx min_val => v <- subscript x idx ;; Ok (v - min_val)
  | MaxMinusRatio idx max_val => v <- subscript x idx ;; Ok (max_val - v)
  end.

(** [m['id'] == material_id] *)
Definition id_matches (m : Material) (material_id : option string) : bool :=
  match material_id with
  | Some s => String.eqb (id m) s
  | None => false
  end.

(** [next((i for i, m in enumerate(materials) if m['id'] == material_id), None)],
    counting from [i]. *)
Fixpoint find_material (materials : list Material) (material_id : option string)
    (i : nat) : option nat :=
  match materials with
  | [] => None
  | m :: rest =>
      if id_matches m material_id then Some i
      else find_material rest material_id (S i)
  end.

(** One turn of the loop over [config['materialConstraints']]. *)
Definition add_material_constraint (materials : list Material)
    (constraints : list constraint) (c : MaterialConstraint) : list constraint :=
  let material_id := materialId c in
  let min_pct := minPercentage c in
  let max_pct := maxPercentage c in
  match find_material materials material_id 0 with
  | Some mat_idx =>
      let constraints :=
        match min_pct with
        | Some mn => constraints ++ [mkConstraint Ineq (RatioMinusMin mat_idx (mn / 100))]
        | None => constraints
        end in
      match max_pct with
      | Some mx => constraints ++ [mkConstraint Ineq (MaxMinusRatio mat_idx (mx / 100))]
      | None => constraints
      end
  | None => constraints
  end.

Definition setup_constraints (materials : list Material) (config : Config)
    (n_materials : nat) : list constraint :=
  fold_left (add_material_constraint materials)
            (materialConstraints config)
            [mkConstraint Eq_ SumMinusOne].

(** ** calculate_blend_parameters *)

(** [~np.isnan(values)] *)
Definition valid_mask (values : list (option Q)) : list bool :=
  map (fun v => match v with Some _ => true | None => false end) values.

(** [a[mask]] for a boolean mask of the length of [a] *)
Fixpoint masked {A : Type} (a : list A) (mask : list bool) : list A :=
  match a, mask with
  | x :: a', b :: mask' => if b then x :: masked a' mask' else masked a' mask'
  | _, _ => []
  end.

(** [np.array(values)[valid_mask]]: the values that are present *)
Fixpoint present (values : list (option Q)) : list Q :=
  match values with
  | [] => []
  | Some v :: rest => v :: present rest
  | None :: rest => present rest
  end.

(** [np.sum(a * b)] for two arrays of one length *)
Fixpoint dot (a b : list Q) : Q :=
  match a, b with
  | x :: a', y :: b' => x * y + dot a' b'
  | _, _ => 0
  end.

(** The body of the loop for one parameter: [Ok None] when the parameter is
    left out of [blend_params], [Ok (Some v)] when [v] is stored.  A boolean
    mask whose length differs from that of [ratios] makes numpy raise. *)
Definition blend_value_of (ratios : list Q) (values : list (option Q))
  : exc (option Q) :=
  let mask := valid_mask values in
  if negb (existsb (fun b => b) mask) then Ok None
  else if negb (Nat.eqb (List.length mask) (List.length ratios)) then Raise IndexError
  else
    let valid_ratios := masked ratios mask in
    let valid_values := present values in
    if Qlt_bool 0 (Qsum valid_ratios) then
      let normalized_ratios :=
        map (fun r => r / Qsum valid_ratios) valid_ratios in
      Ok (Some (dot normalized_ratios valid_values))
    else Ok None.

Fixpoint blend_loop (ratios : list Q) (items : dict (list (option Q)))
    (blend_params : dict Q) : exc (dict Q) :=
  match items with
  | [] => Ok blend_params
  | (param_name, values) :: rest =>
      b <- blend_value_of ratios values ;;
      match b with
      | Some v => blend_loop ratios rest (dict_set blend_params param_name v)
      | None => blend_loop ratios rest blend_params
      end
  end.

Definition calculate_blend_parameters (ratios : list Q)
    (material_params : dict (list (option Q))) : exc (dict Q) :=
  blend_loop ratios material_params [].

(** *** The same function in double precision

    [float] is IEEE 754 binary64, the numbers numpy computes with; a decimal
    literal denotes the nearest double, as it does in Python.  A missing
    value is [nan] itself, as in the source.  [np.sum] adds the entries in
    order, starting from zero. *)

#[local] Set Warnings "-inexact-float".

Definition np_sum (a : list float) : float := fold_left PrimFloat.add a 0%float.

(** [~np.isnan(values)] *)
Definition isnan_mask (values : list float) : list bool :=
  map (fun v => negb (PrimFloat.is_nan v)) values.

(** [np.sum(a * b)] for two arrays of one length *)
Definition np_sum_product (a b : list float) : float :=
  np_sum (map (fun xy => PrimFloat.mul (fst xy) (snd xy)) (combine a b)).

Definition blend_value_of_double (ratios values : list float)
  : exc (option float) :=
  let mask := isnan_mask values in
  if negb (existsb (fun b => b) mask) then Ok None
  else if negb (Nat.eqb (List.length mask) (List.length ratios)) then Raise IndexError
  else
    let valid_ratios := masked ratios mask in
    let valid_values := masked values mask in
    if PrimFloat.ltb 0%float (np_sum valid_ratios) then
      let normalized_ratios :=
        map (fun r => PrimFloat.div r (np_sum valid_ratios)) valid_ratios in
      Ok (Some (np_sum_product normalized_ratios valid_values))
    else Ok None.

Fixpoint blend_loop_double (ratios : list float) (items : dict (list float))
    (blend_params : dict float) : exc (dict float) :=
  match items with
  | [] => Ok blend_params
  | (param_name, values) :: rest =>
      b <- blend_value_of_double ratios values ;;
      match b with
      | Some v => blend_loop_double ratios rest (dict_set blend_params param_name v)
      | None => blend_loop_double ratios rest blend_params
      end
  end.

Definition calculate_blend_parameters_double (ratios : list float)
    (material_params : dict (list float)) : exc (dict float) :=
  blend_loop_double ratios material_params [].

(** [ratios * k] *)
Definition rescaled (k : float) (ratios : list float) : list float :=
  map (fun r => PrimFloat.mul r k) ratios.

(** ** calculate_objective *)

(** [a - b] and [a / b] with a float on the left and a value that may be
    [None] on the right. *)
Definition py_sub (a : Q) (b : pyval) : exc Q :=
  match b with
  | PyNum q => Ok (a - q)
  | PyNone => Raise TypeError
  end.

Definition py_div (a : Q) (b : pyval) : exc Q :=
  match b with
  | PyNum q => Ok (a / q)
  | PyNone => Raise TypeError
  end.

(** [float(v)] *)
Definition py_float (v : pyval) : exc Q :=
  match v with
  | PyNum q => Ok q
  | PyNone => Raise TypeError
  end.

(** [target if target != 0 else 1]; [None != 0] is true. *)
Definition divisor (target : pyval) : pyval :=
  match target with
  | PyNum t => if Qeq_bool t 0 then PyNum 1 else PyNum t
  | PyNone => PyNone
  end.

(** [bound is not None and blend_value < bound], giving the bound *)
Definition below (blend_value : Q) (bound : pyval) : option Q :=
  match bound with
  | PyNum l => if Qlt_bool blend_value l then Some l else None
  | PyNone => None
  end.

(** [bound is not None and blend_value > bound], giving the bound *)
Definition above (blend_value : Q) (bound : pyval) : option Q :=
  match bound with
  | PyNum u => if Qlt_bool u blend_value then Some u else None
  | PyNone => None
  end.

Definition objective_residual (blend_value : Q) (lower upper target_value : pyval)
  : exc Q :=
  match below blend_value lower with
  | Some l => py_div (l - blend_value) (divisor target_value)
  | None =>
      match above blend_value upper with
      | Some u => py_div (blend_value - u) (divisor target_value)
      | None =>
          d <- py_sub blend_value target_value ;;
          py_div d (divisor target_value)
      end
  end.

(** The [if]/[else] that adds a residual to [total_error]. *)
Definition penalised (residual tolerance : Q) : Q :=
  if Qlt_bool tolerance (Qabs residual) then (residual ^ 2) * 10
  else residual ^ 2.

Fixpoint objective_loop (blend_params : dict Q) (limits : dict (dict pyval))
    (tolerance : Q) (items : dict pyval) (total_error : Q) : exc Q :=
  match items with
  | [] => Ok total_error
  | (param_name, target_value) :: rest =>
      match dict_get blend_params param_name with
      | None => objective_loop blend_params limits tolerance rest total_error
      | Some blend_value =>
          let param_limits := get_or limits param_name [] in
          let lower := get_or param_limits "lower" PyNone in
          let upper := get_or param_limits "upper" PyNone in
          residual <- objective_residual blend_value lower upper target_value ;;
          objective_loop blend_params limits tolerance rest
                         (total_error + penalised residual tolerance)
      end
  end.

Definition calculate_objective (ratios : list Q)
    (material_params : dict (list (option Q))) (targets : dict pyval)
    (limits : dict (dict pyval)) (config : Config) : exc Q :=
  blend_params <- calculate_blend_parameters ratios material_params ;;
  let tolerance := config_tolerance config / 100 in
  objective_loop blend_params limits tolerance targets 0.

(** ** calculate_residuals *)

Inductive Status : Type := compliant | marginal | exceeding.

Definition Status_eqb (a b : Status) : bool :=
  match a, b with
  | compliant, compliant | marginal, marginal | exceeding, exceeding => true
  | _, _ => false
  end.

Record Residual : Type := mkResidual {
  parameter : string;
  value : Q;
  lowerLimit : pyval;
  upperLimit : pyval;
  target : Q;
  residual : Q;
  residualPercent : Q;
  status : Status
}.

(** The [if]/[elif]/[else] that determines the status; [tolerance] is the
    configured percentage itself. *)
Definition residual_status (residual_percent tolerance : Q) : Status :=
  if Qle_bool residual_percent tolerance then compliant
  else if Qle_bool residual_percent (tolerance * 1.5) then marginal
  else exceeding.

Definition plain_residual (blend_value : Q) (lower upper target : pyval) : exc Q :=
  match below blend_value lower with
  | Some l => Ok (blend_value - l)
  | None =>
      match above blend_value upper with
      | Some u => Ok (blend_value - u)
      | None => py_sub blend_value target
      end
  end.

(** One turn of the loop over [blend_params.items()]. *)
Definition residual_entry (targets : dict pyval) (limits : dict (dict pyval))
    (tolerance : Q) (param_name : string) (blend_value : Q) : exc Residual :=
  let target := get_or targets param_name (PyNum 0) in
  let param_limits := get_or limits param_name [] in
  let lower := get_or param_limits "lower" PyNone in
  let upper := get_or param_limits "upper" PyNone in
  residual <- plain_residual blend_value lower upper target ;;
  q <- py_div residual (divisor target) ;;
  let residual_percent := Qabs q * 100 in
  let status := residual_status residual_percent tolerance in
  target_f <- py_float target ;;
  Ok (mkResidual param_name blend_value lower upper target_f residual
                 residual_percent status).

Fixpoint residuals_loop (targets : dict pyval) (limits : dict (dict pyval))
    (tolerance : Q) (items : dict Q) (residuals : list Residual)
  : exc (list Residual) :=
  match items with
  | [] => Ok residuals
  | (param_name, blend_value) :: rest =>
      r <- residual_entry targets limits tolerance param_name blend_value ;;
      residuals_loop targets limits tolerance rest (residuals ++ [r])
  end.

(** The sort key, [abs(r['residualPercent'])] *)
Definition sort_key (r : Residual) : Q := Qabs (residualPercent r).

(** [list.sort(key=..., reverse=True)]: descending and stable, so an entry
    goes after the entries whose key is at least its own. *)
Fixpoint insert_desc (r : Residual) (sorted : list Residual) : list Residual :=
  match sorted with
  | [] => [r]
  | s :: rest =>
      if Qlt_bool (sort_key s) (sort_key r) then r :: s :: rest
      else s :: insert_desc r rest
  end.

Definition sort_desc (residuals : list Residual) : list Residual :=
  fold_left (fun sorted r => insert_desc r sorted) residuals [].

Definition calculate_residuals (blend_params : dict Q) (targets : dict pyval)
    (limits : dict (dict pyval)) (config : Config) : exc (list Residual) :=
  let tolerance := config_tolerance config in
  residuals <- residuals_loop targets limits tolerance blend_params [] ;;
  Ok (sort_desc residuals).

(** ** build_result *)

Record TonnageEntry : Type := mkTonnageEntry {
  materialName : string;
  tonnageMaterialId : string;
  available : Q;
  used : Q;
  remaining : Q;
  percentage : Q
}.

Record Compliance : Type := mkCompliance {
  totalParameters : nat;
  compliantCount : nat;
  marginalCount : nat;
  exceedingCount : nat;
  meanResidual : Q;
  highestResidual : Q;
  lowestResidual : Q
}.

Record SoilTexture : Type := mkSoilTexture {
  clay : Q;
  silt : Q;
  sand : Q;
  withinAcceptableRange : bool
}.

(** The four messages [build_result] can append to [warnings], with the
    values their f-strings interpolate. *)
Inductive Warning : Type :=
| ExceedWarning (count : nat)       (* '{n} parameter(s) exceed acceptable limits' *)
| MarginalWarning (count : nat)     (* '{n} parameter(s) are marginal' *)
| RelaxedWarning (relaxed_tolerance : Q)
                                    (* 'Tolerance was relaxed to {t:.0f}% to find a solution' *)
| MissingWarning (listed : list string) (more : option nat).
                                    (* 'Missing data for: a, b' [+ ' and {k} more'] *)

Record OptimizationDetails : Type := mkOptimizationDetails {
  iterations : nat;
  convergence : bool;
  relaxedTolerance : option Q;
  method : string
}.

Record OptimizationResult : Type := mkOptimizationResult {
  success : bool;
  blendRatios : dict Q;
  tonnageBreakdown : list TonnageEntry;
  compliance : Compliance;
  residuals : list Residual;
  soilTexture : option SoilTexture;
  warnings : list Warning;
  optimizationDetails : OptimizationDetails
}.

(** [{materials[i]['id']: float(ratios[i]) for i in range(len(materials))}],
    from index [i] on. *)
Fixpoint blend_ratios_from (ratios : list Q) (materials : list Material)
    (i : nat) (acc : dict Q) : exc (dict Q) :=
  match materials with
  | [] => Ok acc
  | material :: rest =>
      ratio <- subscript ratios i ;;
      blend_ratios_from ratios rest (S i) (dict_set acc (id material) ratio)
  end.

Fixpoint tonnage_from (ratios : list Q) (materials : list Material) (i : nat)
  : exc (list TonnageEntry) :=
  match materials with
  | [] => Ok []
  | material :: rest =>
      ratio <- subscript ratios i ;;
      let available :=
        match availableTonnage material with Some a => a | None => 0 end in
      let used := available * ratio in
      let remaining := available - used in
      entries <- tonnage_from ratios rest (S i) ;;
      Ok (mkTonnageEntry (name material) (id material) available used remaining
                         (ratio * 100) :: entries)
  end.

(** [sum(1 for r in residuals if r['status'] == s)] *)
Definition count_status (s : Status) (residuals : list Residual) : nat :=
  List.length (filter (fun r => Status_eqb (status r) s) residuals).

Definition Qmax_list (xs : list Q) : Q :=
  match xs with
  | [] => 0
  | x :: rest => fold_left (fun m y => if Qlt_bool m y then y else m) rest x
  end.

Definition Qmin_list (xs : list Q) : Q :=
  match xs with
  | [] => 0
  | x :: rest => fold_left (fun m y => if Qlt_bool y m then y else m) rest x
  end.

Definition compliance_summary (residuals : list Residual) : Compliance :=
  let abs_percents := map (fun r => Qabs (residualPercent r)) residuals in
  let mean_residual :=
    match residuals with
    | [] => 0
    | _ => Qsum abs_percents / inject_Z (Z.of_nat (List.length abs_percents))
    end in
  mkCompliance (List.length residuals)
               (count_status compliant residuals)
               (count_status marginal residuals)
               (count_status exceeding residuals)
               mean_residual (Qmax_list abs_percents) (Qmin_list abs_percents).

(** [lo <= v <= hi] *)
Definition between (lo v hi : Q) : bool := Qle_bool lo v && Qle_bool v hi.

Definition soil_texture_of (blend_params : dict Q) : option SoilTexture :=
  match dict_get blend_params "Clay", dict_get blend_params "Silt",
        dict_get blend_params "Sand" with
  | Some clay, Some silt, Some sand =>
      let total := clay + silt + sand in
      if Qlt_bool 0 total then
        let clay_pct := (clay / total) * 100 in
        let silt_pct := (silt / total) * 100 in
        let sand_pct := (sand / total) * 100 in
        let within_range :=
          between 8 clay_pct 35 && between 15 silt_pct 60 && between 30 sand_pct 60 in
        Some (mkSoilTexture clay_pct silt_pct sand_pct within_range)
      else None
  | _, _, _ => None
  end.

(** The selected parameters that are not in [blend_params], in order. *)
Definition missing_params_of (config : Config) (blend_params : dict Q) : list string :=
  filter (fun param => negb (dict_mem blend_params param)) (selectedParameters config).

Definition missing_warning (missing_params : list string) : list Warning :=
  match missing_params with
  | [] => []
  | _ =>
      [MissingWarning (firstn 5 missing_params)
         (if Nat.ltb 5 (List.length missing_params)
          then Some (List.length missing_params - 5)%nat else None)]
  end.

(** [if relaxed_tolerance:] is false for [None] and for [0]. *)
Definition relaxed_warning (relaxed_tolerance : option Q) : list Warning :=
  match relaxed_tolerance with
  | Some t => if Qeq_bool t 0 then [] else [RelaxedWarning t]
  | None => []
  end.

Definition build_warnings (residuals : list Residual)
    (relaxed_tolerance : option Q) (config : Config) (blend_params : dict Q)
  : list Warning :=
  let exceeding_n := count_status exceeding residuals in
  let marginal_n := count_status marginal residuals in
  (if Nat.ltb 0 exceeding_n then [ExceedWarning exceeding_n] else [])
  ++ (if Nat.ltb 0 marginal_n then [MarginalWarning marginal_n] else [])
  ++ relaxed_warning relaxed_tolerance
  ++ missing_warning (missing_params_of config blend_params).

Definition build_result (success : bool) (ratios : list Q)
    (materials : list Material) (residuals : list Residual)
    (blend_params : dict Q) (iterations : nat) (convergence : bool)
    (relaxed_tolerance : option Q) (config : Config) : exc OptimizationResult :=
  blend_ratios <- blend_ratios_from ratios materials 0 [] ;;
  tonnage_breakdown <- tonnage_from ratios materials 0 ;;
  Ok (mkOptimizationResult
        success blend_ratios tonnage_breakdown
        (compliance_summary residuals)
        residuals
        (soil_texture_of blend_params)
        (build_warnings residuals relaxed_tolerance config blend_params)
        (mkOptimizationDetails iterations convergence relaxed_tolerance "SLSQP")).

(** ** The solvers and optimize_blend *)

Module Scipy.

(** What [scipy.optimize] hands back: the vector found, the success flag,
    and the iteration count when the result has one. *)
Record OptimizeResult : Type := mkOptimizeResult {
  x : list Q;
  success : bool;
  nit : option nat
}.

Inductive Solver : Type := SLSQP | DifferentialEvolution.

End Scipy.

(** One call of a solver that returned: which solver, the objective, the
    starting point (SLSQP only), the bounds and constraints it was given,
    and its result. *)
Record SolverCall : Type := mkSolverCall {
  solver : Scipy.Solver;
  call_objective : list Q -> exc Q;
  call_x0 : option (list Q);
  call_bounds : list (Q * Q);
  call_constraints : list constraint;
  returned : Scipy.OptimizeResult
}.

(** A computation that calls solvers: the calls that returned, in order,
    and the outcome. *)
Definition traced (A : Type) : Type := (list SolverCall * exc A)%type.

Definition tret {A : Type} (a : A) : traced A := ([], Ok a).

Definition lift {A : Type} (c : exc A) : traced A := ([], c).

Definition tbind {A B : Type} (c : traced A) (k : A -> traced B) : traced B :=
  match c with
  | (calls, Ok a) => let '(calls', out) := k a in (calls ++ calls', out)
  | (calls, Raise e) => (calls, Raise e)
  end.

Notation "x <~ c ;; k" := (tbind c (fun x => k))
  (at level 61, c at next level, right associativity) : exc_scope.

(** [result.x / np.sum(result.x)].  A zero sum makes numpy produce [nan] or
    [inf] entries; the model stops there. *)
Definition normalize_ratios (x : list Q) : exc (list Q) :=
  let total := Qsum x in
  if Qeq_bool total 0 then Raise NotFinite
  else Ok (map (fun xi => xi / total) x).

Section Solvers.

(** [scipy.optimize.minimize(fun, x0, method='SLSQP', bounds, constraints,
    options={'maxiter': 1000, 'ftol': 1e-9})] and
    [scipy.optimize.differential_evolution(fun, bounds, constraints,
    maxiter=1000, seed=42)].  Both are deterministic; either may let an
    exception of the objective through. *)
Variable minimize :
  (list Q -> exc Q) -> list Q -> list (Q * Q) -> list constraint ->
  exc Scipy.OptimizeResult.
Variable differential_evolution :
  (list Q -> exc Q) -> list (Q * Q) -> list constraint ->
  exc Scipy.OptimizeResult.

Definition call_minimize (objective : list Q -> exc Q) (x0 : list Q)
    (bounds : list (Q * Q)) (constraints : list constraint)
  : traced Scipy.OptimizeResult :=
  match minimize objective x0 bounds constraints with
  | Ok result =>
      ([mkSolverCall Scipy.SLSQP objective (Some x0) bounds constraints result],
       Ok result)
  | Raise e => ([], Raise e)
  end.

Definition call_differential_evolution (objective : list Q -> exc Q)
    (bounds : list (Q * Q)) (constraints : list constraint)
  : traced Scipy.OptimizeResult :=
  match differential_evolution objective bounds constraints with
  | Ok result =>
      ([mkSolverCall Scipy.DifferentialEvolution objective None bounds
                     constraints result],
       Ok result)
  | Raise e => ([], Raise e)
  end.

(** The [for new_tolerance in [0.4, 0.5, 0.6, 0.8, 1.0]] loop, entered with
    the current [result]; it yields the last result and
    [relaxed_tolerance]. *)
Fixpoint relax_sweep (material_params : dict (list (option Q)))
    (targets : dict pyval) (limits : dict (dict pyval)) (config : Config)
    (x0 : list Q) (bounds : list (Q * Q)) (constraints : list constraint)
    (new_tolerances : list Q) (result : Scipy.OptimizeResult)
  : traced (Scipy.OptimizeResult * option Q) :=
  match new_tolerances with
  | [] => tret (result, None)
  | new_tolerance :: rest =>
      let config_copy := with_tolerance config (new_tolerance * 100) in
      let relaxed_objective := fun ratios =>
        calculate_objective ratios material_params targets limits config_copy in
      result <~ call_minimize relaxed_objective x0 bounds constraints ;;
      if Scipy.success result then tret (result, Some (new_tolerance * 100))
      else relax_sweep material_params targets limits config x0 bounds
                       constraints rest result
  end.

Definition sweep_tolerances : list Q := [0.4; 0.5; 0.6; 0.8; 1.0].

(** The three solver stages of [optimize_blend]. *)
Definition solve_stages (material_params : dict (list (option Q)))
    (targets : dict pyval) (limits : dict (dict pyval)) (config : Config)
    (x0 : list Q) (bounds : list (Q * Q)) (constraints : list constraint)
  : traced (Scipy.OptimizeResult * option Q) :=
  let objective := fun ratios =>
    calculate_objective ratios material_params targets limits config in
  let auto_relax :=
    match autoRelax config with Some b => b | None => true end in
  result <~ call_minimize objective x0 bounds constraints ;;
  swept <~ (if negb (Scipy.success result) && auto_relax
            then relax_sweep material_params targets limits config x0 bounds
                             constraints sweep_tolerances result
            else tret (result, None)) ;;
  let '(result, relaxed_tolerance) := swept in
  result <~ (if negb (Scipy.success result)
             then call_differential_evolution objective bounds constraints
             else tret result) ;;
  tret (result, relaxed_tolerance).

(** What [optimize_blend] does with the final solver result. *)
Definition report (materials : list Material) (config : Config)
    (material_params : dict (list (option Q))) (targets : dict pyval)
    (limits : dict (dict pyval)) (result : Scipy.OptimizeResult)
    (relaxed_tolerance : option Q) : exc OptimizationResult :=
  ratios <- normalize_ratios (Scipy.x result) ;;
  blend_params <- calculate_blend_parameters ratios material_params ;;
  residuals <- calculate_residuals blend_params targets limits config ;;
  build_result (Scipy.success result) ratios materials residuals blend_params
               (match Scipy.nit result with Some k => k | None => 0%nat end)
               (Scipy.success result) relaxed_tolerance config.

Definition optimize_blend (materials : list Material) (config : Config)
  : traced OptimizationResult :=
  let n_materials := List.length materials in
  if Nat.ltb n_materials 2 then lift (Raise ValueError)
  else
    let material_params := extract_material_parameters materials config in
    let '(targets, limits) := get_targets_and_limits material_params config in
    let constraints := setup_constraints materials config n_materials in
    let bounds := repeat (0, 1) n_materials in
    let x0 := repeat (1 / inject_Z (Z.of_nat n_materials)) n_materials in
    solved <~ solve_stages material_params targets limits config x0 bounds
                           constraints ;;
    let '(result, relaxed_tolerance) := solved in
    lift (report materials config material_params targets limits result
                 relaxed_tolerance).

End Solvers.

(** ** The objective as the specification words it

    Two readings of the residual that enters the objective, each a function
    of the blend value, the bounds and a numeric target.  [worded_residual]
    follows the specification's sentence: the effective value is the violated
    bound (else the blend value) and the reference is that same bound (else
    the target).  [bound_distance_residual] measures the blend value against
    the violated bound. *)

Definition spec_divisor (target : Q) : Q :=
  if Qeq_bool target 0 then 1 else target.


Definition bound_distance_residual (blend_value : Q) (lower upper : pyval)
    (target : Q) : Q :=
  match below blend_value lower with
  | Some l => (l - blend_value) / spec_divisor target
  | None => match above blend_value upper with
            | Some u => (blend_value - u) / spec_divisor target
            | None => (blend_value - target) / spec_divisor target
            end
  end.




(** ** The weighted average as the specification words it

    The average of the material values weighted by the ratios: each value
    counts with its ratio's share of the total of the ratios. *)

Definition total_of (xs : list Q) : Q := fold_left Qplus xs 0.

Definition ratio_weighted_average (ratios vals : list Q) : Q :=
  total_of (map (fun rv => fst rv / total_of ratios * snd rv)
                (combine ratios vals)).

(** ** The constraints as the specification words them *)

(** What one entry of [materialConstraints] contributes. *)
Definition emitted (materials : list Material) (c : MaterialConstraint)
  : list constraint :=
  match find_material materials (materialId c) 0 with
  | None => []
  | Some idx =>
      match minPercentage c with
      | Some mn => [mkConstraint Ineq (RatioMinusMin idx (mn / 100))]
      | None => []
      end
      ++
      match maxPercentage c with
      | Some mx => [mkConstraint Ineq (MaxMinusRatio idx (mx / 100))]
      | None => []
      end
  end.

(** ** Worked inputs *)

Module Inputs.

(** Two materials with an Arsenic reading each, default configuration. *)
Definition arsenic_config : Config := mkConfig ["Arsenic"] [] [] None None.
Definition arsenic_materials : list Material :=
  [ mkMaterial "m1" "Sandy loam" (Some 100) [("Arsenic", Some 10)];
    mkMaterial "m2" "Compost" (Some 50) [("Arsenic", Some 30)] ].

(** The specification's pH scenario: values 6.0 and 9.0, BS3882 limits. *)
Definition ph_config : Config := mkConfig ["pH"] [] [] None None.
Definition ph_materials : list Material :=
  [ mkMaterial "m1" "Sandy loam" (Some 100) [("pH", Some 6)];
    mkMaterial "m2" "Compost" (Some 50) [("pH", Some 9)] ].


(** A material constraint on ["m1"], one on an id no material has. *)
Definition constrained_config : Config :=
  mkConfig ["pH"] []
           [ mkMaterialConstraint (Some "m1") (Some 80) None;
             mkMaterialConstraint (Some "zz") (Some 10) (Some 20);
             mkMaterialConstraint (Some "m2") (Some 5) (Some 20) ]
           None None.

(** Clay, Silt and Sand, with a second material that lacks Silt. *)
Definition texture_config : Config :=
  mkConfig ["Clay"; "Silt"; "Sand"] [] [] None None.
Definition texture_materials : list Material :=
  [ mkMaterial "m1" "Sandy loam" (Some 100)
               [("Clay", Some 8); ("Silt", Some 15); ("Sand", Some 30)];
    mkMaterial "m2" "Grit" (Some 50)
               [("Clay", Some 8); ("Sand", Some 30)] ].

(** Two clay-rich materials: the blend lies inside the Clay limits but so
    far from their midpoint that the residual passes 40% of it. *)
Definition clay_config : Config := mkConfig ["Clay"] [] [] None None.
Definition clay_materials : list Material :=
[ mkMaterial "m1" "Clay loam" (Some 100) [("Clay", Some 30)];
  mkMaterial "m2" "Silty clay" (Some 50) [("Clay", Some 32)] ].

(** Three residual entries, one of each status under the default
    tolerance: 50%, 40% and 12% of their targets. *)
Definition three_residuals : list Residual :=
  [ mkResidual "Clay" 32.25 (PyNum 8) (PyNum 35) 21.5 10.75 50 exceeding;
    mkResidual "Silt" 52.5 (PyNum 15) (PyNum 60) 37.5 15 40 marginal;
    mkResidual "pH" 7.84 (PyNum 5.5) (PyNum 8.5) 7 0.84 12 compliant ].

(** A local solver that evaluates the objective at the starting point,
    stays there, and reports success when the objective is at most
    [limit]. *)
Definition probe_minimize (limit : Q) (objective : list Q -> exc Q)
    (x0 : list Q) (bounds : list (Q * Q)) (constraints : list constraint)
  : exc Scipy.OptimizeResult :=
  v <- objective x0 ;;
  Ok (Scipy.mkOptimizeResult x0 (Qle_bool v limit) (Some 1%nat)).

(** A global solver that evaluates the objective at the lower corner of
    the bounds shifted by one half, and never reports success. *)
Definition probe_differential_evolution (objective : list Q -> exc Q)
    (bounds : list (Q * Q)) (constraints : list constraint)
  : exc Scipy.OptimizeResult :=
  let x := map (fun b => fst b + 1 / 2) bounds in
  v <- objective x ;;
  Ok (Scipy.mkOptimizeResult x false None).

End Inputs.

(** ** Order of the residuals *)

(** Descending by the sort key. *)
Definition desc (a b : Residual) : Prop := sort_key b <= sort_key a.

(** ** The shape of a run of the solver stages *)

(** The last element of a list, if any. *)
Fixpoint last_of {A : Type} (l : list A) : option A :=
  match l with
  | [] => None
  | [a] => Some a
  | _ :: rest => last_of rest
  end.

(** A call of the local solver, and of the global one, as recorded. *)
Definition local_call (objective : list Q -> exc Q) (x0 : list Q)
    (bounds : list (Q * Q)) (constraints : list constraint)
    (result : Scipy.OptimizeResult) : SolverCall :=
  mkSolverCall Scipy.SLSQP objective (Some x0) bounds constraints result.

Definition global_call (objective : list Q -> exc Q)
    (bounds : list (Q * Q)) (constraints : list constraint)
    (result : Scipy.OptimizeResult) : SolverCall :=
  mkSolverCall Scipy.DifferentialEvolution objective None bounds constraints result.

(** The objective with [config.tolerance] replaced by [t] and nothing else
    changed. *)
Definition objective_with (material_params : dict (list (option Q)))
    (targets : dict pyval) (limits : dict (dict pyval)) (config : Config)
    (t : Q) : list Q -> exc Q :=
  fun ratios =>
    calculate_objective ratios material_params targets limits
                        (with_tolerance config t).

(** The relaxed tolerance a sweep leaves behind: the percentage of its last
    attempt when that attempt succeeded. *)
Definition recorded_tolerance (attempts : list (Q * Scipy.OptimizeResult))
  : option Q :=
  match last_of attempts with
  | Some (new_tolerance, result) =>
      if Scipy.success result then Some (new_tolerance * 100) else None
  | None => None
  end.

(** The objective closure of [optimize_blend], the [auto_relax] flag it
    reads, and the record of one sweep attempt: the tolerance tried (as a
    fraction) and what the local solver returned. *)
Definition objective_of (material_params : dict (list (option Q)))
    (targets : dict pyval) (limits : dict (dict pyval)) (config : Config)
  : list Q -> exc Q :=
  fun ratios => calculate_objective ratios material_params targets limits config.

Definition auto_relax_of (config : Config) : bool :=
  match autoRelax config with Some b => b | None => true end.

Definition sweep_call (material_params : dict (list (option Q)))
    (targets : dict pyval) (limits : dict (dict pyval)) (config : Config)
    (x0 : list Q) (bounds : list (Q * Q)) (constraints : list constraint)
    (a : Q * Scipy.OptimizeResult) : SolverCall :=
  local_call (objective_with material_params targets limits config (fst a * 100))
             x0 bounds constraints (snd a).


(** A solver result that does not report success. *)
Definition failed (r : Scipy.OptimizeResult) : Prop := Scipy.success r = false.

(** ** Notions used to state further properties *)

(** The entry [extract_material_parameters] writes for one material: its
    declared value, [None] when the material has no entry for the parameter
    or the entry has no value. *)
Definition value_of (param_name : string) (material : Material) : option Q :=
  match dict_get (parameters material) param_name with
  | Some value => value
  | None => None
  end.

(** A parameter vector is aligned with the ratios when it has no value at
    all or has the ratios' length. *)
Definition aligned (ratios : list Q) (values : list (option Q)) : Prop :=
  present values = [] \/ List.length values = List.length ratios.

(** A ratio vector satisfies a constraint when its function returns 0 for
    an equality and a non-negative number for an inequality, as SLSQP reads
    the two types. *)
Definition satisfied (x : list Q) (c : constraint) : Prop :=
  match constraint_apply (c_fun c) x with
  | Ok v => match c_type c with
            | Eq_ => v == 0
            | Ineq => 0 <= v
            end
  | Raise _ => False
  end.

(** * Properties *)

(** ** Comparisons, sums and dictionaries *)

Lemma Qlt_bool_iff (a b : Q) : Qlt_bool a b = true <-> a < b.
Proof.
  unfold Qlt_bool. rewrite negb_true_iff.
  split; intro H.
  - apply Qnot_le_lt. intro Hle. apply Qle_bool_iff in Hle. congruence.
  - destruct (Qle_bool b a) eqn:E; [|reflexivity].
    apply Qle_bool_iff in E. exfalso. exact (Qlt_not_le _ _ H E).
Qed.

Lemma Qlt_bool_false_iff (a b : Q) : Qlt_bool a b = false <-> b <= a.
Proof.
  unfold Qlt_bool. rewrite negb_false_iff. apply Qle_bool_iff.
Qed.

Lemma Qle_bool_false_iff (a b : Q) : Qle_bool a b = false <-> b < a.
Proof.
  split; intro H.
  - apply Qnot_le_lt. intro Hle. apply Qle_bool_iff in Hle. congruence.
  - destruct (Qle_bool a b) eqn:E; [|reflexivity].
    apply Qle_bool_iff in E. exfalso. exact (Qlt_not_le _ _ H E).
Qed.

Lemma str_in_In (s : string) (xs : list string) : str_in s xs = true <-> In s xs.
Proof.
  induction xs as [|y ys IH]; simpl.
  - split; [discriminate | tauto].
  - rewrite orb_true_iff, String.eqb_eq, IH. tauto.
Qed.

Lemma dict_get_set_same {V : Type} (d : dict V) (k : string) (v : V) :
  dict_get (dict_set d k v) k = Some v.
Proof.
  induction d as [|[k' v'] d IH]; simpl.
  - now rewrite String.eqb_refl.
  - destruct (String.eqb k' k) eqn:E; simpl; rewrite E; [reflexivity | exact IH].
Qed.

Lemma dict_get_set_other {V : Type} (d : dict V) (k k0 : string) (v : V) :
  k <> k0 -> dict_get (dict_set d k v) k0 = dict_get d k0.
Proof.
  intro Hne. induction d as [|[k' v'] d IH]; simpl.
  - destruct (String.eqb k k0) eqn:E; [apply String.eqb_eq in E; contradiction | reflexivity].
  - destruct (String.eqb k' k) eqn:E; simpl.
    + apply String.eqb_eq in E. subst k'.
      destruct (String.eqb k k0) eqn:E'; [apply String.eqb_eq in E'; contradiction | reflexivity].
    + destruct (String.eqb k' k0); [reflexivity | exact IH].
Qed.

Lemma dict_get_None_keys {V : Type} (d : dict V) (k : string) :
  dict_get d k = None <-> ~ In k (keys d).
Proof.
  induction d as [|[k' v'] d IH]; simpl.
  - tauto.
  - destruct (String.eqb k' k) eqn:E.
    + apply String.eqb_eq in E. split; [discriminate | intro H; exfalso; apply H; now left].
    + apply String.eqb_neq in E. rewrite IH. tauto.
Qed.

(** ** Targets and limits *)

(** The dictionary of limits of a parameter always holds the key ['lower']. *)
Lemma resolve_limits_has_lower (config : Config) (param_name : string) :
  dict_mem (resolve_limits config param_name) "lower" = true.
Proof. reflexivity. Qed.

(** Hence the default [0] of [param_limits.get('lower', 0)] is never used:
    a zero-seeking parameter without a lower bound gets the target [None]. *)
Lemma resolve_target_zero_seeking (config : Config) (param_name : string) :
  In param_name zero_seeking ->
  get_or (resolve_limits config param_name) "lower" PyNone = PyNone ->
  resolve_target param_name (resolve_limits config param_name) = PyNone.
Proof.
  intros Hin Hlow. unfold resolve_target.
  apply str_in_In in Hin. rewrite Hin.
  unfold resolve_limits, get_or in *. simpl in *. exact Hlow.
Qed.

(** C1 (code evaluated at the failing input).  Arsenic is zero-seeking and
    its BS3882 entry has an upper bound only.  With no custom limits the
    resolved limits have [None] as lower bound, and the resolved target is
    [None], not the [0] the specification promises. *)
Theorem arsenic_target_is_None :
  let material_params :=
    extract_material_parameters Inputs.arsenic_materials Inputs.arsenic_config in
  let '(targets, limits) :=
    get_targets_and_limits material_params Inputs.arsenic_config in
  In "Arsenic" zero_seeking
  /\ dict_get limits "Arsenic" = Some [("lower", PyNone); ("upper", PyNum 20)]
  /\ dict_get targets "Arsenic" = Some PyNone
  /\ dict_get targets "Arsenic" <> Some (PyNum 0).
Proof.
  cbv zeta. simpl. repeat split; try reflexivity.
  - now left.
  - discriminate.
Qed.

(** ** Dictionaries keep their keys distinct *)

Lemma dict_set_keys_In {V : Type} (d : dict V) (k : string) (v : V) (p : string) :
  In p (keys (dict_set d k v)) -> p = k \/ In p (keys d).
Proof.
  induction d as [|[k' v'] d IH]; simpl; intro Hp.
  - destruct Hp as [<- | []]. now left.
  - destruct (String.eqb k' k) eqn:E; simpl in Hp.
    + right. exact Hp.
    + destruct Hp as [<- | Hp]; [right; now left|].
      destruct (IH Hp); [now left | right; now right].
Qed.

Lemma dict_set_keys_NoDup {V : Type} (d : dict V) (k : string) (v : V) :
  NoDup (keys d) -> NoDup (keys (dict_set d k v)).
Proof.
  induction d as [|[k' v'] d IH]; simpl; intro Hnd.
  - constructor; [intros [] | constructor].
  - inversion Hnd as [|? ? Hk Hnd']; subst.
    destruct (String.eqb k' k) eqn:E; simpl.
    + constructor; assumption.
    + constructor; [|now apply IH].
      intro Hp. apply String.eqb_neq in E.
      destruct (dict_set_keys_In _ _ _ _ Hp); [congruence | contradiction].
Qed.

(** The parameter vectors have one key per selected parameter, each once:
    the dictionaries the other functions are given have distinct keys. *)
Lemma extract_material_parameters_NoDup (materials : list Material)
    (config : Config) :
  NoDup (keys (extract_material_parameters materials config)).
Proof.
  unfold extract_material_parameters.
  assert (G : forall names acc,
             NoDup (keys acc) ->
             NoDup (keys (fold_left
               (fun material_params param_name =>
                  dict_set material_params param_name
                    (map (fun material =>
                            match dict_get (parameters material) param_name with
                            | Some value => value
                            | None => None
                            end) materials))
               names acc))).
  { induction names as [|p rest IH]; intros acc Hacc; simpl; [exact Hacc|].
    apply IH. now apply dict_set_keys_NoDup. }
  apply G. constructor.
Qed.

(** What [get_targets_and_limits] stores for each parameter it is given. *)
Lemma get_targets_and_limits_lookup (material_params : dict (list (option Q)))
    (config : Config) (p : string) :
  In p (keys material_params) ->
  dict_get (fst (get_targets_and_limits material_params config)) p
  = Some (resolve_target p (resolve_limits config p))
  /\ dict_get (snd (get_targets_and_limits material_params config)) p
     = Some (resolve_limits config p).
Proof.
  unfold get_targets_and_limits.
  generalize (keys material_params) as names. intro names.
  assert (G : forall acc : dict pyval * dict (dict pyval),
             let out := fold_left
               (fun '(targets, limits) param_name =>
                  let param_limits := resolve_limits config param_name in
                  (dict_set targets param_name
                            (resolve_target param_name param_limits),
                   dict_set limits param_name param_limits))
               names acc in
             (In p names ->
              dict_get (fst out) p
              = Some (resolve_target p (resolve_limits config p))
              /\ dict_get (snd out) p = Some (resolve_limits config p))
             /\ (~ In p names ->
                 dict_get (fst out) p = dict_get (fst acc) p
                 /\ dict_get (snd out) p = dict_get (snd acc) p)).
  { induction names as [|k rest IH]; intros [targets limits]; cbv zeta.
    - simpl. split; [intros [] | auto].
    - simpl fold_left.
      specialize (IH (dict_set targets k (resolve_target k (resolve_limits config k)),
                      dict_set limits k (resolve_limits config k))).
      cbv zeta in IH. destruct IH as [IHin IHout]. split.
      + intros [-> | Hin].
        * destruct (in_dec string_dec p rest) as [Hr | Hr]; [now apply IHin|].
          destruct (IHout Hr) as [Ht Hl]. simpl in Ht, Hl.
          rewrite Ht, Hl, !dict_get_set_same. auto.
        * now apply IHin.
      + intro Hn. simpl in Hn.
        destruct (IHout (fun H => Hn (or_intror H))) as [Ht Hl].
        simpl in Ht, Hl. rewrite Ht, Hl.
        rewrite !dict_get_set_other; [auto | |]; intro; apply Hn; now left. }
  intro Hin. exact (proj1 (G ([], [])) Hin).
Qed.

(** A zero-seeking parameter whose resolved limits have no lower bound gets
    the target [None], whatever the configuration. *)
Lemma zero_seeking_target_None (material_params : dict (list (option Q)))
    (config : Config) (p : string) :
  In p (keys material_params) ->
  In p zero_seeking ->
  get_or (resolve_limits config p) "lower" PyNone = PyNone ->
  dict_get (fst (get_targets_and_limits material_params config)) p = Some PyNone.
Proof.
  intros Hin Hz Hlow.
  rewrite (proj1 (get_targets_and_limits_lookup material_params config p Hin)).
  now rewrite resolve_target_zero_seeking.
Qed.

(** A parameter outside the zero-seeking set always gets a number: the
    midpoint of its bounds, the one bound it has, or 0. *)
Lemma resolve_target_range_seeking (config : Config) (p : string) :
  ~ In p zero_seeking ->
  is_none (resolve_target p (resolve_limits config p)) = false.
Proof.
  intro Hz. unfold resolve_target.
  destruct (str_in p zero_seeking) eqn:E;
    [apply str_in_In in E; contradiction|].
  destruct (get_or (resolve_limits config p) "lower" PyNone),
           (get_or (resolve_limits config p) "upper" PyNone); reflexivity.
Qed.

(** ** Validation, and what a [None] target does downstream *)

Lemma optimize_blend_too_few minimize differential_evolution
    (materials : list Material) (config : Config) :
  (List.length materials < 2)%nat ->
  optimize_blend minimize differential_evolution materials config
  = ([], Raise ValueError).
Proof.
  intro H. unfold optimize_blend.
  apply Nat.ltb_lt in H. rewrite H. reflexivity.
Qed.

(** The objective built for the Arsenic input raises at the starting point. *)
Lemma arsenic_objective_raises :
  let material_params :=
    extract_material_parameters Inputs.arsenic_materials Inputs.arsenic_config in
  let '(targets, limits) :=
    get_targets_and_limits material_params Inputs.arsenic_config in
  calculate_objective [1 / 2; 1 / 2] material_params targets limits
                      Inputs.arsenic_config
  = Raise TypeError.
Proof. reflexivity. Qed.

(** C2 (code evaluated at the failing input).  Two well-formed materials,
    Arsenic selected, default configuration: with any local solver that
    evaluates the objective at its starting point, [optimize_blend] raises
    [TypeError] before any solver call returns. *)
Theorem optimize_blend_raises_with_two_materials minimize differential_evolution :
  (forall objective x0 bounds constraints e,
      objective x0 = Raise e ->
      minimize objective x0 bounds constraints = Raise e) ->
  optimize_blend minimize differential_evolution
                 Inputs.arsenic_materials Inputs.arsenic_config
  = ([], Raise TypeError).
Proof.
  intro Hprobe.
  unfold optimize_blend. simpl List.length. simpl Nat.ltb. cbv iota.
  set (mp := extract_material_parameters _ _).
  destruct (get_targets_and_limits mp Inputs.arsenic_config) as [targets limits] eqn:E.
  unfold solve_stages, call_minimize, tbind.
  rewrite (Hprobe _ _ _ _ TypeError); [reflexivity|].
  subst mp. vm_compute in E. injection E as <- <-. reflexivity.
Qed.

Lemma optimize_blend_raises_with_two_materials_witness :
  optimize_blend (Inputs.probe_minimize 0) Inputs.probe_differential_evolution
                 Inputs.arsenic_materials Inputs.arsenic_config
  = ([], Raise TypeError).
Proof.
  apply optimize_blend_raises_with_two_materials.
  intros objective x0 bounds constraints e H.
  unfold Inputs.probe_minimize. rewrite H. reflexivity.
Defined.

(** ** The objective *)

Lemma divisor_numeric (t : Q) : divisor (PyNum t) = PyNum (spec_divisor t).
Proof. unfold divisor, spec_divisor. now destruct (Qeq_bool t 0). Qed.

(** With a numeric target the residual of the objective is the distance to
    the violated bound, or to the target between the bounds. *)
Lemma objective_residual_numeric (blend_value : Q) (lower upper : pyval) (t : Q) :
  objective_residual blend_value lower upper (PyNum t)
  = Ok (bound_distance_residual blend_value lower upper t).
Proof.
  unfold objective_residual, bound_distance_residual.
  rewrite divisor_numeric.
  destruct (below blend_value lower); [reflexivity|].
  destruct (above blend_value upper); reflexivity.
Qed.

(** With the target [None] it raises, whatever the bounds. *)
Lemma objective_residual_None (blend_value : Q) (lower upper : pyval) :
  objective_residual blend_value lower upper PyNone = Raise TypeError.
Proof.
  unfold objective_residual.
  destruct (below blend_value lower); [reflexivity|].
  destruct (above blend_value upper); reflexivity.
Qed.






(** ** Residuals: statuses and order *)

(** The status thresholds, read off the boolean tests. *)
Lemma residual_status_thresholds (residual_percent tolerance : Q) :
  (residual_status residual_percent tolerance = compliant
   <-> residual_percent <= tolerance)
  /\ (residual_status residual_percent tolerance = marginal
      <-> tolerance < residual_percent /\ residual_percent <= tolerance * 1.5)
  /\ (residual_status residual_percent tolerance = exceeding
      <-> ~ residual_percent <= tolerance
          /\ ~ (tolerance < residual_percent
                /\ residual_percent <= tolerance * 1.5)).
Proof.
  unfold residual_status.
  destruct (Qle_bool residual_percent tolerance) eqn:E1;
    [ apply Qle_bool_iff in E1
    | apply Qle_bool_false_iff in E1;
      destruct (Qle_bool residual_percent (tolerance * 1.5)) eqn:E2;
      [ apply Qle_bool_iff in E2 | apply Qle_bool_false_iff in E2 ] ];
    intuition (try discriminate; try reflexivity; try lra).
Qed.

Lemma residual_entry_status targets limits tolerance param_name blend_value r :
  residual_entry targets limits tolerance param_name blend_value = Ok r ->
  parameter r = param_name
  /\ value r = blend_value
  /\ status r = residual_status (residualPercent r) tolerance.
Proof.
  unfold residual_entry. intro H.
  destruct (plain_residual _ _ _ _) as [res|]; [|discriminate].
  simpl in H. destruct (py_div _ _) as [q|]; [|discriminate].
  simpl in H. destruct (py_float _) as [tf|]; [|discriminate].
  simpl in H. injection H as <-. simpl. auto.
Qed.

Lemma residuals_loop_entries targets limits tolerance items :
  forall acc rs,
    residuals_loop targets limits tolerance items acc = Ok rs ->
    exists new,
      rs = acc ++ new
      /\ map parameter new = keys items
      /\ Forall (fun r => status r = residual_status (residualPercent r) tolerance)
                new.
Proof.
  induction items as [|[param_name blend_value] rest IH]; intros acc rs H.
  - simpl in H. injection H as <-. exists []. rewrite app_nil_r. auto.
  - simpl in H.
    destruct (residual_entry targets limits tolerance param_name blend_value)
      as [r|] eqn:Hr; [|discriminate].
    simpl in H. destruct (IH _ _ H) as [new [Hrs [Hkeys Hall]]].
    destruct (residual_entry_status _ _ _ _ _ _ Hr) as [Hp [_ Hs]].
    exists (r :: new). split; [|split].
    + rewrite Hrs, <- app_assoc. reflexivity.
    + simpl. now rewrite Hp, Hkeys.
    + now constructor.
Qed.

Lemma insert_desc_perm (r : Residual) (sorted : list Residual) :
  Permutation (r :: sorted) (insert_desc r sorted).
Proof.
  induction sorted as [|s rest IH]; simpl.
  - apply Permutation_refl.
  - destruct (Qlt_bool (sort_key s) (sort_key r)).
    + apply Permutation_refl.
    + apply perm_trans with (s :: r :: rest); [apply perm_swap|].
      now apply perm_skip.
Qed.

Lemma insert_desc_sorted (r : Residual) (sorted : list Residual) :
  StronglySorted desc sorted -> StronglySorted desc (insert_desc r sorted).
Proof.
  induction sorted as [|s rest IH]; intro Hs; simpl.
  - constructor; constructor.
  - inversion Hs as [|? ? Hrest Hall]; subst.
    destruct (Qlt_bool (sort_key s) (sort_key r)) eqn:E.
    + apply Qlt_bool_iff in E.
      constructor; [exact Hs|].
      constructor.
      * unfold desc. now apply Qlt_le_weak.
      * eapply Forall_impl; [|exact Hall].
        intros y Hy. unfold desc in *.
        apply Qle_trans with (sort_key s); [exact Hy | now apply Qlt_le_weak].
    + apply Qlt_bool_false_iff in E.
      constructor; [now apply IH|].
      apply (Permutation_Forall (insert_desc_perm r rest)).
      constructor; [exact E | exact Hall].
Qed.

Lemma sort_desc_spec (residuals : list Residual) :
  StronglySorted desc (sort_desc residuals)
  /\ Permutation residuals (sort_desc residuals).
Proof.
  unfold sort_desc.
  assert (G : forall acc,
             StronglySorted desc acc ->
             StronglySorted desc
               (fold_left (fun sorted r => insert_desc r sorted) residuals acc)
             /\ Permutation (acc ++ residuals)
                  (fold_left (fun sorted r => insert_desc r sorted) residuals acc)).
  { induction residuals as [|r rest IH]; intros acc Hacc; simpl.
    - split; [exact Hacc | rewrite app_nil_r; apply Permutation_refl].
    - destruct (IH (insert_desc r acc) (insert_desc_sorted r acc Hacc)) as [Hs Hp].
      split; [exact Hs|].
      eapply perm_trans; [|exact Hp].
      apply perm_trans with (r :: acc ++ rest).
      + apply Permutation_sym, Permutation_middle.
      + change (r :: acc ++ rest) with ((r :: acc) ++ rest).
        apply Permutation_app_tail, insert_desc_perm. }
  destruct (G [] (SSorted_nil desc)) as [Hs Hp]. split; [exact Hs | exact Hp].
Qed.

(** C5.  Every entry of the list [calculate_residuals] returns is compliant
    exactly when its residualPercent is at most the configured tolerance
    (the [tolerance] field of the configuration taken as a percentage, 30
    when the field is absent), marginal exactly when it is above the
    tolerance and at most 1.5 times it, and exceeding otherwise; and the
    list is in descending order of absolute residualPercent. *)
Theorem calculate_residuals_statuses_sorted (blend_params : dict Q)
    (targets : dict pyval) (limits : dict (dict pyval)) (config : Config)
    (rs : list Residual) :
  calculate_residuals blend_params targets limits config = Ok rs ->
  Forall (fun r =>
            let tol := match tolerance config with
                       | Some t => t
                       | None => 30
                       end in
            (status r = compliant <-> residualPercent r <= tol)
            /\ (status r = marginal
                <-> tol < residualPercent r
                    /\ residualPercent r <= tol * 1.5)
            /\ (status r = exceeding
                <-> ~ residualPercent r <= tol
                    /\ ~ (tol < residualPercent r
                          /\ residualPercent r <= tol * 1.5)))
         rs
  /\ StronglySorted
       (fun a b => Qabs (residualPercent b) <= Qabs (residualPercent a)) rs.
Proof.
  unfold calculate_residuals. intro H.
  destruct (residuals_loop targets limits (config_tolerance config) blend_params [])
    as [unsorted|] eqn:Hloop; [|discriminate].
  simpl in H. injection H as <-.
  destruct (residuals_loop_entries _ _ _ _ _ _ Hloop) as [new [Hnew [_ Hall]]].
  simpl in Hnew. subst new.
  destruct (sort_desc_spec unsorted) as [Hsorted Hperm].
  split; [|exact Hsorted].
  apply (Permutation_Forall Hperm).
  eapply Forall_impl; [|exact Hall].
  intros r Hr. cbv zeta. rewrite Hr.
  exact (residual_status_thresholds (residualPercent r) (config_tolerance config)).
Qed.

(** With the tolerance set to 5 a pH of 7.5 against the target 7 (7.14%) is
    marginal, where the default 30 would make it compliant; Clay at 50
    against 21.5 is exceeding and comes first. *)
Lemma calculate_residuals_statuses_sorted_witness :
  exists rs,
    calculate_residuals [("pH", 7.5); ("Clay", 50)]
      [("pH", PyNum 7); ("Clay", PyNum 21.5)]
      [("pH", [("lower", PyNum 5.5); ("upper", PyNum 8.5)]);
       ("Clay", [("lower", PyNum 8); ("upper", PyNum 35)])]
      (mkConfig ["pH"; "Clay"] [] [] (Some 5) None) = Ok rs
    /\ map parameter rs = ["Clay"; "pH"]
    /\ map status rs = [exceeding; marginal]
    /\ Forall (fun r =>
                 (status r = compliant <-> residualPercent r <= 5)
                 /\ (status r = marginal
                     <-> 5 < residualPercent r /\ residualPercent r <= 5 * 1.5)
                 /\ (status r = exceeding
                     <-> ~ residualPercent r <= 5
                         /\ ~ (5 < residualPercent r
                               /\ residualPercent r <= 5 * 1.5)))
              rs
    /\ StronglySorted
         (fun a b => Qabs (residualPercent b) <= Qabs (residualPercent a)) rs.
Proof.
  eexists. split; [reflexivity|].
  split; [reflexivity|]. split; [reflexivity|].
  apply (calculate_residuals_statuses_sorted
           [("pH", 7.5); ("Clay", 50)]
           [("pH", PyNum 7); ("Clay", PyNum 21.5)]
           [("pH", [("lower", PyNum 5.5); ("upper", PyNum 8.5)]);
            ("Clay", [("lower", PyNum 8); ("upper", PyNum 35)])]
           (mkConfig ["pH"; "Clay"] [] [] (Some 5) None)).
  reflexivity.
Defined.

(** ** A [None] target raises wherever it is used *)

Lemma objective_residual_errors (blend_value : Q) (lower upper target : pyval)
    (e : error) :
  objective_residual blend_value lower upper target = Raise e -> e = TypeError.
Proof.
  destruct target as [|t].
  - rewrite objective_residual_None. congruence.
  - rewrite objective_residual_numeric. discriminate.
Qed.

(** The objective raises as soon as a targeted parameter with a blend value
    has the target [None]. *)
Lemma objective_loop_None_target (blend_params : dict Q)
    (limits : dict (dict pyval)) (tolerance : Q) (targets : dict pyval)
    (p : string) (v : Q) :
  In (p, PyNone) targets ->
  dict_get blend_params p = Some v ->
  forall total_error,
    objective_loop blend_params limits tolerance targets total_error
    = Raise TypeError.
Proof.
  intros Hin Hv. induction targets as [|[k t] rest IH]; intro total_error;
    [contradiction|].
  simpl. destruct Hin as [Heq | Hin].
  - injection Heq as -> ->. rewrite Hv, objective_residual_None. reflexivity.
  - destruct (dict_get blend_params k) as [b|]; [|now apply IH].
    destruct (objective_residual _ _ _ _) as [res|e] eqn:E; simpl.
    + now apply IH.
    + now rewrite (objective_residual_errors _ _ _ _ _ E).
Qed.

Lemma residual_entry_None_target (targets : dict pyval)
    (limits : dict (dict pyval)) (tolerance : Q) (p : string) (v : Q) :
  get_or targets p (PyNum 0) = PyNone ->
  residual_entry targets limits tolerance p v = Raise TypeError.
Proof.
  intro H. unfold residual_entry, plain_residual. rewrite H.
  destruct (below v _); [reflexivity|].
  destruct (above v _); reflexivity.
Qed.

Lemma residual_entry_errors (targets : dict pyval) (limits : dict (dict pyval))
    (tolerance : Q) (p : string) (v : Q) (e : error) :
  residual_entry targets limits tolerance p v = Raise e -> e = TypeError.
Proof.
  destruct (get_or targets p (PyNum 0)) as [|t] eqn:Ht.
  - rewrite (residual_entry_None_target _ _ _ _ _ Ht). congruence.
  - unfold residual_entry, plain_residual. rewrite Ht, divisor_numeric.
    destruct (below v _); [discriminate|].
    destruct (above v _); discriminate.
Qed.

(** So does [calculate_residuals] when a blend parameter has the target
    [None]. *)
Lemma calculate_residuals_None_target (blend_params : dict Q)
    (targets : dict pyval) (limits : dict (dict pyval)) (config : Config)
    (p : string) :
  In p (keys blend_params) ->
  dict_get targets p = Some PyNone ->
  calculate_residuals blend_params targets limits config = Raise TypeError.
Proof.
  intros Hin Ht. unfold calculate_residuals.
  assert (G : forall acc,
             residuals_loop targets limits (config_tolerance config)
                            blend_params acc = Raise TypeError).
  { induction blend_params as [|[k v] rest IH]; intro acc; [contradiction|].
    simpl. destruct (residual_entry targets limits (config_tolerance config) k v)
      as [r|e] eqn:E; simpl.
    - destruct Hin as [Hk | Hin]; [|now apply IH].
      simpl in Hk. subst k.
      rewrite residual_entry_None_target in E; [discriminate|].
      unfold get_or. now rewrite Ht.
    - now rewrite (residual_entry_errors _ _ _ _ _ _ E). }
  now rewrite G.
Qed.

(** ** Constraints *)

Lemma find_material_spec (materials : list Material) (material_id : option string) :
  forall start,
    match find_material materials material_id start with
    | Some i =>
        exists k m,
          i = (start + k)%nat
          /\ nth_error materials k = Some m
          /\ Some (id m) = material_id
          /\ (forall j m', (j < k)%nat -> nth_error materials j = Some m' ->
                           Some (id m') <> material_id)
    | None => forall m, In m materials -> Some (id m) <> material_id
    end.
Proof.
  induction materials as [|m rest IH]; intro start; simpl.
  - intros m [].
  - destruct (id_matches m material_id) eqn:E.
    + exists 0%nat, m. unfold id_matches in E.
      destruct material_id as [s|]; [|discriminate].
      apply String.eqb_eq in E. subst s.
      repeat split; [lia | intros j m' Hj; lia].
    + assert (Hne : Some (id m) <> material_id).
      { unfold id_matches in E. destruct material_id as [s|]; [|discriminate].
        apply String.eqb_neq in E. congruence. }
      specialize (IH (S start)).
      destruct (find_material rest material_id (S start)) as [i|].
      * destruct IH as [k [m0 [Hi [Hnth [Hid Hfirst]]]]].
        exists (S k), m0. repeat split; [lia | exact Hnth | exact Hid |].
        intros j m' Hj Hj'. destruct j as [|j]; simpl in Hj'.
        -- injection Hj' as <-. exact Hne.
        -- apply (Hfirst j m'); [lia | exact Hj'].
      * intros m0 [<- | Hin]; [exact Hne | now apply IH].
Qed.

Lemma add_material_constraint_emitted materials constraints c :
  add_material_constraint materials constraints c
  = constraints ++ emitted materials c.
Proof.
  unfold add_material_constraint, emitted.
  destruct (find_material materials (materialId c) 0) as [idx|];
    [|now rewrite app_nil_r].
  destruct (minPercentage c), (maxPercentage c); simpl;
    rewrite <- ?app_assoc, ?app_nil_r; reflexivity.
Qed.

Lemma fold_add_material_constraint materials entries :
  forall constraints,
    fold_left (add_material_constraint materials) entries constraints
    = constraints ++ flat_map (emitted materials) entries.
Proof.
  induction entries as [|c rest IH]; intro constraints; simpl.
  - now rewrite app_nil_r.
  - rewrite IH, add_material_constraint_emitted, <- app_assoc. reflexivity.
Qed.


(** ** Normalisation *)

Lemma map_div_one (x : list Q) (total : Q) :
  total == 1 -> Forall2 Qeq (map (fun xi => xi / total) x) x.
Proof.
  intro H. induction x as [|xi rest IH]; simpl; constructor; [|exact IH].
  rewrite H. field.
Qed.

(** C8.  Dividing a ratio vector that sums to 1 by its own sum returns the
    vector itself, entry by entry. *)
Theorem normalize_ratios_idempotent (x : list Q) :
  Qsum x == 1 ->
  exists ratios, normalize_ratios x = Ok ratios /\ Forall2 Qeq ratios x.
Proof.
  intro H. unfold normalize_ratios.
  destruct (Qeq_bool (Qsum x) 0) eqn:E.
  - apply Qeq_bool_iff in E. rewrite H in E. discriminate E.
  - eexists. split; [reflexivity|]. now apply map_div_one.
Qed.

Lemma normalize_ratios_idempotent_witness :
  exists ratios,
    normalize_ratios [0.25; 0.75] = Ok ratios /\ Forall2 Qeq ratios [0.25; 0.75].
Proof.
  apply normalize_ratios_idempotent. reflexivity.
Defined.

(** ** Soil texture *)

(** C10.  The soil-texture record of a result is absent exactly when Clay,
    Silt or Sand is missing from the blend parameters or their total is not
    strictly positive; when present, the total is positive and the three
    percentages are the values divided by the total, times 100. *)
Theorem soil_texture_guarded (success : bool) (ratios : list Q)
    (materials : list Material) (residuals : list Residual)
    (blend_params : dict Q) (iterations : nat) (convergence : bool)
    (relaxed_tolerance : option Q) (config : Config) (r : OptimizationResult) :
  build_result success ratios materials residuals blend_params iterations
               convergence relaxed_tolerance config = Ok r ->
  (soilTexture r = None <->
   (dict_get blend_params "Clay" = None
    \/ dict_get blend_params "Silt" = None
    \/ dict_get blend_params "Sand" = None
    \/ exists c s d,
         dict_get blend_params "Clay" = Some c
         /\ dict_get blend_params "Silt" = Some s
         /\ dict_get blend_params "Sand" = Some d
         /\ c + s + d <= 0))
  /\ (forall t, soilTexture r = Some t ->
        exists c s d,
          dict_get blend_params "Clay" = Some c
          /\ dict_get blend_params "Silt" = Some s
          /\ dict_get blend_params "Sand" = Some d
          /\ 0 < c + s + d
          /\ clay t = c / (c + s + d) * 100
          /\ silt t = s / (c + s + d) * 100
          /\ sand t = d / (c + s + d) * 100).
Proof.
  unfold build_result. intro H.
  destruct (blend_ratios_from ratios materials 0 []); [|discriminate].
  simpl in H. destruct (tonnage_from ratios materials 0); [|discriminate].
  simpl in H. injection H as <-. simpl soilTexture.
  unfold soil_texture_of.
  destruct (dict_get blend_params "Clay") as [c|];
    [|split; [split; auto; discriminate | discriminate]].
  destruct (dict_get blend_params "Silt") as [s|];
    [|split; [split; auto | discriminate]].
  destruct (dict_get blend_params "Sand") as [d|];
    [|split; [split; auto 6 | discriminate]].
  destruct (Qlt_bool 0 (c + s + d)) eqn:E.
  - apply Qlt_bool_iff in E. split.
    + split; [discriminate|].
      intros [H | [H | [H | [c' [s' [d' [Hc [Hs [Hd Hle]]]]]]]]]; try discriminate.
      injection Hc as <-. injection Hs as <-. injection Hd as <-.
      exfalso. exact (Qlt_not_le _ _ E Hle).
    + intros t Ht. injection Ht as <-. exists c, s, d. simpl. auto 10.
  - apply Qlt_bool_false_iff in E. split.
    + split; [|reflexivity]. intros _. right. right. right.
      exists c, s, d. auto.
    + discriminate.
Qed.

(** ** Blend parameters *)

Lemma valid_mask_all (vals : list Q) :
  valid_mask (map Some vals) = repeat true (List.length vals).
Proof. induction vals; simpl; congruence. Qed.

Lemma masked_all {A : Type} (a : list A) :
  masked a (repeat true (List.length a)) = a.
Proof. induction a; simpl; congruence. Qed.

Lemma present_all (vals : list Q) : present (map Some vals) = vals.
Proof. induction vals; simpl; congruence. Qed.

Lemma existsb_repeat_true (n : nat) :
  existsb (fun b : bool => b) (repeat true n) = negb (Nat.eqb n 0).
Proof. destruct n; reflexivity. Qed.

Lemma present_nil_mask (values : list (option Q)) :
  present values = [] <-> existsb (fun b : bool => b) (valid_mask values) = false.
Proof.
  induction values as [|[v|] rest IH]; simpl.
  - tauto.
  - split; discriminate.
  - exact IH.
Qed.

(** For a parameter every material has a value for, the loop body keeps the
    ratios as they are: the blend value is the weighted sum with the ratios
    divided by their total, and is stored only when that total is positive. *)
Lemma blend_value_of_all_present (ratios vals : list Q) :
  List.length ratios = List.length vals ->
  blend_value_of ratios (map Some vals)
  = Ok (if Qlt_bool 0 (Qsum ratios)
        then Some (dot (map (fun r => r / Qsum ratios) ratios) vals)
        else None).
Proof.
  intro Hlen. unfold blend_value_of.
  rewrite valid_mask_all, existsb_repeat_true, repeat_length, present_all.
  destruct vals as [|v vals].
  - destruct ratios; [reflexivity | discriminate].
  - rewrite <- Hlen, Nat.eqb_refl, masked_all.
    destruct ratios as [|r ratios]; [discriminate|].
    simpl negb. cbv iota.
    destruct (Qlt_bool 0 (Qsum (r :: ratios))); reflexivity.
Qed.

(** What [calculate_blend_parameters] stores under a key is what the loop
    body computes from the values listed under that key. *)
Lemma blend_loop_lookup (ratios : list Q) (items : dict (list (option Q))) :
  forall acc blend_params,
    NoDup (keys items) ->
    (forall p, In p (keys items) -> dict_get acc p = None) ->
    blend_loop ratios items acc = Ok blend_params ->
    (forall p, ~ In p (keys items) -> dict_get blend_params p = dict_get acc p)
    /\ (forall p values,
          dict_get items p = Some values ->
          blend_value_of ratios values = Ok (dict_get blend_params p)).
Proof.
  induction items as [|[k vs] rest IH]; intros acc blend_params Hnd Hfresh H.
  - simpl in H. injection H as <-. split; [reflexivity | discriminate].
  - simpl in H. simpl in Hnd. inversion Hnd as [|? ? Hk Hnd']; subst.
    destruct (blend_value_of ratios vs) as [b|] eqn:Hb; [|discriminate].
    simpl in H.
    set (acc' := match b with Some v => dict_set acc k v | None => acc end).
    assert (Hloop : blend_loop ratios rest acc' = Ok blend_params).
    { unfold acc'. destruct b; exact H. }
    assert (Hfresh' : forall p, In p (keys rest) -> dict_get acc' p = None).
    { intros p Hp. unfold acc'. destruct b as [v|].
      - rewrite dict_get_set_other; [apply Hfresh; now right|].
        intros ->. contradiction.
      - apply Hfresh. now right. }
    destruct (IH acc' blend_params Hnd' Hfresh' Hloop) as [Hout Hin].
    assert (Hk' : dict_get blend_params k = b).
    { rewrite (Hout k Hk). unfold acc'. destruct b as [v|].
      - apply dict_get_set_same.
      - apply Hfresh. now left. }
    split.
    + intros p Hp. simpl in Hp.
      rewrite Hout; [|tauto]. unfold acc'. destruct b as [v|]; [|reflexivity].
      apply dict_get_set_other. tauto.
    + intros p values Hget. simpl in Hget.
      destruct (String.eqb k p) eqn:E.
      * apply String.eqb_eq in E. subst p. injection Hget as <-.
        now rewrite Hk'.
      * now apply Hin.
Qed.

Lemma calculate_blend_parameters_lookup (ratios : list Q)
    (material_params : dict (list (option Q))) (blend_params : dict Q)
    (p : string) (values : list (option Q)) :
  NoDup (keys material_params) ->
  calculate_blend_parameters ratios material_params = Ok blend_params ->
  dict_get material_params p = Some values ->
  blend_value_of ratios values = Ok (dict_get blend_params p).
Proof.
  intros Hnd H Hget.
  destruct (blend_loop_lookup ratios material_params [] blend_params Hnd
              (fun _ _ => eq_refl) H) as [_ Hin].
  now apply Hin.
Qed.

Lemma total_of_Qsum (xs : list Q) : total_of xs == Qsum xs.
Proof.
  unfold total_of.
  assert (G : forall acc, fold_left Qplus xs acc == acc + Qsum xs).
  { induction xs as [|x rest IH]; intro acc; simpl; [ring|].
    rewrite IH. ring. }
  rewrite G. ring.
Qed.

Lemma Qsum_shares (total total' : Q) (ratios vals : list Q) :
  total' == total ->
  Qsum (map (fun rv => fst rv / total' * snd rv) (combine ratios vals))
  == dot (map (fun r => r / total) ratios) vals.
Proof.
  intro Ht. revert vals.
  induction ratios as [|r rest IH]; intros [|v vals]; simpl; try reflexivity.
  rewrite IH, Ht. reflexivity.
Qed.

Lemma dot_ratio_weighted_average (ratios vals : list Q) :
  dot (map (fun r => r / Qsum ratios) ratios) vals
  == ratio_weighted_average ratios vals.
Proof.
  unfold ratio_weighted_average.
  rewrite total_of_Qsum. symmetry. apply Qsum_shares, total_of_Qsum.
Qed.

(** C7, as amended.  For a parameter every material supplies a value for,
    and a ratio vector aligned with the materials, the blend parameter that
    [calculate_blend_parameters] stores is the ratio-weighted average of the
    material values, each value counting with its ratio's share
    [r_i / sum(r)] of the total; it is stored whenever the ratios have a
    positive total and left out otherwise.  (Nothing is stated about a
    rescaled ratio vector: see [blend_changes_under_rescaling].) *)
Theorem blend_is_weighted_average (ratios : list Q)
    (material_params : dict (list (option Q))) (p : string) (vals : list Q)
    (blend_params : dict Q) :
  NoDup (keys material_params) ->
  dict_get material_params p = Some (map Some vals) ->
  List.length ratios = List.length vals ->
  calculate_blend_parameters ratios material_params = Ok blend_params ->
  (0 < total_of ratios ->
   exists b, dict_get blend_params p = Some b
             /\ b == ratio_weighted_average ratios vals)
  /\ (total_of ratios <= 0 -> dict_get blend_params p = None).
Proof.
  intros Hnd Hget Hlen Hblend.
  pose proof (calculate_blend_parameters_lookup _ _ _ _ _ Hnd Hblend Hget) as Hp.
  rewrite (blend_value_of_all_present _ _ Hlen) in Hp.
  injection Hp as Hp.
  split.
  - intro Hpos. rewrite total_of_Qsum in Hpos. apply Qlt_bool_iff in Hpos.
    rewrite Hpos in Hp. eexists. split; [symmetry; exact Hp|].
    apply dot_ratio_weighted_average.
  - intro Hle. rewrite total_of_Qsum in Hle. apply Qlt_bool_false_iff in Hle.
    rewrite Hle in Hp. now symmetry.
Qed.

(** Equal shares of pH 6 and pH 9 blend to 7.5; one part of pH 6 to three
    parts of pH 9 blends to 8.25. *)
Lemma blend_is_weighted_average_witness :
  (exists blend_params b,
     calculate_blend_parameters [0.5; 0.5] [("pH", [Some 6; Some 9])]
     = Ok blend_params
     /\ dict_get blend_params "pH" = Some b
     /\ b == 7.5)
  /\ (exists blend_params b,
        calculate_blend_parameters [1; 3] [("pH", [Some 6; Some 9])]
        = Ok blend_params
        /\ dict_get blend_params "pH" = Some b
        /\ b == 8.25).
Proof.
  split.
  - destruct (calculate_blend_parameters [0.5; 0.5] [("pH", [Some 6; Some 9])])
      as [blend_params|e] eqn:E; [|discriminate E].
    destruct (blend_is_weighted_average [0.5; 0.5] [("pH", [Some 6; Some 9])]
                "pH" [6; 9] blend_params) as [H _].
    + repeat constructor. simpl. tauto.
    + reflexivity.
    + reflexivity.
    + exact E.
    + destruct H as [b [Hb Hq]]; [reflexivity|].
      exists blend_params, b. split; [reflexivity|]. split; [exact Hb|].
      rewrite Hq. reflexivity.
  - destruct (calculate_blend_parameters [1; 3] [("pH", [Some 6; Some 9])])
      as [blend_params|e] eqn:E; [|discriminate E].
    destruct (blend_is_weighted_average [1; 3] [("pH", [Some 6; Some 9])]
                "pH" [6; 9] blend_params) as [H _].
    + repeat constructor. simpl. tauto.
    + reflexivity.
    + reflexivity.
    + exact E.
    + destruct H as [b [Hb Hq]]; [reflexivity|].
      exists blend_params, b. split; [reflexivity|]. split; [exact Hb|].
      rewrite Hq. reflexivity.
Defined.

(** C7 as stated fails on the code: in double precision the blend value is
    not the same after the ratio vector is multiplied by a positive factor.
    With pH 9 and 6 at the ratios 0.1 and 0.9 the blend pH is
    6.300000000000001; with the ratios multiplied by 0.3 it is
    6.299999999999999.  (With two materials the order in which [np.sum]
    adds plays no part.) *)
Lemma blend_changes_under_rescaling :
  calculate_blend_parameters_double [0.1; 0.9]%float [("pH", [9; 6]%float)]
  = Ok [("pH", 6.300000000000001%float)]
  /\ calculate_blend_parameters_double (rescaled 0.3 [0.1; 0.9]%float)
       [("pH", [9; 6]%float)]
     = Ok [("pH", 6.299999999999999%float)]
  /\ PrimFloat.eqb 6.299999999999999 6.300000000000001 = false.
Proof.
  split; [vm_compute; reflexivity|].
  split; vm_compute; reflexivity.
Qed.

(** ** Parameters left out of the blend *)

Lemma blend_value_of_None (ratios : list Q) (values : list (option Q))
    (b : option Q) :
  blend_value_of ratios values = Ok b ->
  (b = None <->
   present values = [] \/ Qsum (masked ratios (valid_mask values)) <= 0).
Proof.
  unfold blend_value_of. intro H.
  destruct (existsb (fun b0 : bool => b0) (valid_mask values)) eqn:Hany; simpl in H.
  - destruct (negb (Nat.eqb (List.length (valid_mask values)) (List.length ratios)));
      [discriminate|].
    assert (Hsome : present values <> []).
    { intro Hn. apply present_nil_mask in Hn. congruence. }
    destruct (Qlt_bool 0 (Qsum (masked ratios (valid_mask values)))) eqn:E;
      injection H as <-.
    + apply Qlt_bool_iff in E. split; [discriminate|].
      intros [Hn | Hle]; [contradiction|].
      exfalso. exact (Qlt_not_le _ _ E Hle).
    + apply Qlt_bool_false_iff in E. split; [now right | reflexivity].
  - injection H as <-. split; [|reflexivity].
    intros _. left. now apply present_nil_mask.
Qed.

(** The objective does not see a targeted parameter that has no blend value. *)
Lemma objective_loop_skips (blend_params : dict Q) (limits : dict (dict pyval))
    (tolerance : Q) (p : string) (targets : dict pyval) :
  dict_get blend_params p = None ->
  forall total_error,
    objective_loop blend_params limits tolerance targets total_error
    = objective_loop blend_params limits tolerance
        (filter (fun kv => negb (String.eqb (fst kv) p)) targets) total_error.
Proof.
  intro Hp. induction targets as [|[k t] rest IH]; intro total_error; simpl.
  - reflexivity.
  - destruct (String.eqb k p) eqn:E; simpl.
    + apply String.eqb_eq in E. subst k. rewrite Hp. apply IH.
    + destruct (dict_get blend_params k); [|apply IH].
      destruct (objective_residual _ _ _ _); simpl; [apply IH | reflexivity].
Qed.

(** The residual entries are those of the blend parameters, one each. *)
Lemma calculate_residuals_parameters (blend_params : dict Q)
    (targets : dict pyval) (limits : dict (dict pyval)) (config : Config)
    (rs : list Residual) :
  calculate_residuals blend_params targets limits config = Ok rs ->
  Permutation (keys blend_params) (map parameter rs).
Proof.
  unfold calculate_residuals. intro H.
  destruct (residuals_loop targets limits (config_tolerance config) blend_params [])
    as [unsorted|] eqn:Hloop; [|discriminate].
  simpl in H. injection H as <-.
  destruct (residuals_loop_entries _ _ _ _ _ _ Hloop) as [new [Hnew [Hkeys _]]].
  simpl in Hnew. subst new. rewrite <- Hkeys.
  apply Permutation_map, sort_desc_spec.
Qed.

Lemma count_status_total (rs : list Residual) :
  (count_status compliant rs + count_status marginal rs
   + count_status exceeding rs = List.length rs)%nat.
Proof.
  unfold count_status. induction rs as [|r rest IH]; simpl; [reflexivity|].
  destruct (status r); simpl; lia.
Qed.

Lemma missing_warning_In (missing : list string) :
  missing <> [] ->
  In (MissingWarning (firstn 5 missing)
        (if Nat.ltb 5 (List.length missing)
         then Some (List.length missing - 5)%nat else None))
     (missing_warning missing).
Proof.
  intro H. destruct missing; [contradiction | now left].
Qed.

(** C9.  A selected parameter is left out of the blend exactly when no
    material has a value for it or the ratios of the materials that do have
    one do not sum to a positive number (a zero sum included): the division
    by that sum is never carried out.  Such a parameter is then skipped by
    the objective, has no residual entry and is not counted in the
    compliance summary, and it is one of the missing parameters that the
    missing-data warning of the result reports (the first five by name, the
    others by count). *)
Theorem dropped_parameter_guard (ratios : list Q)
    (material_params : dict (list (option Q))) (p : string)
    (values : list (option Q)) (blend_params : dict Q) :
  NoDup (keys material_params) ->
  dict_get material_params p = Some values ->
  calculate_blend_parameters ratios material_params = Ok blend_params ->
  (dict_get blend_params p = None <->
   present values = [] \/ Qsum (masked ratios (valid_mask values)) <= 0)
  /\ (dict_get blend_params p = None ->
      (forall targets limits tolerance total_error,
          objective_loop blend_params limits tolerance targets total_error
          = objective_loop blend_params limits tolerance
              (filter (fun kv => negb (String.eqb (fst kv) p)) targets)
              total_error)
      /\ (forall targets limits config rs,
            calculate_residuals blend_params targets limits config = Ok rs ->
            ~ In p (map parameter rs)
            /\ totalParameters (compliance_summary rs) = List.length blend_params
            /\ (compliantCount (compliance_summary rs)
                + marginalCount (compliance_summary rs)
                + exceedingCount (compliance_summary rs)
                = List.length blend_params)%nat)
      /\ (forall success final_ratios materials rs iterations convergence
                 relaxed_tolerance config r,
            build_result success final_ratios materials rs blend_params
                         iterations convergence relaxed_tolerance config = Ok r ->
            In p (selectedParameters config) ->
            let missing := missing_params_of config blend_params in
            In p missing
            /\ In (MissingWarning (firstn 5 missing)
                     (if Nat.ltb 5 (List.length missing)
                      then Some (List.length missing - 5)%nat else None))
                  (warnings r))).
Proof.
  intros Hnd Hget Hblend.
  pose proof (calculate_blend_parameters_lookup _ _ _ _ _ Hnd Hblend Hget) as Hp.
  split; [exact (blend_value_of_None _ _ _ Hp)|].
  intro Hnone. split; [|split].
  - intros targets limits tolerance total_error.
    now apply objective_loop_skips.
  - intros targets limits config rs Hrs.
    pose proof (calculate_residuals_parameters _ _ _ _ _ Hrs) as Hperm.
    assert (Hlen : List.length rs = List.length blend_params).
    { rewrite <- (length_map parameter rs), <- (Permutation_length Hperm).
      unfold keys. apply length_map. }
    split; [|split].
    + intro Hin. apply (Permutation_in _ (Permutation_sym Hperm)) in Hin.
      apply dict_get_None_keys in Hnone. contradiction.
    + exact Hlen.
    + simpl. rewrite count_status_total. exact Hlen.
  - intros success final_ratios materials rs iterations convergence
           relaxed_tolerance config r Hr Hsel missing.
    assert (Hin : In p missing).
    { unfold missing, missing_params_of. apply filter_In. split; [exact Hsel|].
      unfold dict_mem. now rewrite Hnone. }
    split; [exact Hin|].
    unfold build_result in Hr.
    destruct (blend_ratios_from final_ratios materials 0 []); [|discriminate].
    simpl in Hr. destruct (tonnage_from final_ratios materials 0); [|discriminate].
    simpl in Hr. injection Hr as <-. simpl warnings.
    unfold build_warnings. rewrite !in_app_iff. right. right. right.
    apply missing_warning_In. intro Hnil. fold missing in Hnil.
    rewrite Hnil in Hin. exact Hin.
Qed.

Lemma dropped_parameter_guard_witness :
  exists blend_params,
    calculate_blend_parameters [0; 1]
      (extract_material_parameters Inputs.texture_materials Inputs.texture_config)
    = Ok blend_params
    /\ keys blend_params = ["Clay"; "Sand"]
    /\ dict_get blend_params "Silt" = None.
Proof.
  destruct (calculate_blend_parameters [0; 1]
              (extract_material_parameters Inputs.texture_materials
                                           Inputs.texture_config))
    as [blend_params|e] eqn:E; [|discriminate E].
  exists blend_params. split; [reflexivity|].
  split; [injection E as <-; reflexivity|].
  apply (dropped_parameter_guard [0; 1]
           (extract_material_parameters Inputs.texture_materials
                                        Inputs.texture_config)
           "Silt" [Some 15; None] blend_params).
  - simpl. repeat constructor; simpl; intuition discriminate.
  - reflexivity.
  - exact E.
  - right. simpl. discriminate.
Defined.

Lemma soil_texture_guarded_witness :
  exists r,
    build_result true [0; 1] Inputs.texture_materials []
                 [("Clay", 8); ("Sand", 30)] 1 true None Inputs.texture_config
    = Ok r
    /\ soilTexture r = None.
Proof.
  destruct (build_result true [0; 1] Inputs.texture_materials []
              [("Clay", 8); ("Sand", 30)] 1 true None Inputs.texture_config)
    as [r|e] eqn:E; [|discriminate E].
  exists r. split; [reflexivity|].
  apply (soil_texture_guarded _ _ _ _ _ _ _ _ _ r E).
  right. left. reflexivity.
Defined.

(** ** The staged fallback *)

Section Stages.

Variable minimize :
  (list Q -> exc Q) -> list Q -> list (Q * Q) -> list constraint ->
  exc Scipy.OptimizeResult.
Variable differential_evolution :
  (list Q -> exc Q) -> list (Q * Q) -> list constraint ->
  exc Scipy.OptimizeResult.
Variable material_params : dict (list (option Q)).
Variable targets : dict pyval.
Variable limits : dict (dict pyval).
Variable config : Config.
Variable x0 : list Q.
Variable bounds : list (Q * Q).
Variable constraints : list constraint.

Local Abbreviation sweep :=
  (sweep_call material_params targets limits config x0 bounds constraints).
Local Abbreviation objective :=
  (objective_of material_params targets limits config).
Local Abbreviation auto_relax := (auto_relax_of config).

Lemma last_of_cons {A : Type} (a : A) (l : list A) :
  last_of (a :: l) = match last_of l with Some b => Some b | None => Some a end.
Proof.
  destruct l as [|b l]; [reflexivity|].
  change (last_of (a :: b :: l)) with (last_of (b :: l)).
  revert b. induction l as [|c l IH]; intro b; [reflexivity|].
  change (last_of (b :: c :: l)) with (last_of (c :: l)).
  destruct (last_of (c :: l)) eqn:E; [reflexivity|].
  specialize (IH c). rewrite E in IH. discriminate IH.
Qed.

Lemma last_of_None {A : Type} (l : list A) : last_of l = None -> l = [].
Proof.
  destruct l as [|a l]; [reflexivity|]. rewrite last_of_cons.
  destruct (last_of l); discriminate.
Qed.

(** The sweep tries the tolerances in order, each attempt with the same
    starting point, bounds and constraints, and goes on only after a
    failed attempt. *)
Lemma relax_sweep_trace (new_tolerances : list Q) :
  forall result calls out,
    relax_sweep minimize material_params targets limits config x0 bounds
                constraints new_tolerances result = (calls, out) ->
    exists attempts,
      calls = map sweep attempts
      /\ map fst attempts = firstn (List.length attempts) new_tolerances
      /\ Forall (fun a => Scipy.success (snd a) = false) (removelast attempts)
      /\ (forall final relaxed_tolerance,
            out = Ok (final, relaxed_tolerance) ->
            relaxed_tolerance = recorded_tolerance attempts
            /\ match last_of attempts with
               | Some (_, r) =>
                   final = r
                   /\ (Scipy.success r = true
                       \/ List.length attempts = List.length new_tolerances)
               | None => final = result /\ new_tolerances = []
               end).
Proof.
  induction new_tolerances as [|t rest IH]; intros result calls out H.
  - simpl in H. injection H as <- <-. exists [].
    split; [reflexivity|]. split; [reflexivity|]. split; [constructor|].
    intros final relaxed_tolerance Ho. injection Ho as <- <-.
    repeat split.
  - simpl in H. unfold call_minimize, tbind in H.
    destruct (minimize _ x0 bounds constraints) as [r1|e] eqn:Hmin.
    + destruct (Scipy.success r1) eqn:Hs.
      * simpl in H. injection H as <- <-. exists [(t, r1)].
        split; [reflexivity|]. split; [reflexivity|]. split; [constructor|].
        intros final relaxed_tolerance Ho. injection Ho as <- <-.
        unfold recorded_tolerance. simpl. rewrite Hs.
        split; [reflexivity|]. split; [reflexivity | now left].
      * destruct (relax_sweep minimize material_params targets limits config x0
                    bounds constraints rest r1) as [calls' out'] eqn:Hrest.
        injection H as <- <-.
        destruct (IH r1 calls' out' Hrest) as [attempts [Hc [Hf [Hfail Hout]]]].
        exists ((t, r1) :: attempts). split; [|split; [|split]].
        -- simpl. now rewrite Hc.
        -- simpl. now rewrite Hf.
        -- destruct attempts as [|a attempts]; [constructor|].
           change (removelast ((t, r1) :: a :: attempts))
             with ((t, r1) :: removelast (a :: attempts)).
           constructor; [exact Hs | exact Hfail].
        -- intros final relaxed_tolerance Ho.
           destruct (Hout final relaxed_tolerance Ho) as [Hrel Hlast].
           unfold recorded_tolerance in *. rewrite last_of_cons.
           destruct (last_of attempts) as [[t' r']|] eqn:El.
           ++ split; [exact Hrel|]. destruct Hlast as [Hfin Hor].
              split; [exact Hfin|]. destruct Hor as [Hok | Hlen]; [now left|].
              right. simpl. now rewrite Hlen.
           ++ apply last_of_None in El. subst attempts.
              destruct Hlast as [-> ->]. rewrite Hs.
              split; [exact Hrel|]. split; [reflexivity | now right].
    + injection H as <- <-. exists [].
      split; [reflexivity|]. split; [reflexivity|]. split; [constructor|].
      discriminate.
Qed.

Lemma last_of_app_single {A : Type} (l : list A) (a : A) :
  last_of (l ++ [a]) = Some a.
Proof.
  induction l as [|b l IH]; [reflexivity|].
  simpl app. rewrite last_of_cons, IH. reflexivity.
Qed.

Lemma last_of_map {A B : Type} (f : A -> B) (l : list A) :
  last_of (map f l) = option_map f (last_of l).
Proof.
  induction l as [|a l IH]; [reflexivity|].
  simpl map. rewrite !last_of_cons, IH. now destruct (last_of l).
Qed.

Lemma Forall_removelast_last {A : Type} (P : A -> Prop) (l : list A) (a : A) :
  Forall P (removelast l) -> last_of l = Some a -> P a -> Forall P l.
Proof.
  induction l as [|b l IH]; intros Hall Hlast Ha; [constructor|].
  rewrite last_of_cons in Hlast.
  destruct l as [|c l].
  - simpl in Hlast. injection Hlast as ->. now constructor.
  - change (removelast (b :: c :: l)) with (b :: removelast (c :: l)) in Hall.
    inversion Hall as [|? ? Hb Hrest]; subst.
    constructor; [exact Hb|]. apply IH; [exact Hrest | | exact Ha].
    destruct (last_of (c :: l)) eqn:E; [exact Hlast|].
    apply last_of_None in E. discriminate E.
Qed.

(** The calls of [solve_stages]: at most one initial solve, then the
    sweep attempts, then at most one global solve. *)
Lemma solve_stages_trace (calls : list SolverCall)
    (out : exc (Scipy.OptimizeResult * option Q)) :
  solve_stages minimize differential_evolution material_params targets
               limits config x0 bounds constraints = (calls, out) ->
  exists initial attempts global,
    calls = map (local_call objective x0 bounds constraints) initial
            ++ map sweep attempts
            ++ map (global_call objective bounds constraints) global
    /\ (List.length initial <= 1)%nat
    /\ (List.length global <= 1)%nat
    /\ (attempts <> [] ->
        auto_relax = true /\ exists r0, initial = [r0] /\ failed r0)
    /\ map fst attempts = firstn (List.length attempts) sweep_tolerances
    /\ Forall (fun a => failed (snd a)) (removelast attempts)
    /\ (global <> [] ->
        Forall failed initial /\ Forall (fun a => failed (snd a)) attempts)
    /\ (forall final relaxed_tolerance,
          out = Ok (final, relaxed_tolerance) ->
          relaxed_tolerance = recorded_tolerance attempts
          /\ last_of (map returned calls) = Some final
          /\ (exists r0,
                initial = [r0]
                /\ (failed r0 -> auto_relax = true ->
                    attempts <> []
                    /\ (recorded_tolerance attempts <> None
                        \/ List.length attempts = List.length sweep_tolerances)))
          /\ (Forall failed initial ->
              Forall (fun a => failed (snd a)) attempts -> global <> [])).
Proof.
  unfold solve_stages.
  change (fun ratios : list Q =>
            calculate_objective ratios material_params targets limits config)
    with objective.
  change (match autoRelax config with Some b => b | None => true end)
    with auto_relax.
  unfold call_minimize at 1. unfold tbind at 1.
  destruct (minimize objective x0 bounds constraints) as [r0|e] eqn:H0.
  2:{ intro H. injection H as <- <-. exists [], [], []. simpl.
      split; [reflexivity|]. split; [lia|]. split; [lia|].
      split; [intro Hn; now contradiction Hn|].
      split; [reflexivity|]. split; [constructor|].
      split; [intro Hn; now contradiction Hn|].
      discriminate. }
  destruct (negb (Scipy.success r0) && auto_relax) eqn:Hgo.
  - apply andb_true_iff in Hgo. destruct Hgo as [Hf0 Hauto].
    apply negb_true_iff in Hf0.
    destruct (relax_sweep minimize material_params targets limits config x0
                bounds constraints sweep_tolerances r0) as [calls1 out1] eqn:Hsw.
    destruct (relax_sweep_trace _ _ _ _ Hsw) as [attempts [Hc [Hord [Hfail Hout]]]].
    unfold tbind at 1.
    destruct out1 as [[res relaxed]|e1].
    + destruct (Hout res relaxed eq_refl) as [Hrel Hlast].
      destruct (last_of attempts) as [[t r]|] eqn:El;
        [|destruct Hlast as [_ Hnil]; discriminate Hnil].
      destruct Hlast as [-> Hor].
      assert (Hne : attempts <> []) by (intros ->; discriminate El).
      destruct (Scipy.success r) eqn:Hsr; simpl negb; cbv iota.
      * unfold tret, tbind. intro H. injection H as <- <-.
        exists [r0], attempts, []. rewrite Hc. simpl map. rewrite !app_nil_r.
        split; [reflexivity|]. split; [simpl; lia|]. split; [simpl; lia|].
        split; [intros _; split; [exact Hauto | now exists r0]|].
        split; [exact Hord|]. split; [exact Hfail|].
        split; [intro Hn; now contradiction Hn|].
        intros final rt Ho. injection Ho as <- <-.
        split; [exact Hrel|]. split.
        { simpl app. simpl map. rewrite last_of_cons, map_map, last_of_map, El.
          reflexivity. }
        split.
        { exists r0. split; [reflexivity|]. intros _ _. split; [exact Hne|].
          left. unfold recorded_tolerance. rewrite El, Hsr. discriminate. }
        intros _ Hall. exfalso.
        assert (Hin : In (t, r) attempts).
        { clear - El. induction attempts as [|a l IH]; [discriminate|].
          rewrite last_of_cons in El. destruct (last_of l) eqn:E.
          - right. apply IH. congruence.
          - left. congruence. }
        rewrite Forall_forall in Hall. specialize (Hall _ Hin).
        unfold failed in Hall. simpl in Hall. congruence.
      * unfold call_differential_evolution, tbind, tret.
        destruct (differential_evolution objective bounds constraints)
          as [rg|eg] eqn:Hg.
        -- intro H. injection H as <- <-.
           exists [r0], attempts, [rg]. rewrite Hc. simpl map.
           split; [reflexivity|].
           split; [simpl; lia|]. split; [simpl; lia|].
           split; [intros _; split; [exact Hauto | now exists r0]|].
           split; [exact Hord|]. split; [exact Hfail|].
           split.
           { intros _. split; [now repeat constructor|].
             apply (Forall_removelast_last _ _ (t, r) Hfail El). exact Hsr. }
           intros final rt Ho. injection Ho as <- <-.
           split; [exact Hrel|]. split.
           { rewrite map_app, app_comm_cons.
             apply (last_of_app_single _ rg). }
           split.
           { exists r0. split; [reflexivity|]. intros _ _. split; [exact Hne|].
             destruct Hor as [Hok | Hlen]; [congruence | now right]. }
           intros _ _. discriminate.
        -- intro H. injection H as <- <-.
           exists [r0], attempts, []. rewrite Hc. simpl map. rewrite !app_nil_r.
           split; [reflexivity|]. split; [simpl; lia|]. split; [simpl; lia|].
           split; [intros _; split; [exact Hauto | now exists r0]|].
           split; [exact Hord|]. split; [exact Hfail|].
           split; [intro Hn; now contradiction Hn|].
           discriminate.
    + intro H. injection H as <- <-.
      exists [r0], attempts, []. rewrite Hc. simpl map. rewrite !app_nil_r.
      split; [reflexivity|]. split; [simpl; lia|]. split; [simpl; lia|].
      split; [intros _; split; [exact Hauto | now exists r0]|].
      split; [exact Hord|]. split; [exact Hfail|].
      split; [intro Hn; now contradiction Hn|].
      discriminate.
  - unfold tret at 1. unfold tbind at 1.
    destruct (Scipy.success r0) eqn:Hs0; simpl negb; cbv iota.
    + unfold tret, tbind. intro H. injection H as <- <-.
      exists [r0], [], []. simpl.
      split; [reflexivity|]. split; [lia|]. split; [lia|].
      split; [intro Hn; now contradiction Hn|].
      split; [reflexivity|]. split; [constructor|].
      split; [intro Hn; now contradiction Hn|].
      intros final rt Ho. injection Ho as <- <-.
      split; [reflexivity|]. split; [reflexivity|].
      split.
      { exists r0. split; [reflexivity|]. intros Hf. unfold failed in Hf. congruence. }
      intros Hall _. inversion Hall as [|? ? Hf _]; subst.
      unfold failed in Hf. congruence.
    + simpl in Hgo.
      unfold call_differential_evolution, tbind, tret.
      destruct (differential_evolution objective bounds constraints)
        as [rg|eg] eqn:Hg.
      * intro H. injection H as <- <-.
        exists [r0], [], [rg]. simpl.
        split; [reflexivity|]. split; [lia|]. split; [lia|].
        split; [intro Hn; now contradiction Hn|].
        split; [reflexivity|]. split; [constructor|].
        split; [intros _; split; [now repeat constructor | constructor]|].
        intros final rt Ho. injection Ho as <- <-.
        split; [reflexivity|]. split; [reflexivity|].
        split.
        { exists r0. split; [reflexivity|]. intros _ Ha. congruence. }
        intros _ _. discriminate.
      * intro H. injection H as <- <-.
        exists [r0], [], []. simpl.
        split; [reflexivity|]. split; [lia|]. split; [lia|].
        split; [intro Hn; now contradiction Hn|].
        split; [reflexivity|]. split; [constructor|].
        split; [intro Hn; now contradiction Hn|].
        discriminate.
Qed.

End Stages.











(** ** The Arsenic input past the solvers *)

(** For the Arsenic input the final report raises too, whatever the two
    ratios (of non-zero sum) the solvers end on: the failure does not hinge
    on how a solver evaluates the objective. *)
Lemma arsenic_report_raises (a b : Q) (flag : bool) (iterations : option nat)
    (relaxed_tolerance : option Q) :
  ~ a + b == 0 ->
  let material_params :=
    extract_material_parameters Inputs.arsenic_materials Inputs.arsenic_config in
  report Inputs.arsenic_materials Inputs.arsenic_config material_params
         (fst (get_targets_and_limits material_params Inputs.arsenic_config))
         (snd (get_targets_and_limits material_params Inputs.arsenic_config))
         (Scipy.mkOptimizeResult [a; b] flag iterations) relaxed_tolerance
  = Raise TypeError.
Proof.
  intros Hsum material_params. unfold report, normalize_ratios.
  simpl Scipy.x.
  assert (Hs : Qsum [a; b] == a + b) by (simpl; ring).
  destruct (Qeq_bool (Qsum [a; b]) 0) eqn:E.
  { apply Qeq_bool_iff in E. rewrite Hs in E. contradiction. }
  simpl bind at 1.
  pose (ratios := [a / (a + (b + 0)); b / (a + (b + 0))]).
  assert (Hlen : List.length ratios = List.length [10; 30]) by reflexivity.
  assert (Hpos : Qlt_bool 0 (Qsum ratios) = true).
  { apply Qlt_bool_iff. unfold ratios. simpl.
    setoid_replace (a / (a + (b + 0)) + (b / (a + (b + 0)) + 0)) with 1;
      [reflexivity|].
    field. intro H. apply Hsum. rewrite <- H. ring. }
  unfold calculate_blend_parameters.
  change material_params with [("Arsenic", map Some [10; 30])].
  unfold blend_loop. fold ratios.
  rewrite (blend_value_of_all_present _ _ Hlen), Hpos.
  simpl bind at 1. simpl bind at 1.
  rewrite (calculate_residuals_None_target _ _ _ _ "Arsenic");
    [reflexivity | now left | reflexivity].
Qed.

(** ** The specification's scenarios *)

(** pH 6.0 and 9.0 in equal parts under the BS3882 limits: blend 7.5,
    target 7.0, residual 0.5, about 7.14 percent, compliant. *)
Example ph_scenario :
  let material_params :=
    extract_material_parameters Inputs.ph_materials Inputs.ph_config in
  let '(targets, limits) := get_targets_and_limits material_params Inputs.ph_config in
  exists blend_params r,
    calculate_blend_parameters [0.5; 0.5] material_params = Ok blend_params
    /\ calculate_residuals blend_params targets limits Inputs.ph_config = Ok [r]
    /\ value r == 7.5
    /\ target r == 7
    /\ residual r == 0.5
    /\ residualPercent r == 50 / 7
    /\ status r = compliant.
Proof.
  cbv zeta. simpl get_targets_and_limits.
  eexists. eexists. split; [reflexivity|]. split; [reflexivity|].
  repeat split; reflexivity.
Qed.

(** A minimum of 80% on the first material, an entry for an id no material
    has, and a 5% to 20% band on the second material. *)
Example constrained_scenario :
  setup_constraints Inputs.ph_materials Inputs.constrained_config 2
  = [ mkConstraint Eq_ SumMinusOne;
      mkConstraint Ineq (RatioMinusMin 0 (80 / 100));
      mkConstraint Ineq (RatioMinusMin 1 (5 / 100));
      mkConstraint Ineq (MaxMinusRatio 1 (20 / 100)) ].
Proof. reflexivity. Qed.

(** Clay 8, Silt 15 and Sand 30 are 15.1%, 28.3% and 56.6% of their total
    53: within the acceptable ranges. *)
Example texture_scenario :
  exists t,
    soil_texture_of [("Clay", 8); ("Silt", 15); ("Sand", 30)] = Some t
    /\ clay t == 800 / 53
    /\ silt t == 1500 / 53
    /\ sand t == 3000 / 53
    /\ withinAcceptableRange t = true.
Proof.
  eexists. split; [reflexivity|]. repeat split; reflexivity.
Qed.

(** A parameter with no limits at all gets the target 0. *)
Example unlimited_target :
  get_targets_and_limits [("Potassium", [Some 120; Some 80])] Inputs.ph_config
  = ([("Potassium", PyNum 0)],
     [("Potassium", [("lower", PyNone); ("upper", PyNone)])]).
Proof. reflexivity. Qed.


(** * Further properties of the engine *)

(** ** Parameter extraction *)

(** In a dictionary with distinct keys, an item is what its key looks up. *)
Lemma dict_get_of_In {V : Type} (d : dict V) (k : string) (v : V) :
  NoDup (keys d) -> In (k, v) d -> dict_get d k = Some v.
Proof.
  induction d as [|[k' v'] d IH]; simpl; [intros _ []|].
  intros Hnd [Heq | Hin]; inversion Hnd as [|? ? Hk Hnd']; subst.
  - injection Heq as -> ->. now rewrite String.eqb_refl.
  - destruct (String.eqb k' k) eqn:E; [|now apply IH].
    apply String.eqb_eq in E. subst k'. exfalso. apply Hk.
    apply in_map_iff. now exists (k, v).
Qed.

Lemma dict_get_In {V : Type} (d : dict V) (k : string) (v : V) :
  dict_get d k = Some v -> In (k, v) d.
Proof.
  induction d as [|[k' v'] d IH]; simpl; [discriminate|].
  destruct (String.eqb k' k) eqn:E.
  - apply String.eqb_eq in E. subst k'. intro H. injection H as ->. now left.
  - intro H. right. now apply IH.
Qed.

Lemma extract_fold_lookup (materials : list Material) (p : string)
    (names : list string) :
  forall acc,
    let out :=
      fold_left
        (fun material_params param_name =>
           dict_set material_params param_name
             (map (fun material =>
                     match dict_get (parameters material) param_name with
                     | Some value => value
                     | None => None
                     end) materials))
        names acc in
    (In p names -> dict_get out p = Some (map (value_of p) materials))
    /\ (~ In p names -> dict_get out p = dict_get acc p).
Proof.
  induction names as [|k rest IH]; intro acc; cbv zeta; simpl.
  - split; [intros [] | reflexivity].
  - specialize (IH (dict_set acc k (map (value_of k) materials))).
    cbv zeta in IH. destruct IH as [IHin IHout].
    split.
    + intros [-> | Hin].
      * destruct (in_dec string_dec p rest) as [Hr | Hr]; [now apply IHin|].
        unfold value_of in *. rewrite (IHout Hr). apply dict_get_set_same.
      * now apply IHin.
    + intro Hn. unfold value_of in *. rewrite IHout; [|tauto].
      apply dict_get_set_other. tauto.
Qed.

(** The vectors [extract_material_parameters] builds: one key per selected
    parameter and no other, a duplicate selection counting once; under each
    key a list index-aligned with the materials, holding the material's
    declared value or the missing marker. *)
Theorem extract_material_parameters_vectors (materials : list Material)
    (config : Config) (p : string) :
  let material_params := extract_material_parameters materials config in
  (In p (selectedParameters config) ->
   dict_get material_params p = Some (map (value_of p) materials))
  /\ (~ In p (selectedParameters config) -> dict_get material_params p = None)
  /\ NoDup (keys material_params)
  /\ (forall values,
        In (p, values) material_params ->
        List.length values = List.length materials
        /\ forall i m, nth_error materials i = Some m ->
                       nth_error values i = Some (value_of p m)).
Proof.
  cbv zeta.
  pose proof (extract_fold_lookup materials p (selectedParameters config) [])
    as H. cbv zeta in H. destruct H as [Hin Hout].
  fold (extract_material_parameters materials config) in Hin, Hout.
  split; [exact Hin|]. split; [exact Hout|].
  split; [apply extract_material_parameters_NoDup|].
  intros values Hvs.
  pose proof (dict_get_of_In _ _ _ (extract_material_parameters_NoDup materials config) Hvs)
    as Hget.
  destruct (in_dec string_dec p (selectedParameters config)) as [Hs | Hs].
  - rewrite (Hin Hs) in Hget. injection Hget as <-.
    split; [apply length_map|].
    intros i m Hi. rewrite nth_error_map, Hi. reflexivity.
  - rewrite (Hout Hs) in Hget. discriminate.
Qed.

(** ** Targets and limits of every parameter *)

Lemma dict_set_keys_fresh {V : Type} (d : dict V) (k : string) (v : V) :
  ~ In k (keys d) -> keys (dict_set d k v) = keys d ++ [k].
Proof.
  induction d as [|[k' v'] d IH]; simpl; intro Hn; [reflexivity|].
  destruct (String.eqb k' k) eqn:E.
  - apply String.eqb_eq in E. subst k'. exfalso. apply Hn. now left.
  - simpl. rewrite IH; [reflexivity | tauto].
Qed.

Lemma get_targets_and_limits_keys (material_params : dict (list (option Q)))
    (config : Config) :
  NoDup (keys material_params) ->
  keys (fst (get_targets_and_limits material_params config))
  = keys material_params
  /\ keys (snd (get_targets_and_limits material_params config))
     = keys material_params.
Proof.
  unfold get_targets_and_limits.
  generalize (keys material_params) as names. intros names Hnd.
  assert (G : forall acc : dict pyval * dict (dict pyval),
             (forall k, In k names -> ~ In k (keys (fst acc))
                                      /\ ~ In k (keys (snd acc))) ->
             let out := fold_left
               (fun '(targets, limits) param_name =>
                  let param_limits := resolve_limits config param_name in
                  (dict_set targets param_name
                            (resolve_target param_name param_limits),
                   dict_set limits param_name param_limits))
               names acc in
             keys (fst out) = keys (fst acc) ++ names
             /\ keys (snd out) = keys (snd acc) ++ names).
  { induction Hnd as [|k rest Hk Hnd IH]; intros [targets limits] Hfresh;
      cbv zeta; simpl.
    - now rewrite !app_nil_r.
    - destruct (Hfresh k (or_introl eq_refl)) as [Ht Hl]. simpl in Ht, Hl.
      specialize (IH (dict_set targets k (resolve_target k (resolve_limits config k)),
                      dict_set limits k (resolve_limits config k))).
      cbv zeta in IH. simpl fst in IH. simpl snd in IH.
      rewrite !dict_set_keys_fresh in IH by assumption.
      destruct IH as [IHt IHl].
      + intros k' Hk'. rewrite !in_app_iff. simpl.
        destruct (Hfresh k' (or_intror Hk')) as [Ht' Hl']. simpl in Ht', Hl'.
        split; intros [H | [H | []]]; try contradiction; subst; contradiction.
      + rewrite IHt, IHl, <- !app_assoc. auto. }
  destruct (G ([], [])) as [Ht Hl]; [intros k _; split; intros []|].
  cbv zeta in Ht, Hl. simpl in Ht, Hl. auto.
Qed.

(** The limits of a parameter, bound by bound: the custom limit when
    [customLimits] has that bound for the parameter (a null included), else
    the BS3882 default, else [None]; both keys are always there.  Targets and
    limits have the keys of the parameter vectors, in their order. *)
Theorem limits_precedence (material_params : dict (list (option Q)))
    (config : Config) (p : string) :
  NoDup (keys material_params) ->
  In p (keys material_params) ->
  keys (fst (get_targets_and_limits material_params config))
  = keys material_params
  /\ keys (snd (get_targets_and_limits material_params config))
     = keys material_params
  /\ dict_get (snd (get_targets_and_limits material_params config)) p
     = Some
         [ ("lower",
            match dict_get (get_or (customLimits config) p []) "lower" with
            | Some v => v
            | None => match dict_get (get_or bs3882_limits p []) "lower" with
                      | Some v => v
                      | None => PyNone
                      end
            end);
           ("upper",
            match dict_get (get_or (customLimits config) p []) "upper" with
            | Some v => v
            | None => match dict_get (get_or bs3882_limits p []) "upper" with
                      | Some v => v
                      | None => PyNone
                      end
            end) ].
Proof.
  intros Hnd Hin.
  destruct (get_targets_and_limits_keys material_params config Hnd) as [Ht Hl].
  split; [exact Ht|]. split; [exact Hl|].
  rewrite (proj2 (get_targets_and_limits_lookup material_params config p Hin)).
  reflexivity.
Qed.

Lemma limits_precedence_witness :
  dict_get (snd (get_targets_and_limits
                   [("pH", [Some 6; Some 9])]
                   (mkConfig ["pH"] [("pH", [("upper", PyNum 8)])] [] None None)))
           "pH"
  = Some [("lower", PyNum 5.5); ("upper", PyNum 8)].
Proof.
  refine (proj2 (proj2 (limits_precedence
                          [("pH", [Some 6; Some 9])]
                          (mkConfig ["pH"] [("pH", [("upper", PyNum 8)])] []
                                    None None)
                          "pH" _ _))).
  - repeat constructor. intros [].
  - now left.
Defined.

(** The target of a parameter outside the zero-seeking set is always a
    number: the midpoint of its resolved bounds when it has both, the bound
    it has when it has one, and 0 when it has none. *)
Theorem range_seeking_target (material_params : dict (list (option Q)))
    (config : Config) (p : string) :
  In p (keys material_params) ->
  ~ In p zero_seeking ->
  exists lower upper,
    dict_get (snd (get_targets_and_limits material_params config)) p
    = Some [("lower", lower); ("upper", upper)]
    /\ dict_get (fst (get_targets_and_limits material_params config)) p
       = Some (PyNum match lower, upper with
                     | PyNum l, PyNum u => (l + u) / 2
                     | PyNum l, PyNone => l
                     | PyNone, PyNum u => u
                     | PyNone, PyNone => 0
                     end).
Proof.
  intros Hin Hz.
  destruct (get_targets_and_limits_lookup material_params config p Hin)
    as [Ht Hl].
  rewrite Ht, Hl. unfold resolve_limits.
  eexists. eexists. split; [reflexivity|].
  unfold resolve_target.
  destruct (str_in p zero_seeking) eqn:E;
    [apply str_in_In in E; contradiction|].
  unfold get_or at 1 3. simpl dict_get.
  destruct (get_or _ "lower" _), (get_or _ "upper" _); reflexivity.
Qed.

Lemma range_seeking_target_witness :
  exists lower upper,
    dict_get (snd (get_targets_and_limits [("Zinc", [Some 40; None])]
                                          Inputs.ph_config)) "Zinc"
    = Some [("lower", lower); ("upper", upper)]
    /\ dict_get (fst (get_targets_and_limits [("Zinc", [Some 40; None])]
                                             Inputs.ph_config)) "Zinc"
       = Some (PyNum match lower, upper with
                     | PyNum l, PyNum u => (l + u) / 2
                     | PyNum l, PyNone => l
                     | PyNone, PyNum u => u
                     | PyNone, PyNone => 0
                     end).
Proof.
  apply range_seeking_target.
  - now left.
  - unfold zero_seeking. simpl. intuition discriminate.
Defined.

(** The target of a zero-seeking parameter is the value stored as its lower
    bound, whatever it is: the custom or default lower bound when there is
    one, and [None] (not 0, and never the upper bound) when there is none. *)
Theorem zero_seeking_target (material_params : dict (list (option Q)))
    (config : Config) (p : string) :
  In p (keys material_params) ->
  In p zero_seeking ->
  exists lower upper,
    dict_get (snd (get_targets_and_limits material_params config)) p
    = Some [("lower", lower); ("upper", upper)]
    /\ dict_get (fst (get_targets_and_limits material_params config)) p
       = Some lower.
Proof.
  intros Hin Hz.
  destruct (get_targets_and_limits_lookup material_params config p Hin)
    as [Ht Hl].
  rewrite Ht, Hl. unfold resolve_limits, resolve_target.
  apply str_in_In in Hz. rewrite Hz.
  eexists. eexists. split; reflexivity.
Qed.

Lemma zero_seeking_target_witness :
  exists lower upper,
    dict_get (snd (get_targets_and_limits
                     [("Lead", [Some 40; None])]
                     (mkConfig ["Lead"] [("Lead", [("lower", PyNum 10)])] []
                               None None))) "Lead"
    = Some [("lower", lower); ("upper", upper)]
    /\ dict_get (fst (get_targets_and_limits
                        [("Lead", [Some 40; None])]
                        (mkConfig ["Lead"] [("Lead", [("lower", PyNum 10)])] []
                                  None None))) "Lead"
       = Some lower.
Proof.
  apply zero_seeking_target.
  - now left.
  - unfold zero_seeking. simpl. tauto.
Defined.


(** ** Blend parameters: when they are computed *)

Lemma valid_mask_length (values : list (option Q)) :
  List.length (valid_mask values) = List.length values.
Proof. apply length_map. Qed.

(** The loop body raises exactly on a vector that has a value and not the
    ratios' length. *)
Lemma blend_value_of_returns (ratios : list Q) (values : list (option Q)) :
  (aligned ratios values <-> exists b, blend_value_of ratios values = Ok b)
  /\ (forall e, blend_value_of ratios values = Raise e -> e = IndexError).
Proof.
  unfold blend_value_of, aligned. rewrite valid_mask_length.
  destruct (existsb (fun b : bool => b) (valid_mask values)) eqn:Hany; simpl.
  - assert (Hsome : present values <> []).
    { intro Hn. apply present_nil_mask in Hn. congruence. }
    destruct (Nat.eqb (List.length values) (List.length ratios)) eqn:E; simpl.
    + apply Nat.eqb_eq in E. split.
      * split; [intros _|intros _; now right].
        destruct (Qlt_bool 0 _); eexists; reflexivity.
      * destruct (Qlt_bool 0 _); discriminate.
    + apply Nat.eqb_neq in E. split.
      * split; [intros [H | H]; contradiction | intros [b Hb]; discriminate].
      * intros e He. congruence.
  - split; [|discriminate].
    split; [intros _; eexists; reflexivity|].
    intros _. left. now apply present_nil_mask.
Qed.

Lemma blend_loop_returns (ratios : list Q) (items : dict (list (option Q))) :
  forall acc,
    (Forall (fun kv => aligned ratios (snd kv)) items
     <-> exists blend_params, blend_loop ratios items acc = Ok blend_params)
    /\ (forall e, blend_loop ratios items acc = Raise e -> e = IndexError).
Proof.
  induction items as [|[k vs] rest IH]; intro acc; simpl.
  - split; [|discriminate]. split; [intros _; eexists; reflexivity | constructor].
  - destruct (blend_value_of_returns ratios vs) as [Hiff Herr].
    destruct (blend_value_of ratios vs) as [b|e] eqn:Hb; simpl.
    + assert (Hal : aligned ratios vs) by (apply Hiff; now exists b).
      set (acc' := match b with Some v => dict_set acc k v | None => acc end).
      assert (Heq : match b with
                    | Some v => blend_loop ratios rest (dict_set acc k v)
                    | None => blend_loop ratios rest acc
                    end = blend_loop ratios rest acc')
        by (unfold acc'; now destruct b).
      rewrite Heq. destruct (IH acc') as [IHiff IHerr].
      split; [|exact IHerr]. split.
      * intro Hall. inversion Hall; subst. now apply IHiff.
      * intro Hex. constructor; [exact Hal | now apply IHiff].
    + split.
      * split; [|intros [bp Hbp]; discriminate].
        intro Hall. inversion Hall as [|? ? Hal _]; subst.
        apply Hiff in Hal. destruct Hal as [b Hb']. discriminate.
      * intros e' He'. injection He' as <-. now apply Herr.
Qed.

(** [calculate_blend_parameters] returns exactly when every parameter vector
    that holds a value has as many entries as there are ratios; otherwise it
    raises [IndexError], and it raises nothing else. *)
Theorem calculate_blend_parameters_returns (ratios : list Q)
    (material_params : dict (list (option Q))) :
  (Forall (fun kv => aligned ratios (snd kv)) material_params
   <-> exists blend_params,
         calculate_blend_parameters ratios material_params = Ok blend_params)
  /\ (forall e,
        calculate_blend_parameters ratios material_params = Raise e ->
        e = IndexError).
Proof. apply blend_loop_returns. Qed.

(** ** The objective: sign, failure, and the effect of the tolerance *)

Lemma penalised_nonneg (residual tolerance : Q) : 0 <= penalised residual tolerance.
Proof.
  unfold penalised. destruct (Qlt_bool tolerance (Qabs residual)); simpl; nra.
Qed.

Lemma objective_loop_grows (blend_params : dict Q) (limits : dict (dict pyval))
    (tolerance : Q) (targets : dict pyval) :
  forall total_error v,
    objective_loop blend_params limits tolerance targets total_error = Ok v ->
    total_error <= v.
Proof.
  induction targets as [|[k t] rest IH]; intros total_error v H; simpl in H.
  - injection H as <-. apply Qle_refl.
  - destruct (dict_get blend_params k) as [b|]; [|now apply IH].
    destruct (objective_residual _ _ _ _) as [res|]; [|discriminate].
    simpl in H. apply IH in H.
    pose proof (penalised_nonneg res tolerance). lra.
Qed.

(** The objective is never negative. *)
Theorem calculate_objective_nonneg (ratios : list Q)
    (material_params : dict (list (option Q))) (targets : dict pyval)
    (limits : dict (dict pyval)) (config : Config) (v : Q) :
  calculate_objective ratios material_params targets limits config = Ok v ->
  0 <= v.
Proof.
  unfold calculate_objective. intro H.
  destruct (calculate_blend_parameters ratios material_params); [|discriminate].
  simpl in H. exact (objective_loop_grows _ _ _ _ _ _ H).
Qed.

Lemma calculate_objective_nonneg_witness :
  exists v,
    calculate_objective [0.5; 0.5] [("pH", [Some 4; Some 5])]
      [("pH", PyNum 7)] [("pH", [("lower", PyNum 5.5); ("upper", PyNum 8.5)])]
      Inputs.ph_config = Ok v
    /\ 0 <= v.
Proof.
  destruct (calculate_objective [0.5; 0.5] [("pH", [Some 4; Some 5])]
              [("pH", PyNum 7)]
              [("pH", [("lower", PyNum 5.5); ("upper", PyNum 8.5)])]
              Inputs.ph_config) as [v|e] eqn:E; [|discriminate E].
  exists v. split; [reflexivity|].
  exact (calculate_objective_nonneg _ _ _ _ _ v E).
Defined.

Lemma objective_loop_errors (blend_params : dict Q) (limits : dict (dict pyval))
    (tolerance : Q) (targets : dict pyval) :
  forall total_error e,
    objective_loop blend_params limits tolerance targets total_error = Raise e ->
    e = TypeError
    /\ exists p v, In (p, PyNone) targets /\ dict_get blend_params p = Some v.
Proof.
  induction targets as [|[k t] rest IH]; intros total_error e H; simpl in H;
    [discriminate|].
  destruct (dict_get blend_params k) as [b|] eqn:Hb.
  - destruct t as [|q].
    + rewrite objective_residual_None in H. simpl in H. injection H as <-.
      split; [reflexivity|]. exists k, b. split; [now left | exact Hb].
    + rewrite objective_residual_numeric in H. simpl in H.
      destruct (IH _ _ H) as [He [p [v [Hin Hv]]]].
      split; [exact He|]. exists p, v. split; [now right | exact Hv].
  - destruct (IH _ _ H) as [He [p [v [Hin Hv]]]].
    split; [exact He|]. exists p, v. split; [now right | exact Hv].
Qed.

(** [calculate_objective] raises [IndexError] when the blend computation
    does, [TypeError] exactly when some targeted parameter that has a blend
    value has the target [None], and nothing else. *)
Theorem calculate_objective_raises (ratios : list Q)
    (material_params : dict (list (option Q))) (targets : dict pyval)
    (limits : dict (dict pyval)) (config : Config) :
  (forall e,
      calculate_objective ratios material_params targets limits config = Raise e ->
      e = IndexError \/ e = TypeError)
  /\ (forall blend_params,
        calculate_blend_parameters ratios material_params = Ok blend_params ->
        (calculate_objective ratios material_params targets limits config
         = Raise TypeError
         <-> exists p v,
               In (p, PyNone) targets /\ dict_get blend_params p = Some v)).
Proof.
  unfold calculate_objective. split.
  - intros e H.
    destruct (blend_loop_returns ratios material_params []) as [_ Herr].
    fold (calculate_blend_parameters ratios material_params) in Herr.
    revert H Herr.
    destruct (calculate_blend_parameters ratios material_params) as [blend|e'];
      simpl; intros H Herr.
    + right. exact (proj1 (objective_loop_errors _ _ _ _ _ _ H)).
    + injection H as <-. left. now apply Herr.
  - intros blend_params ->. simpl. split.
    + intro H. exact (proj2 (objective_loop_errors _ _ _ _ _ _ H)).
    + intros [p [v [Hin Hv]]]. now apply (objective_loop_None_target _ _ _ _ p v).
Qed.

Lemma penalised_antitone (residual t1 t2 : Q) :
  t1 <= t2 -> penalised residual t2 <= penalised residual t1.
Proof.
  intro H. unfold penalised.
  destruct (Qlt_bool t2 (Qabs residual)) eqn:E2;
    destruct (Qlt_bool t1 (Qabs residual)) eqn:E1; simpl; try nra.
  apply Qlt_bool_iff in E2. apply Qlt_bool_false_iff in E1. lra.
Qed.

Lemma objective_loop_antitone (blend_params : dict Q)
    (limits : dict (dict pyval)) (t1 t2 : Q) (targets : dict pyval) :
  t1 <= t2 ->
  forall total1 total2 v1,
    objective_loop blend_params limits t1 targets total1 = Ok v1 ->
    total2 <= total1 ->
    exists v2,
      objective_loop blend_params limits t2 targets total2 = Ok v2 /\ v2 <= v1.
Proof.
  intro Ht. induction targets as [|[k t] rest IH]; intros total1 total2 v1 H Hle;
    simpl in *.
  - injection H as <-. exists total2. split; [reflexivity | exact Hle].
  - destruct (dict_get blend_params k) as [b|]; [|now apply (IH total1)].
    destruct (objective_residual _ _ _ _) as [res|]; [|discriminate].
    simpl in *. apply (IH _ _ _ H).
    pose proof (penalised_antitone res t1 t2 Ht). lra.
Qed.

(** Relaxing the tolerance never raises the objective: at the same ratio
    vector, an objective built with a larger tolerance returns whenever the
    one with the smaller tolerance does, with a value that is not larger. *)
Theorem relaxing_lowers_objective (ratios : list Q)
    (material_params : dict (list (option Q))) (targets : dict pyval)
    (limits : dict (dict pyval)) (config config' : Config) (v : Q) :
  config_tolerance config <= config_tolerance config' ->
  calculate_objective ratios material_params targets limits config = Ok v ->
  exists v',
    calculate_objective ratios material_params targets limits config' = Ok v'
    /\ v' <= v.
Proof.
  unfold calculate_objective. intros Ht H.
  destruct (calculate_blend_parameters ratios material_params) as [blend|];
    [|discriminate].
  simpl in *.
  apply (objective_loop_antitone blend limits
           (config_tolerance config / 100) (config_tolerance config' / 100)
           targets) with (total1 := 0) (v1 := v).
  - apply Qmult_le_compat_r; [exact Ht | discriminate].
  - exact H.
  - apply Qle_refl.
Qed.

Lemma relaxing_lowers_objective_witness :
  exists v v',
    calculate_objective [0.5; 0.5] [("Clay", [Some 30; Some 32])]
      [("Clay", PyNum 21.5)] [("Clay", [("lower", PyNum 8); ("upper", PyNum 35)])]
      Inputs.clay_config = Ok v
    /\ calculate_objective [0.5; 0.5] [("Clay", [Some 30; Some 32])]
         [("Clay", PyNum 21.5)]
         [("Clay", [("lower", PyNum 8); ("upper", PyNum 35)])]
         (with_tolerance Inputs.clay_config 50) = Ok v'
    /\ v' <= v.
Proof.
  destruct (calculate_objective [0.5; 0.5] [("Clay", [Some 30; Some 32])]
              [("Clay", PyNum 21.5)]
              [("Clay", [("lower", PyNum 8); ("upper", PyNum 35)])]
              Inputs.clay_config) as [v|e] eqn:E; [|discriminate E].
  assert (Ht : config_tolerance Inputs.clay_config
               <= config_tolerance (with_tolerance Inputs.clay_config 50))
    by discriminate.
  destruct (relaxing_lowers_objective _ _ _ _ _ _ v Ht E) as [v' [Hv' Hle]].
  exists v, v'. split; [reflexivity|]. split; [exact Hv' | exact Hle].
Defined.

(** ** Residuals: when they are computed and what each entry holds *)

(** Each entry of the loop's output is the entry computed for one item, in
    the order of the items. *)
Lemma residuals_loop_origin targets limits tolerance items :
  forall acc rs,
    residuals_loop targets limits tolerance items acc = Ok rs ->
    exists new,
      rs = acc ++ new
      /\ Forall2 (fun kv r =>
                    residual_entry targets limits tolerance (fst kv) (snd kv)
                    = Ok r) items new.
Proof.
  induction items as [|[p b] rest IH]; intros acc rs H; simpl in H.
  - injection H as <-. exists []. rewrite app_nil_r. split; [reflexivity | constructor].
  - destruct (residual_entry targets limits tolerance p b) as [r|] eqn:Hr;
      [|discriminate].
    simpl in H. destruct (IH _ _ H) as [new [Hrs Hall]].
    exists (r :: new). split.
    + rewrite Hrs, <- app_assoc. reflexivity.
    + constructor; [exact Hr | exact Hall].
Qed.

Lemma residuals_loop_returns targets limits tolerance items :
  forall acc,
    (forall p b, In (p, b) items ->
                 is_none (get_or targets p (PyNum 0)) = false) ->
    exists rs, residuals_loop targets limits tolerance items acc = Ok rs.
Proof.
  induction items as [|[p b] rest IH]; intros acc Hnum; simpl.
  - eexists. reflexivity.
  - assert (Hp : is_none (get_or targets p (PyNum 0)) = false)
      by (apply (Hnum p b); now left).
    destruct (residual_entry targets limits tolerance p b) as [r|e] eqn:Hr.
    + simpl. apply IH. intros p' b' Hin. apply (Hnum p' b'). now right.
    + exfalso. unfold residual_entry, plain_residual in Hr.
      destruct (get_or targets p (PyNum 0)) as [|t]; [discriminate|].
      rewrite divisor_numeric in Hr.
      destruct (below b _); [discriminate|].
      destruct (above b _); discriminate.
Qed.

(** [calculate_residuals] returns exactly when every blend parameter has a
    number as target (a parameter without an entry in [targets] counts as
    target 0); otherwise it raises [TypeError], and nothing else.  What it
    returns has one entry per blend parameter. *)
Theorem calculate_residuals_returns (blend_params : dict Q)
    (targets : dict pyval) (limits : dict (dict pyval)) (config : Config) :
  ((forall p b, In (p, b) blend_params ->
                is_none (get_or targets p (PyNum 0)) = false)
   <-> exists rs, calculate_residuals blend_params targets limits config = Ok rs)
  /\ (forall e,
        calculate_residuals blend_params targets limits config = Raise e ->
        e = TypeError)
  /\ (forall rs,
        calculate_residuals blend_params targets limits config = Ok rs ->
        Permutation (keys blend_params) (map parameter rs)
        /\ List.length rs = List.length blend_params).
Proof.
  split; [|split].
  - split.
    + intro Hnum. unfold calculate_residuals.
      destruct (residuals_loop_returns targets limits (config_tolerance config)
                  blend_params [] Hnum) as [rs ->].
      simpl. eexists. reflexivity.
    + intros [rs Hrs] p b Hin.
      destruct (get_or targets p (PyNum 0)) as [|t] eqn:Ht; [|reflexivity].
      exfalso. unfold calculate_residuals in Hrs.
      destruct (residuals_loop targets limits (config_tolerance config)
                  blend_params []) as [unsorted|] eqn:Hloop; [|discriminate].
      destruct (residuals_loop_origin _ _ _ _ _ _ Hloop) as [new [_ Hall]].
      clear - Hall Hin Ht. induction Hall as [|kv r items new Hkv Hall IH];
        [contradiction|].
      destruct Hin as [-> | Hin]; [|now apply IH].
      simpl in Hkv. rewrite (residual_entry_None_target _ _ _ _ _ Ht) in Hkv.
      discriminate.
  - intros e H. unfold calculate_residuals in H.
    destruct (residuals_loop targets limits (config_tolerance config)
                blend_params []) as [unsorted|e'] eqn:Hloop; [discriminate|].
    simpl in H. injection H as <-.
    clear - Hloop. revert Hloop. generalize (@nil Residual).
    induction blend_params as [|[p b] rest IH]; intros acc H; simpl in H;
      [discriminate|].
    destruct (residual_entry targets limits (config_tolerance config) p b)
      as [r|e] eqn:Hr; simpl in H.
    + now apply (IH _ H).
    + injection H as <-. exact (residual_entry_errors _ _ _ _ _ _ Hr).
  - intros rs Hrs.
    pose proof (calculate_residuals_parameters _ _ _ _ _ Hrs) as Hperm.
    split; [exact Hperm|].
    rewrite <- (length_map parameter rs), <- (Permutation_length Hperm).
    unfold keys. apply length_map.
Qed.

Lemma below_Some (b : Q) (bound : pyval) (l : Q) :
  below b bound = Some l <-> bound = PyNum l /\ b < l.
Proof.
  unfold below. destruct bound as [|q]; [split; [discriminate | intros [H _]; discriminate]|].
  destruct (Qlt_bool b q) eqn:E.
  - apply Qlt_bool_iff in E. split.
    + intro H. injection H as <-. now split.
    + intros [H _]. injection H as <-. reflexivity.
  - apply Qlt_bool_false_iff in E. split; [discriminate|].
    intros [H Hlt]. injection H as <-. exfalso. exact (Qlt_not_le _ _ Hlt E).
Qed.

Lemma above_Some (b : Q) (bound : pyval) (u : Q) :
  above b bound = Some u <-> bound = PyNum u /\ u < b.
Proof.
  unfold above. destruct bound as [|q]; [split; [discriminate | intros [H _]; discriminate]|].
  destruct (Qlt_bool q b) eqn:E.
  - apply Qlt_bool_iff in E. split.
    + intro H. injection H as <-. now split.
    + intros [H _]. injection H as <-. reflexivity.
  - apply Qlt_bool_false_iff in E. split; [discriminate|].
    intros [H Hlt]. injection H as <-. exfalso. exact (Qlt_not_le _ _ Hlt E).
Qed.

(** What one residual entry holds. *)
Lemma residual_entry_content targets limits tolerance p b r :
  residual_entry targets limits tolerance p b = Ok r ->
  parameter r = p
  /\ value r = b
  /\ lowerLimit r = get_or (get_or limits p []) "lower" PyNone
  /\ upperLimit r = get_or (get_or limits p []) "upper" PyNone
  /\ get_or targets p (PyNum 0) = PyNum (target r)
  /\ plain_residual b (lowerLimit r) (upperLimit r) (PyNum (target r))
     = Ok (residual r)
  /\ residualPercent r
     = Qabs (residual r / spec_divisor (target r)) * 100
  /\ status r = residual_status (residualPercent r) tolerance.
Proof.
  unfold residual_entry. intro H.
  destruct (get_or targets p (PyNum 0)) as [|t] eqn:Ht.
  - destruct (plain_residual _ _ _ _) as [res|]; [|discriminate].
    simpl in H. discriminate.
  - destruct (plain_residual b _ _ (PyNum t)) as [res|] eqn:Hres; [|discriminate].
    rewrite divisor_numeric in H. simpl in H. injection H as <-. simpl.
    repeat split. exact Hres.
Qed.

(** Every residual entry reports one blend parameter: its blend value, its
    resolved limits and its numeric target.  The residual is the signed
    distance to the lower limit (negative) when the value is below it, else
    to the upper limit (positive) when the value is above it, else to the
    target; residualPercent is its absolute value over the target (over 1
    for a zero target) times 100, hence never negative. *)
Theorem residual_entries_content (blend_params : dict Q)
    (targets : dict pyval) (limits : dict (dict pyval)) (config : Config)
    (rs : list Residual) :
  calculate_residuals blend_params targets limits config = Ok rs ->
  Forall
    (fun r =>
       In (parameter r, value r) blend_params
       /\ lowerLimit r = get_or (get_or limits (parameter r) []) "lower" PyNone
       /\ upperLimit r = get_or (get_or limits (parameter r) []) "upper" PyNone
       /\ get_or targets (parameter r) (PyNum 0) = PyNum (target r)
       /\ (forall l, lowerLimit r = PyNum l -> value r < l ->
                     residual r = value r - l /\ residual r < 0)
       /\ (forall u, upperLimit r = PyNum u -> u < value r ->
                     (forall l, lowerLimit r = PyNum l -> l <= value r) ->
                     residual r = value r - u /\ 0 < residual r)
       /\ ((forall l, lowerLimit r = PyNum l -> l <= value r) ->
           (forall u, upperLimit r = PyNum u -> value r <= u) ->
           residual r = value r - target r)
       /\ residualPercent r
          = Qabs (residual r / (if Qeq_bool (target r) 0 then 1 else target r))
            * 100
       /\ 0 <= residualPercent r)
    rs.
Proof.
  unfold calculate_residuals. intro H.
  destruct (residuals_loop targets limits (config_tolerance config) blend_params [])
    as [unsorted|] eqn:Hloop; [|discriminate].
  simpl in H. injection H as <-.
  destruct (residuals_loop_origin _ _ _ _ _ _ Hloop) as [new [Hnew Hall]].
  simpl in Hnew. subst new.
  apply (Permutation_Forall (proj2 (sort_desc_spec unsorted))).
  clear Hloop. induction Hall as [|[p b] r items new Hkv Hall IH];
    constructor.
  - simpl in Hkv.
    destruct (residual_entry_content _ _ _ _ _ _ Hkv)
      as [Hp [Hv [Hlo [Hup [Ht [Hres [Hpct _]]]]]]].
    subst p b.
    split; [now left|]. split; [exact Hlo|]. split; [exact Hup|].
    split; [exact Ht|].
    unfold plain_residual, py_sub in Hres.
    split; [|split; [|split; [|split]]].
    + intros l Hl Hlt.
      assert (Hb : below (value r) (lowerLimit r) = Some l)
        by (apply below_Some; now split).
      rewrite Hb in Hres. injection Hres as <-. split; [reflexivity | lra].
    + intros u Hu Hlt Hnot.
      assert (Hb : below (value r) (lowerLimit r) = None).
      { destruct (below (value r) (lowerLimit r)) as [l|] eqn:E; [|reflexivity].
        apply below_Some in E. destruct E as [El Elt].
        exfalso. exact (Qlt_not_le _ _ Elt (Hnot l El)). }
      assert (Ha : above (value r) (upperLimit r) = Some u)
        by (apply above_Some; now split).
      rewrite Hb, Ha in Hres. injection Hres as <-. split; [reflexivity | lra].
    + intros Hlow Hupp.
      assert (Hb : below (value r) (lowerLimit r) = None).
      { destruct (below (value r) (lowerLimit r)) as [l|] eqn:E; [|reflexivity].
        apply below_Some in E. destruct E as [El Elt].
        exfalso. exact (Qlt_not_le _ _ Elt (Hlow l El)). }
      assert (Ha : above (value r) (upperLimit r) = None).
      { destruct (above (value r) (upperLimit r)) as [u|] eqn:E; [|reflexivity].
        apply above_Some in E. destruct E as [Eu Elt].
        exfalso. exact (Qlt_not_le _ _ Elt (Hupp u Eu)). }
      rewrite Hb, Ha in Hres. now injection Hres as <-.
    + exact Hpct.
    + rewrite Hpct.
      apply Qmult_le_0_compat; [apply Qabs_nonneg | discriminate].
  - eapply Forall_impl; [|exact IH].
    intros r' Hr'. destruct Hr' as [Hin Hrest]. split; [now right | exact Hrest].
Qed.

Lemma residual_entries_content_witness :
  exists r,
    calculate_residuals [("pH", 4.5)] [("pH", PyNum 7)]
      [("pH", [("lower", PyNum 5.5); ("upper", PyNum 8.5)])] Inputs.ph_config
    = Ok [r]
    /\ residual r = value r - 5.5
    /\ residual r < 0.
Proof.
  destruct (calculate_residuals [("pH", 4.5)] [("pH", PyNum 7)]
              [("pH", [("lower", PyNum 5.5); ("upper", PyNum 8.5)])]
              Inputs.ph_config) as [rs|e] eqn:E; [|discriminate E].
  pose proof (residual_entries_content _ _ _ _ rs E) as H.
  injection E as <-.
  inversion H as [|r rest Hr _]; subst.
  destruct Hr as [_ [_ [_ [_ [Hbelow _]]]]].
  eexists. split; [reflexivity|].
  apply (Hbelow 5.5); reflexivity.
Defined.

(** The residual the objective squares and the residual the report shows
    have the same size relative to the target. *)
Lemma objective_plain_residual (b : Q) (lower upper : pyval) (t res : Q) :
  plain_residual b lower upper (PyNum t) = Ok res ->
  Qabs (bound_distance_residual b lower upper t)
  == Qabs (res / spec_divisor t).
Proof.
  unfold plain_residual, bound_distance_residual, py_sub.
  destruct (below b lower) as [l|].
  - intro H. injection H as <-.
    setoid_replace ((l - b) / spec_divisor t) with (- ((b - l) / spec_divisor t)).
    + apply Qabs_opp.
    + unfold Qdiv. ring.
  - destruct (above b upper) as [u|]; intro H; injection H as <-; reflexivity.
Qed.

(** The optimiser and the report measure the same distance: for every
    residual entry, the residual the objective squares for that parameter
    at that blend value has absolute value residualPercent / 100, that is,
    its absolute value times 100 is the entry's residualPercent. *)
Theorem objective_residual_is_residual_percent (blend_params : dict Q)
    (targets : dict pyval) (limits : dict (dict pyval)) (config : Config)
    (rs : list Residual) :
  calculate_residuals blend_params targets limits config = Ok rs ->
  Forall
    (fun r =>
       exists q,
         objective_residual (value r) (lowerLimit r) (upperLimit r)
                            (PyNum (target r)) = Ok q
         /\ Qabs q * 100 == residualPercent r)
    rs.
Proof.
  unfold calculate_residuals. intro H.
  destruct (residuals_loop targets limits (config_tolerance config) blend_params [])
    as [unsorted|] eqn:Hloop; [|discriminate].
  simpl in H. injection H as <-.
  destruct (residuals_loop_origin _ _ _ _ _ _ Hloop) as [new [Hnew Hall]].
  simpl in Hnew. subst new.
  apply (Permutation_Forall (proj2 (sort_desc_spec unsorted))).
  clear Hloop. induction Hall as [|[p b] r items new Hkv Hall IH];
    constructor; [|exact IH].
  simpl in Hkv.
  destruct (residual_entry_content _ _ _ _ _ _ Hkv)
    as [_ [Hv [_ [_ [_ [Hres [Hpct Hst]]]]]]].
  subst b. rewrite objective_residual_numeric.
  set (q := bound_distance_residual (value r) (lowerLimit r) (upperLimit r)
                                    (target r)).
  exists q.
  pose proof (objective_plain_residual _ _ _ _ _ Hres) as Habs. fold q in Habs.
  split; [reflexivity|]. rewrite Hpct, Habs. reflexivity.
Qed.

(** Clay at 31 against the target 21.5: the objective's residual is 19/43
    and the residualPercent is 1900/43 (44.19%). *)
Lemma objective_residual_is_residual_percent_witness :
  exists r q,
    calculate_residuals [("Clay", 31)] [("Clay", PyNum 21.5)]
      [("Clay", [("lower", PyNum 8); ("upper", PyNum 35)])] Inputs.clay_config
    = Ok [r]
    /\ objective_residual (value r) (lowerLimit r) (upperLimit r)
                          (PyNum (target r)) = Ok q
    /\ q == 19 # 43
    /\ Qabs q * 100 == residualPercent r
    /\ residualPercent r == 1900 # 43.
Proof.
  destruct (calculate_residuals [("Clay", 31)] [("Clay", PyNum 21.5)]
              [("Clay", [("lower", PyNum 8); ("upper", PyNum 35)])]
              Inputs.clay_config) as [rs|e] eqn:E; [|discriminate E].
  pose proof (objective_residual_is_residual_percent _ _ _ _ rs E) as H.
  injection E as <-.
  inversion H as [|r rest Hr _]; subst.
  destruct Hr as [q [Hq Hpct]].
  eexists. exists q. split; [reflexivity|]. split; [exact Hq|].
  split; [|split; [exact Hpct | reflexivity]].
  vm_compute in Hq. injection Hq as <-. reflexivity.
Defined.

(** ** The result record: ratios and tonnage *)

Lemma subscript_Ok (x : list Q) (i : nat) :
  (i < List.length x)%nat -> exists v, nth_error x i = Some v /\ subscript x i = Ok v.
Proof.
  intro H. unfold subscript.
  destruct (nth_error x i) as [v|] eqn:E.
  - exists v. auto.
  - apply nth_error_None in E. lia.
Qed.

Lemma subscript_Raise (x : list Q) (i : nat) :
  (List.length x <= i)%nat -> subscript x i = Raise IndexError.
Proof.
  intro H. unfold subscript. apply nth_error_None in H. now rewrite H.
Qed.

Lemma blend_ratios_from_returns (ratios : list Q) (materials : list Material) :
  forall i acc,
    ((i + List.length materials <= List.length ratios)%nat \/ materials = []
     -> exists d, blend_ratios_from ratios materials i acc = Ok d)
    /\ (forall e, blend_ratios_from ratios materials i acc = Raise e ->
                  e = IndexError
                  /\ (List.length ratios < i + List.length materials)%nat).
Proof.
  induction materials as [|m rest IH]; intros i acc; simpl.
  - split; [intros _; eexists; reflexivity | discriminate].
  - destruct (Nat.lt_ge_cases i (List.length ratios)) as [Hlt | Hge].
    + destruct (subscript_Ok ratios i Hlt) as [v [_ ->]]. simpl.
      destruct (IH (S i) (dict_set acc (id m) v)) as [IHok IHerr]. split.
      * intros [H | H]; [|discriminate].
        destruct rest; [apply IHok; now right | apply IHok; left; simpl in *; lia].
      * intros e He. destruct (IHerr e He) as [-> Hl]. split; [reflexivity | lia].
    + rewrite (subscript_Raise ratios i Hge). simpl. split.
      * intros [H | H]; [lia | discriminate].
      * intros e He. injection He as <-. split; [reflexivity | lia].
Qed.

Lemma tonnage_from_returns (ratios : list Q) (materials : list Material) :
  forall i,
    ((i + List.length materials <= List.length ratios)%nat \/ materials = []
     -> exists ts, tonnage_from ratios materials i = Ok ts)
    /\ (forall e, tonnage_from ratios materials i = Raise e -> e = IndexError).
Proof.
  induction materials as [|m rest IH]; intro i; simpl.
  - split; [intros _; eexists; reflexivity | discriminate].
  - destruct (Nat.lt_ge_cases i (List.length ratios)) as [Hlt | Hge].
    + destruct (subscript_Ok ratios i Hlt) as [v [_ ->]]. simpl.
      destruct (IH (S i)) as [IHok IHerr]. split.
      * intros [H | H]; [|discriminate].
        destruct IHok as [ts ->];
          [destruct rest; [now right | left; simpl in *; lia]|].
        simpl. eexists. reflexivity.
      * intros e He.
        destruct (tonnage_from ratios rest (S i)) as [ts|e'] eqn:Et;
          simpl in He; [discriminate|].
        injection He as <-. now apply IHerr.
    + rewrite (subscript_Raise ratios i Hge). simpl. split.
      * intros [H | H]; [lia | discriminate].
      * intros e He. now injection He as <-.
Qed.

(** [build_result] returns exactly when there is a ratio for every material
    (surplus ratios are ignored); otherwise it raises [IndexError], and it
    raises nothing else. *)
Theorem build_result_returns (success : bool) (ratios : list Q)
    (materials : list Material) (residuals : list Residual)
    (blend_params : dict Q) (iterations : nat) (convergence : bool)
    (relaxed_tolerance : option Q) (config : Config) :
  ((List.length materials <= List.length ratios)%nat
   <-> exists r,
         build_result success ratios materials residuals blend_params
                      iterations convergence relaxed_tolerance config = Ok r)
  /\ (forall e,
        build_result success ratios materials residuals blend_params
                     iterations convergence relaxed_tolerance config = Raise e ->
        e = IndexError).
Proof.
  unfold build_result.
  destruct (blend_ratios_from_returns ratios materials 0 []) as [Hbok Hberr].
  destruct (tonnage_from_returns ratios materials 0) as [Htok Hterr].
  split.
  - split.
    + intro Hlen.
      destruct Hbok as [d ->]; [now left|].
      destruct Htok as [ts ->]; [now left|].
      simpl. eexists. reflexivity.
    + intros [r Hr].
      destruct (blend_ratios_from ratios materials 0 []) as [d|e] eqn:Eb;
        [|discriminate].
      destruct (Nat.le_gt_cases (List.length materials) (List.length ratios))
        as [H | H]; [exact H|].
      exfalso. clear - Eb H.
      assert (G : forall mats i acc d,
                 blend_ratios_from ratios mats i acc = Ok d ->
                 mats = [] \/ (i + List.length mats <= List.length ratios)%nat).
      { induction mats as [|m rest IH]; intros i acc d0 E; [now left|].
        right. simpl in E. unfold subscript in E.
        destruct (nth_error ratios i) as [v|] eqn:En; [|discriminate].
        simpl in E. assert (Hi : (i < List.length ratios)%nat).
        { apply nth_error_Some. congruence. }
        destruct (IH _ _ _ E) as [-> | Hl]; simpl; lia. }
      destruct (G _ _ _ _ Eb) as [-> | Hl]; simpl in *; lia.
  - intros e He.
    destruct (blend_ratios_from ratios materials 0 []) as [d|e1] eqn:Eb;
      simpl in He.
    + destruct (tonnage_from ratios materials 0) as [ts|e2] eqn:Et;
        simpl in He; [discriminate|].
      injection He as <-. now apply Hterr.
    + injection He as <-. exact (proj1 (Hberr _ eq_refl)).
Qed.

Lemma tonnage_from_entries (ratios : list Q) (materials : list Material) :
  forall i ts,
    tonnage_from ratios materials i = Ok ts ->
    List.length ts = List.length materials
    /\ forall j m t,
         nth_error materials j = Some m ->
         nth_error ts j = Some t ->
         exists ratio,
           nth_error ratios (i + j) = Some ratio
           /\ materialName t = name m
           /\ tonnageMaterialId t = id m
           /\ available t
              = match availableTonnage m with Some a => a | None => 0 end
           /\ used t = available t * ratio
           /\ remaining t = available t - used t
           /\ percentage t = ratio * 100.
Proof.
  induction materials as [|m rest IH]; intros i ts H; simpl in H.
  - injection H as <-. split; [reflexivity|]. intros [|j] m t Hm; discriminate.
  - unfold subscript in H. destruct (nth_error ratios i) as [ratio|] eqn:Er;
      [|discriminate].
    simpl in H.
    destruct (tonnage_from ratios rest (S i)) as [ts'|] eqn:Et; [|discriminate].
    simpl in H. injection H as <-.
    destruct (IH _ _ Et) as [Hlen Hent]. split; [simpl; now rewrite Hlen|].
    intros [|j] m0 t Hm Ht; simpl in Hm, Ht.
    + injection Hm as <-. injection Ht as <-. exists ratio.
      rewrite Nat.add_0_r. simpl. auto 10.
    + destruct (Hent j m0 t Hm Ht) as [q Hq]. exists q.
      now rewrite Nat.add_succ_r.
Qed.

(** The tonnage breakdown has one entry per material, in order, carrying the
    material's name and id; an absent [availableTonnage] counts as 0; the
    tonnage used is the available tonnage times the material's ratio, what
    remains is the available tonnage minus the tonnage used, and the
    percentage is the ratio times 100. *)
Theorem tonnage_breakdown_entries (success : bool) (ratios : list Q)
    (materials : list Material) (residuals : list Residual)
    (blend_params : dict Q) (iterations : nat) (convergence : bool)
    (relaxed_tolerance : option Q) (config : Config) (r : OptimizationResult) :
  build_result success ratios materials residuals blend_params iterations
               convergence relaxed_tolerance config = Ok r ->
  List.length (tonnageBreakdown r) = List.length materials
  /\ forall i m t,
       nth_error materials i = Some m ->
       nth_error (tonnageBreakdown r) i = Some t ->
       exists ratio,
         nth_error ratios i = Some ratio
         /\ materialName t = name m
         /\ tonnageMaterialId t = id m
         /\ available t
            = match availableTonnage m with Some a => a | None => 0 end
         /\ used t = available t * ratio
         /\ remaining t = available t - used t
         /\ percentage t = ratio * 100.
Proof.
  unfold build_result. intro H.
  destruct (blend_ratios_from ratios materials 0 []); [|discriminate].
  simpl in H. destruct (tonnage_from ratios materials 0) as [ts|] eqn:Et;
    [|discriminate].
  simpl in H. injection H as <-. simpl.
  destruct (tonnage_from_entries _ _ _ _ Et) as [Hlen Hent].
  split; [exact Hlen|].
  intros i m t Hm Ht.
  destruct (Hent i m t Hm Ht) as [ratio Hr]. exists ratio. exact Hr.
Qed.

(** A quarter of the 100 t of sandy loam: 25 t used, 75 t remaining, 25%. *)
Lemma tonnage_breakdown_entries_witness :
  exists r t,
    build_result true [0.25; 0.75] Inputs.ph_materials [] [] 3 true None
                 Inputs.ph_config = Ok r
    /\ List.length (tonnageBreakdown r) = 2%nat
    /\ nth_error (tonnageBreakdown r) 0 = Some t
    /\ materialName t = "Sandy loam"
    /\ tonnageMaterialId t = "m1"
    /\ available t = 100
    /\ used t == 25
    /\ remaining t == 75
    /\ percentage t == 25.
Proof.
  destruct (build_result true [0.25; 0.75] Inputs.ph_materials [] [] 3 true None
              Inputs.ph_config) as [r|e] eqn:E; [|discriminate E].
  destruct (tonnage_breakdown_entries _ _ _ _ _ _ _ _ _ r E) as [Hlen Hent].
  destruct (nth_error (tonnageBreakdown r) 0) as [t|] eqn:Ht;
    [|injection E as <-; discriminate Ht].
  destruct (Hent 0%nat (mkMaterial "m1" "Sandy loam" (Some 100) [("pH", Some 6)])
              t eq_refl Ht)
    as [ratio [Hr [Hn [Hi [Ha [Hu [Hrem Hp]]]]]]].
  injection Hr as <-. simpl in Hn, Hi, Ha.
  exists r, t. split; [reflexivity|]. split; [exact Hlen|].
  split; [exact Ht|]. split; [exact Hn|]. split; [exact Hi|].
  split; [exact Ha|].
  split; [rewrite Hu, Ha; reflexivity|].
  split; [rewrite Hrem, Hu, Ha; reflexivity|].
  rewrite Hp. reflexivity.
Defined.

Lemma blend_ratios_from_lookup (ratios : list Q) (materials : list Material) :
  forall i acc d,
    blend_ratios_from ratios materials i acc = Ok d ->
    (forall k, ~ In k (map id materials) -> dict_get d k = dict_get acc k)
    /\ (forall j m q,
          nth_error materials j = Some m ->
          nth_error ratios (i + j) = Some q ->
          (forall j' m', (j < j')%nat -> nth_error materials j' = Some m' ->
                         id m' <> id m) ->
          dict_get d (id m) = Some q).
Proof.
  induction materials as [|m rest IH]; intros i acc d H; simpl in H.
  - injection H as <-. split; [reflexivity|]. intros [|j] m q Hm; discriminate.
  - unfold subscript in H. destruct (nth_error ratios i) as [ratio|] eqn:Er;
      [|discriminate].
    simpl in H. destruct (IH _ _ _ H) as [Hout Hin]. split.
    + intros k Hk. simpl in Hk. rewrite Hout; [|tauto].
      apply dict_get_set_other. tauto.
    + intros [|j] m0 q Hm Hq Hlast; simpl in Hm.
      * injection Hm as <-. rewrite Nat.add_0_r, Er in Hq. injection Hq as <-.
        rewrite Hout; [apply dict_get_set_same|].
        intro Hk. apply in_map_iff in Hk. destruct Hk as [m' [Hid Hm']].
        apply In_nth_error in Hm'. destruct Hm' as [j' Hj'].
        apply (Hlast (S j') m'); [lia | exact Hj' | exact Hid].
      * apply (Hin j m0 q Hm); [now rewrite Nat.add_succ_r in Hq|].
        intros j' m' Hlt Hj'. apply (Hlast (S j') m'); [lia | exact Hj'].
Qed.

(** [blendRatios] maps a material id to the ratio of the last material that
    has this id: with distinct ids every material finds its own ratio, with
    a repeated id the earlier materials' ratios are overwritten.  An id no
    material has is not a key. *)
Theorem blend_ratios_lookup (success : bool) (ratios : list Q)
    (materials : list Material) (residuals : list Residual)
    (blend_params : dict Q) (iterations : nat) (convergence : bool)
    (relaxed_tolerance : option Q) (config : Config) (r : OptimizationResult) :
  build_result success ratios materials residuals blend_params iterations
               convergence relaxed_tolerance config = Ok r ->
  (forall i m q,
      nth_error materials i = Some m ->
      nth_error ratios i = Some q ->
      (forall j m', (i < j)%nat -> nth_error materials j = Some m' ->
                    id m' <> id m) ->
      dict_get (blendRatios r) (id m) = Some q)
  /\ (forall k, ~ In k (map id materials) -> dict_get (blendRatios r) k = None).
Proof.
  unfold build_result. intro H.
  destruct (blend_ratios_from ratios materials 0 []) as [d|] eqn:Eb;
    [|discriminate].
  simpl in H. destruct (tonnage_from ratios materials 0); [|discriminate].
  simpl in H. injection H as <-. simpl.
  destruct (blend_ratios_from_lookup _ _ _ _ _ Eb) as [Hout Hin].
  split.
  - intros i m q Hm Hq Hlast. now apply (Hin i m q).
  - intros k Hk. now rewrite Hout.
Qed.

Lemma blend_ratios_lookup_witness :
  exists r,
    build_result true [0.25; 0.75]
      [ mkMaterial "m1" "Sandy loam" (Some 100) [];
        mkMaterial "m1" "Compost" (Some 50) [] ] [] [] 3 true None
      Inputs.ph_config = Ok r
    /\ dict_get (blendRatios r) "m1" = Some 0.75.
Proof.
  destruct (build_result true [0.25; 0.75]
              [ mkMaterial "m1" "Sandy loam" (Some 100) [];
                mkMaterial "m1" "Compost" (Some 50) [] ] [] [] 3 true None
              Inputs.ph_config) as [r|e] eqn:E; [|discriminate E].
  exists r. split; [reflexivity|].
  apply (proj1 (blend_ratios_lookup _ _ _ _ _ _ _ _ _ r E) 1%nat
               (mkMaterial "m1" "Compost" (Some 50) []) 0.75).
  - reflexivity.
  - reflexivity.
  - intros [|[|[|j]]] m' Hlt Hj; simpl in Hj; try lia; discriminate.
Defined.

(** ** The result record: compliance summary *)

Lemma Qmax_fold (rest : list Q) :
  forall m,
    let M := fold_left (fun m y => if Qlt_bool m y then y else m) rest m in
    m <= M /\ Forall (fun x => x <= M) rest /\ (M = m \/ In M rest).
Proof.
  induction rest as [|y rest IH]; intro m; cbv zeta; simpl.
  - split; [apply Qle_refl|]. split; [constructor | now left].
  - destruct (Qlt_bool m y) eqn:E.
    + apply Qlt_bool_iff in E. specialize (IH y). cbv zeta in IH.
      destruct IH as [Hle [Hall Hin]].
      split; [lra|]. split; [constructor; assumption|].
      destruct Hin as [-> | Hin]; right; [now left | now right].
    + apply Qlt_bool_false_iff in E. specialize (IH m). cbv zeta in IH.
      destruct IH as [Hle [Hall Hin]].
      split; [exact Hle|]. split; [constructor; [lra | assumption]|].
      destruct Hin as [-> | Hin]; [now left | right; now right].
Qed.

Lemma Qmin_fold (rest : list Q) :
  forall m,
    let M := fold_left (fun m y => if Qlt_bool y m then y else m) rest m in
    M <= m /\ Forall (fun x => M <= x) rest /\ (M = m \/ In M rest).
Proof.
  induction rest as [|y rest IH]; intro m; cbv zeta; simpl.
  - split; [apply Qle_refl|]. split; [constructor | now left].
  - destruct (Qlt_bool y m) eqn:E.
    + apply Qlt_bool_iff in E. specialize (IH y). cbv zeta in IH.
      destruct IH as [Hle [Hall Hin]].
      split; [lra|]. split; [constructor; assumption|].
      destruct Hin as [-> | Hin]; right; [now left | now right].
    + apply Qlt_bool_false_iff in E. specialize (IH m). cbv zeta in IH.
      destruct IH as [Hle [Hall Hin]].
      split; [exact Hle|]. split; [constructor; [lra | assumption]|].
      destruct Hin as [-> | Hin]; [now left | right; now right].
Qed.

Lemma Qmax_list_spec (xs : list Q) :
  xs <> [] -> Forall (fun x => x <= Qmax_list xs) xs /\ In (Qmax_list xs) xs.
Proof.
  destruct xs as [|x rest]; [congruence|]. intros _. unfold Qmax_list.
  destruct (Qmax_fold rest x) as [Hle [Hall Hin]]. cbv zeta in *.
  split; [constructor; assumption|].
  destruct Hin as [-> | Hin]; [now left | now right].
Qed.

Lemma Qmin_list_spec (xs : list Q) :
  xs <> [] -> Forall (fun x => Qmin_list xs <= x) xs /\ In (Qmin_list xs) xs.
Proof.
  destruct xs as [|x rest]; [congruence|]. intros _. unfold Qmin_list.
  destruct (Qmin_fold rest x) as [Hle [Hall Hin]]. cbv zeta in *.
  split; [constructor; assumption|].
  destruct Hin as [-> | Hin]; [now left | now right].
Qed.

(** The compliance summary: the three status counts add up to
    [totalParameters], the number of residual entries; with no entry the
    three residual figures are 0; otherwise [highestResidual] and
    [lowestResidual] are the greatest and the least absolute residualPercent
    of an entry: each is the figure of some entry, and every entry lies
    between them. *)
Theorem compliance_summary_figures (success : bool) (ratios : list Q)
    (materials : list Material) (residuals : list Residual)
    (blend_params : dict Q) (iterations : nat) (convergence : bool)
    (relaxed_tolerance : option Q) (config : Config) (r : OptimizationResult) :
  build_result success ratios materials residuals blend_params iterations
               convergence relaxed_tolerance config = Ok r ->
  let c := compliance r in
  totalParameters c = List.length residuals
  /\ (compliantCount c + marginalCount c + exceedingCount c
      = totalParameters c)%nat
  /\ (residuals = [] ->
      meanResidual c = 0 /\ highestResidual c = 0 /\ lowestResidual c = 0)
  /\ (residuals <> [] ->
      Forall (fun e => lowestResidual c <= Qabs (residualPercent e)
                       /\ Qabs (residualPercent e) <= highestResidual c)
             residuals
      /\ (exists e, In e residuals
                    /\ highestResidual c = Qabs (residualPercent e))
      /\ (exists e, In e residuals
                    /\ lowestResidual c = Qabs (residualPercent e))).
Proof.
  unfold build_result. intro H.
  destruct (blend_ratios_from ratios materials 0 []); [|discriminate].
  simpl in H. destruct (tonnage_from ratios materials 0); [|discriminate].
  simpl in H. injection H as <-. cbv zeta. simpl compliance.
  unfold compliance_summary. simpl.
  split; [reflexivity|]. split; [apply count_status_total|].
  split; [intros ->; simpl; auto|].
  intro Hne.
  set (xs := map (fun e => Qabs (residualPercent e)) residuals).
  assert (Hxs : xs <> []).
  { unfold xs. destruct residuals; [congruence | discriminate]. }
  destruct (Qmax_list_spec xs Hxs) as [Hmax Hmax_in].
  destruct (Qmin_list_spec xs Hxs) as [Hmin Hmin_in].
  assert (Hall : Forall (fun x => Qmin_list xs <= x /\ x <= Qmax_list xs) xs).
  { rewrite Forall_forall in *. intros x Hx. split; [now apply Hmin | now apply Hmax]. }
  split; [|split].
  - apply Forall_forall. intros e He.
    rewrite Forall_forall in Hall. apply Hall. unfold xs.
    apply in_map_iff. now exists e.
  - unfold xs in Hmax_in. apply in_map_iff in Hmax_in.
    destruct Hmax_in as [e [He Hin]]. exists e. split; [exact Hin | now symmetry].
  - unfold xs in Hmin_in. apply in_map_iff in Hmin_in.
    destruct Hmin_in as [e [He Hin]]. exists e. split; [exact Hin | now symmetry].
Qed.

(** Three entries at 12%, 40% and 50% under the default tolerance: one of
    each status, the highest figure 50 and the lowest 12. *)
Lemma compliance_summary_figures_witness :
  exists r,
    build_result true [0.5; 0.5] Inputs.ph_materials Inputs.three_residuals []
                 3 true None Inputs.ph_config = Ok r
    /\ totalParameters (compliance r) = 3%nat
    /\ (compliantCount (compliance r) + marginalCount (compliance r)
        + exceedingCount (compliance r) = 3)%nat
    /\ Forall (fun e =>
                 lowestResidual (compliance r) <= Qabs (residualPercent e)
                 /\ Qabs (residualPercent e) <= highestResidual (compliance r))
              Inputs.three_residuals
    /\ highestResidual (compliance r) == 50
    /\ lowestResidual (compliance r) == 12.
Proof.
  destruct (build_result true [0.5; 0.5] Inputs.ph_materials
              Inputs.three_residuals [] 3 true None Inputs.ph_config)
    as [r|e] eqn:E; [|discriminate E].
  destruct (compliance_summary_figures _ _ _ _ _ _ _ _ _ r E)
    as [Htotal [Hcount [_ Hfigures]]].
  destruct Hfigures as [Hall _]; [discriminate|].
  exists r. split; [reflexivity|]. split; [exact Htotal|].
  split; [rewrite Hcount; exact Htotal|]. split; [exact Hall|].
  injection E as <-. split; reflexivity.
Defined.

(** ** The result record: warnings and soil texture *)

Lemma Status_eqb_eq (a b : Status) : Status_eqb a b = true <-> a = b.
Proof. destruct a, b; simpl; split; congruence. Qed.

Lemma count_status_zero (s : Status) (rs : list Residual) :
  count_status s rs = 0%nat <-> Forall (fun e => status e <> s) rs.
Proof.
  unfold count_status. induction rs as [|e rest IH]; simpl.
  - split; [constructor | reflexivity].
  - destruct (Status_eqb (status e) s) eqn:E; simpl.
    + apply Status_eqb_eq in E. split; [discriminate|].
      intro H. inversion H as [|? ? Hne _]. contradiction.
    + rewrite IH. split.
      * intro H. constructor; [|exact H].
        intro Heq. apply Status_eqb_eq in Heq. congruence.
      * intro H. now inversion H.
Qed.

Lemma relaxed_warning_In (relaxed_tolerance : option Q) (w : Warning) :
  In w (relaxed_warning relaxed_tolerance)
  <-> exists t, relaxed_tolerance = Some t /\ ~ t == 0 /\ w = RelaxedWarning t.
Proof.
  unfold relaxed_warning. destruct relaxed_tolerance as [t|].
  - destruct (Qeq_bool t 0) eqn:E.
    + apply Qeq_bool_iff in E. split; [intros [] |].
      intros [t' [Ht [Hnz _]]]. injection Ht as <-. contradiction.
    + apply Qeq_bool_neq in E. split.
      * intros [<- | []]. now exists t.
      * intros [t' [Ht [_ ->]]]. injection Ht as <-. now left.
  - split; [intros [] | intros [t [Ht _]]; discriminate].
Qed.

Lemma missing_warning_In_iff (missing : list string) (w : Warning) :
  In w (missing_warning missing)
  <-> missing <> []
      /\ w = MissingWarning (firstn 5 missing)
               (if Nat.ltb 5 (List.length missing)
                then Some (List.length missing - 5)%nat else None).
Proof.
  unfold missing_warning. destruct missing as [|p rest].
  - split; [intros [] | intros [H _]; congruence].
  - split.
    + intros [<- | []]. split; [discriminate | reflexivity].
    + intros [_ ->]. now left.
Qed.

(** The warnings of a result, one by one: a count of exceeding parameters
    when there is one, a count of marginal parameters when there is one, the
    relaxed tolerance when it is neither absent nor 0, and the missing-data
    warning when a selected parameter is not in the blend.  Hence the list is
    empty exactly when every residual is compliant, no tolerance was relaxed
    and every selected parameter has a blend value. *)
Theorem warnings_content (success : bool) (ratios : list Q)
    (materials : list Material) (residuals : list Residual)
    (blend_params : dict Q) (iterations : nat) (convergence : bool)
    (relaxed_tolerance : option Q) (config : Config) (r : OptimizationResult) :
  build_result success ratios materials residuals blend_params iterations
               convergence relaxed_tolerance config = Ok r ->
  (forall n, In (ExceedWarning n) (warnings r)
             <-> n = count_status exceeding residuals /\ (0 < n)%nat)
  /\ (forall n, In (MarginalWarning n) (warnings r)
                <-> n = count_status marginal residuals /\ (0 < n)%nat)
  /\ (forall t, In (RelaxedWarning t) (warnings r)
                <-> relaxed_tolerance = Some t /\ ~ t == 0)
  /\ ((exists listed more, In (MissingWarning listed more) (warnings r))
      <-> exists p, In p (selectedParameters config)
                    /\ dict_get blend_params p = None)
  /\ (warnings r = []
      <-> Forall (fun e => status e = compliant) residuals
          /\ (forall t, relaxed_tolerance = Some t -> t == 0)
          /\ (forall p, In p (selectedParameters config) ->
                        dict_get blend_params p <> None)).
Proof.
  unfold build_result. intro H.
  destruct (blend_ratios_from ratios materials 0 []); [|discriminate].
  simpl in H. destruct (tonnage_from ratios materials 0); [|discriminate].
  simpl in H. injection H as <-. simpl warnings. unfold build_warnings.
  set (ne := count_status exceeding residuals).
  set (nm := count_status marginal residuals).
  set (missing := missing_params_of config blend_params).
  assert (Hmiss : forall p, In p missing
                            <-> In p (selectedParameters config)
                                /\ dict_get blend_params p = None).
  { intro p. unfold missing, missing_params_of. rewrite filter_In.
    unfold dict_mem. destruct (dict_get blend_params p); simpl;
      intuition discriminate. }
  assert (HA : forall w, In w (if Nat.ltb 0 ne then [ExceedWarning ne] else [])
                         <-> w = ExceedWarning ne /\ (0 < ne)%nat).
  { intro w. destruct (Nat.ltb 0 ne) eqn:E.
    - apply Nat.ltb_lt in E. simpl. intuition.
    - apply Nat.ltb_ge in E. simpl. split; [tauto | intros [_ Hl]; lia]. }
  assert (HB : forall w, In w (if Nat.ltb 0 nm then [MarginalWarning nm] else [])
                         <-> w = MarginalWarning nm /\ (0 < nm)%nat).
  { intro w. destruct (Nat.ltb 0 nm) eqn:E.
    - apply Nat.ltb_lt in E. simpl. intuition.
    - apply Nat.ltb_ge in E. simpl. split; [tauto | intros [_ Hl]; lia]. }
  split; [|split; [|split; [|split]]].
  - intro n. rewrite !in_app_iff, HA, HB, relaxed_warning_In, missing_warning_In_iff.
    split.
    + intros [[Hw Hl] | [[Hw _] | [[t [_ [_ Hw]]] | [_ Hw]]]]; try discriminate.
      injection Hw as ->. auto.
    + intros [-> Hl]. left. auto.
  - intro n. rewrite !in_app_iff, HA, HB, relaxed_warning_In, missing_warning_In_iff.
    split.
    + intros [[Hw _] | [[Hw Hl] | [[t [_ [_ Hw]]] | [_ Hw]]]]; try discriminate.
      injection Hw as ->. auto.
    + intros [-> Hl]. right. left. auto.
  - intro t. rewrite !in_app_iff, HA, HB, relaxed_warning_In, missing_warning_In_iff.
    split.
    + intros [[Hw _] | [[Hw _] | [[t' [Ht [Hnz Hw]]] | [_ Hw]]]]; try discriminate.
      injection Hw as ->. auto.
    + intros [Ht Hnz]. right. right. left. now exists t.
  - split.
    + intros [listed [more Hin]]. revert Hin.
      rewrite !in_app_iff, HA, HB, relaxed_warning_In, missing_warning_In_iff.
      intros [[Hw _] | [[Hw _] | [[t' [_ [_ Hw]]] | [Hne _]]]]; try discriminate.
      destruct missing as [|p rest] eqn:Em; [congruence|].
      exists p. apply Hmiss. now left.
    + intros [p Hp]. apply Hmiss in Hp.
      eexists. eexists.
      rewrite !in_app_iff, missing_warning_In_iff. right. right. right.
      split; [|reflexivity]. intros Hn. rewrite Hn in Hp. exact Hp.
  - split.
    + intro Hnil.
      apply app_eq_nil in Hnil. destruct Hnil as [Ha Hnil].
      apply app_eq_nil in Hnil. destruct Hnil as [Hb Hnil].
      apply app_eq_nil in Hnil. destruct Hnil as [Hc Hd].
      assert (Hne : ne = 0%nat).
      { destruct (Nat.ltb 0 ne) eqn:E; [discriminate|]. apply Nat.ltb_ge in E. lia. }
      assert (Hnm : nm = 0%nat).
      { destruct (Nat.ltb 0 nm) eqn:E; [discriminate|]. apply Nat.ltb_ge in E. lia. }
      split; [|split].
      * apply count_status_zero in Hne. apply count_status_zero in Hnm.
        rewrite Forall_forall in *. intros e He.
        specialize (Hne e He). specialize (Hnm e He).
        destruct (status e); congruence.
      * intros t Ht. subst relaxed_tolerance. unfold relaxed_warning in Hc.
        destruct (Qeq_bool t 0) eqn:E; [now apply Qeq_bool_iff | discriminate].
      * intros p Hp Hnone.
        assert (Hin : In p missing) by (apply Hmiss; now split).
        unfold missing_warning in Hd. destruct missing; [contradiction | discriminate].
    + intros [Hall [Hrel Hsel]].
      assert (Hne : ne = 0%nat).
      { apply count_status_zero. eapply Forall_impl; [|exact Hall].
        intros e ->. discriminate. }
      assert (Hnm : nm = 0%nat).
      { apply count_status_zero. eapply Forall_impl; [|exact Hall].
        intros e ->. discriminate. }
      rewrite Hne, Hnm. simpl.
      assert (Hc : relaxed_warning relaxed_tolerance = []).
      { unfold relaxed_warning. destruct relaxed_tolerance as [t|]; [|reflexivity].
        specialize (Hrel t eq_refl). apply Qeq_bool_iff in Hrel. now rewrite Hrel. }
      assert (Hd : missing = []).
      { destruct missing as [|p rest] eqn:Em; [reflexivity|].
        exfalso. assert (Hin : In p (p :: rest)) by now left.
        apply Hmiss in Hin. destruct Hin as [Hs Hn]. exact (Hsel p Hs Hn). }
      rewrite Hc, Hd. reflexivity.
Qed.

Lemma warnings_content_witness :
  exists r,
    build_result true [0.5; 0.5] Inputs.ph_materials [] [("pH", 7.5)] 3 true
                 None Inputs.ph_config = Ok r
    /\ warnings r = [].
Proof.
  destruct (build_result true [0.5; 0.5] Inputs.ph_materials [] [("pH", 7.5)]
              3 true None Inputs.ph_config) as [r|e] eqn:E; [|discriminate E].
  exists r. split; [reflexivity|].
  apply (proj2 (proj2 (proj2 (proj2
           (warnings_content _ _ _ _ _ _ _ _ _ r E))))).
  split; [constructor|]. split; [discriminate|].
  intros p [<- | []]. discriminate.
Defined.

(** The missing-data warning names the selected parameters without a blend
    value in selection order (a parameter selected twice is named twice), at
    most five of them; when there are more it counts the others, so that
    names and count together account for every missing parameter. *)
Theorem missing_warning_truncates (success : bool) (ratios : list Q)
    (materials : list Material) (residuals : list Residual)
    (blend_params : dict Q) (iterations : nat) (convergence : bool)
    (relaxed_tolerance : option Q) (config : Config) (r : OptimizationResult)
    (listed : list string) (more : option nat) :
  build_result success ratios materials residuals blend_params iterations
               convergence relaxed_tolerance config = Ok r ->
  In (MissingWarning listed more) (warnings r) ->
  let missing :=
    filter (fun p => match dict_get blend_params p with
                     | Some _ => false
                     | None => true
                     end) (selectedParameters config) in
  listed = firstn 5 missing
  /\ listed <> []
  /\ (List.length listed <= 5)%nat
  /\ (more = None -> listed = missing)
  /\ (forall k, more = Some k ->
                (1 <= k)%nat /\ List.length missing = (5 + k)%nat
                /\ List.length listed = 5%nat).
Proof.
  unfold build_result. intros H Hin.
  destruct (blend_ratios_from ratios materials 0 []); [|discriminate].
  simpl in H. destruct (tonnage_from ratios materials 0); [|discriminate].
  simpl in H. injection H as <-. cbn [warnings] in Hin.
  unfold build_warnings in Hin. rewrite !in_app_iff in Hin.
  cbv zeta.
  assert (Hfilter : missing_params_of config blend_params
                    = filter (fun p => match dict_get blend_params p with
                                       | Some _ => false
                                       | None => true
                                       end) (selectedParameters config)).
  { unfold missing_params_of. apply filter_ext. intro p. unfold dict_mem.
    now destruct (dict_get blend_params p). }
  rewrite <- Hfilter. set (missing := missing_params_of config blend_params) in *.
  assert (Hw : In (MissingWarning listed more) (missing_warning missing)).
  { destruct Hin as [Hin | [Hin | [Hin | Hin]]]; [| | |exact Hin].
    - destruct (Nat.ltb 0 _); simpl in Hin; [destruct Hin as [Hin | []]|destruct Hin];
        discriminate.
    - destruct (Nat.ltb 0 _); simpl in Hin; [destruct Hin as [Hin | []]|destruct Hin];
        discriminate.
    - apply relaxed_warning_In in Hin. destruct Hin as [t [_ [_ Hin]]]. discriminate. }
  apply missing_warning_In_iff in Hw. destruct Hw as [Hne Hw].
  assert (Hl : listed = firstn 5 missing) by congruence.
  assert (Hm : more = if Nat.ltb 5 (List.length missing)
                      then Some (List.length missing - 5)%nat else None)
    by congruence.
  clear Hw.
  split; [exact Hl|].
  split; [subst listed; destruct missing; [congruence | discriminate]|].
  split; [subst listed; apply firstn_le_length|].
  split.
  - intro Hnone. rewrite Hnone in Hm.
    destruct (Nat.ltb 5 (List.length missing)) eqn:E; [discriminate|].
    apply Nat.ltb_ge in E. subst listed. now apply firstn_all2.
  - intros k Hk. rewrite Hk in Hm.
    destruct (Nat.ltb 5 (List.length missing)) eqn:E; [|discriminate].
    apply Nat.ltb_lt in E. injection Hm as ->.
    split; [lia|]. split; [lia|].
    subst listed. rewrite length_firstn. lia.
Qed.

Lemma missing_warning_truncates_witness :
  exists r listed more,
    build_result true [0.5; 0.5] Inputs.ph_materials [] []
                 3 true None
                 (mkConfig ["a"; "b"; "c"; "d"; "e"; "f"; "a"] [] [] None None)
    = Ok r
    /\ In (MissingWarning listed more) (warnings r)
    /\ listed = ["a"; "b"; "c"; "d"; "e"]
    /\ more = Some 2%nat.
Proof.
  destruct (build_result true [0.5; 0.5] Inputs.ph_materials [] [] 3 true None
              (mkConfig ["a"; "b"; "c"; "d"; "e"; "f"; "a"] [] [] None None))
    as [r|e] eqn:E; [|discriminate E].
  assert (Hin : In (MissingWarning ["a"; "b"; "c"; "d"; "e"] (Some 2%nat))
                   (warnings r)).
  { injection E as <-. now left. }
  exists r, ["a"; "b"; "c"; "d"; "e"], (Some 2%nat).
  split; [reflexivity|]. split; [exact Hin|].
  split; [|reflexivity].
  exact (proj1 (missing_warning_truncates _ _ _ _ _ _ _ _ _ r _ _ E Hin)).
Defined.

(** When the soil-texture record is present, [withinAcceptableRange] holds
    exactly when clay is within 8 to 35, silt within 15 to 60 and sand
    within 30 to 60 percent, all bounds included. *)
Theorem soil_texture_within_range (success : bool) (ratios : list Q)
    (materials : list Material) (residuals : list Residual)
    (blend_params : dict Q) (iterations : nat) (convergence : bool)
    (relaxed_tolerance : option Q) (config : Config) (r : OptimizationResult)
    (t : SoilTexture) :
  build_result success ratios materials residuals blend_params iterations
               convergence relaxed_tolerance config = Ok r ->
  soilTexture r = Some t ->
  withinAcceptableRange t = true
  <-> (8 <= clay t /\ clay t <= 35)
      /\ (15 <= silt t /\ silt t <= 60)
      /\ (30 <= sand t /\ sand t <= 60).
Proof.
  unfold build_result. intros H Ht.
  destruct (blend_ratios_from ratios materials 0 []); [|discriminate].
  simpl in H. destruct (tonnage_from ratios materials 0); [|discriminate].
  simpl in H. injection H as <-. simpl soilTexture in Ht.
  unfold soil_texture_of in Ht.
  destruct (dict_get blend_params "Clay") as [c|]; [|discriminate].
  destruct (dict_get blend_params "Silt") as [s|]; [|discriminate].
  destruct (dict_get blend_params "Sand") as [d|]; [|discriminate].
  destruct (Qlt_bool 0 (c + s + d)); [|discriminate].
  injection Ht as <-. simpl.
  unfold between. rewrite !andb_true_iff, !Qle_bool_iff. tauto.
Qed.

(** Clay 20, Silt 40 and Sand 40 are in range; with Clay 50, Silt 25 and
    Sand 25 the flag is off, and indeed clay is above 35. *)
Lemma soil_texture_within_range_witness :
  (exists r t,
     build_result true [0.5; 0.5] Inputs.ph_materials []
                  [("Clay", 20); ("Silt", 40); ("Sand", 40)] 3 true None
                  Inputs.ph_config = Ok r
     /\ soilTexture r = Some t
     /\ withinAcceptableRange t = true
     /\ (8 <= clay t /\ clay t <= 35)
     /\ (15 <= silt t /\ silt t <= 60)
     /\ (30 <= sand t /\ sand t <= 60))
  /\ (exists r t,
        build_result true [0.5; 0.5] Inputs.ph_materials []
                     [("Clay", 50); ("Silt", 25); ("Sand", 25)] 3 true None
                     Inputs.ph_config = Ok r
        /\ soilTexture r = Some t
        /\ withinAcceptableRange t = false
        /\ ~ ((8 <= clay t /\ clay t <= 35)
              /\ (15 <= silt t /\ silt t <= 60)
              /\ (30 <= sand t /\ sand t <= 60))).
Proof.
  split.
  - destruct (build_result true [0.5; 0.5] Inputs.ph_materials []
                [("Clay", 20); ("Silt", 40); ("Sand", 40)] 3 true None
                Inputs.ph_config) as [r|e] eqn:E; [|discriminate E].
    destruct (soilTexture r) as [t|] eqn:Et; [|injection E as <-; discriminate Et].
    pose proof (soil_texture_within_range _ _ _ _ _ _ _ _ _ r t E Et) as H.
    assert (Hflag : withinAcceptableRange t = true).
    { injection E as <-. injection Et as <-. reflexivity. }
    exists r, t. split; [reflexivity|]. split; [exact Et|].
    split; [exact Hflag|]. apply H. exact Hflag.
  - destruct (build_result true [0.5; 0.5] Inputs.ph_materials []
                [("Clay", 50); ("Silt", 25); ("Sand", 25)] 3 true None
                Inputs.ph_config) as [r|e] eqn:E; [|discriminate E].
    destruct (soilTexture r) as [t|] eqn:Et; [|injection E as <-; discriminate Et].
    pose proof (soil_texture_within_range _ _ _ _ _ _ _ _ _ r t E Et) as H.
    assert (Hflag : withinAcceptableRange t = false).
    { injection E as <-. injection Et as <-. reflexivity. }
    exists r, t. split; [reflexivity|]. split; [exact Et|].
    split; [exact Hflag|]. intro Hin. apply H in Hin. congruence.
Defined.

(** ** The solver calls of a run *)

(** The calls of [optimize_blend] are those of its solver stages, run on the
    equal split, the unit bounds and the constraints of the input. *)
Lemma optimize_blend_calls minimize differential_evolution
    (materials : list Material) (config : Config) :
  let n_materials := List.length materials in
  let material_params := extract_material_parameters materials config in
  fst (optimize_blend minimize differential_evolution materials config)
  = if Nat.ltb n_materials 2 then []
    else fst (solve_stages minimize differential_evolution material_params
                (fst (get_targets_and_limits material_params config))
                (snd (get_targets_and_limits material_params config))
                config
                (repeat (1 / inject_Z (Z.of_nat n_materials)) n_materials)
                (repeat (0, 1) n_materials)
                (setup_constraints materials config n_materials)).
Proof.
  cbv zeta. unfold optimize_blend.
  destruct (Nat.ltb (List.length materials) 2); [reflexivity|].
  destruct (get_targets_and_limits _ config) as [targets limits]. simpl fst at 2.
  simpl snd.
  destruct (solve_stages _ _ _ _ _ _ _ _ _) as [calls1 [[final relaxed]|e]];
    unfold tbind, lift; simpl; [apply app_nil_r | reflexivity].
Qed.

(** The equal split over at least one material has one entry per material
    and lies within the unit bounds. *)
Lemma equal_split_feasible (n : nat) :
  (1 <= n)%nat ->
  let x0 := repeat (1 / inject_Z (Z.of_nat n)) n in
  List.length x0 = n
  /\ Forall (fun v => 0 <= v /\ v <= 1) x0.
Proof.
  intro Hn. cbv zeta.
  assert (Hpos : 0 < inject_Z (Z.of_nat n)).
  { rewrite <- (Zlt_Qlt 0). lia. }
  assert (Hge : 1 <= inject_Z (Z.of_nat n)).
  { rewrite <- (Zle_Qle 1). lia. }
  split; [apply repeat_length|].
  apply Forall_forall. intros v Hv. apply repeat_spec in Hv. subst v.
  split.
  - apply Qle_shift_div_l; [exact Hpos | lra].
  - apply Qle_shift_div_r; [exact Hpos | lra].
Qed.

(** Every solver call of a run is given the bounds [(0, 1)] for each
    material and the constraints of [setup_constraints]; every local solve,
    the initial one and each sweep attempt alike, starts from the equal
    split, one entry [1 / n] per material, which respects the bounds; the
    global solve is given no starting point. *)
Theorem solver_call_arguments minimize differential_evolution
    (materials : list Material) (config : Config) :
  let n_materials := List.length materials in
  Forall
    (fun c =>
       call_bounds c = repeat (0, 1) n_materials
       /\ call_constraints c = setup_constraints materials config n_materials
       /\ match solver c with
          | Scipy.SLSQP =>
              exists x0,
                call_x0 c = Some x0
                /\ x0 = repeat (1 / inject_Z (Z.of_nat n_materials)) n_materials
                /\ List.length x0 = n_materials
                /\ Forall (fun v => 0 <= v /\ v <= 1) x0
          | Scipy.DifferentialEvolution => call_x0 c = None
          end)
    (fst (optimize_blend minimize differential_evolution materials config)).
Proof.
  cbv zeta. rewrite optimize_blend_calls.
  destruct (Nat.ltb (List.length materials) 2) eqn:En; [constructor|].
  apply Nat.ltb_ge in En.
  destruct (solve_stages _ _ _ _ _ _ _ _ _) as [calls out] eqn:Hst.
  destruct (solve_stages_trace _ _ _ _ _ _ _ _ _ _ _ Hst)
    as [initial [attempts [global [Hcalls _]]]].
  simpl fst. rewrite Hcalls.
  destruct (equal_split_feasible (List.length materials)) as [Hl Hb]; [lia|].
  rewrite !Forall_app. repeat split.
  - apply Forall_forall. intros c Hc. apply in_map_iff in Hc.
    destruct Hc as [r0 [<- _]]. simpl.
    split; [reflexivity|]. split; [reflexivity|].
    eexists. split; [reflexivity|]. split; [reflexivity|]. auto.
  - apply Forall_forall. intros c Hc. apply in_map_iff in Hc.
    destruct Hc as [a [<- _]]. simpl.
    split; [reflexivity|]. split; [reflexivity|].
    eexists. split; [reflexivity|]. split; [reflexivity|]. auto.
  - apply Forall_forall. intros c Hc. apply in_map_iff in Hc.
    destruct Hc as [g [<- _]]. simpl. auto.
Qed.

Lemma Forall_removelast {A : Type} (P : A -> Prop) (l : list A) :
  Forall P l -> Forall P (removelast l).
Proof.
  induction 1 as [|x l Hx H IH]; [constructor|].
  destruct l as [|y l]; [constructor|].
  change (removelast (x :: y :: l)) with (x :: removelast (y :: l)).
  now constructor.
Qed.

(** A run makes at most seven solver calls (one initial solve, five sweep
    attempts, one global solve), at most two when [autoRelax] is off, and
    none when fewer than two materials are given; the global solver is
    called at most once, last. *)
Theorem solver_calls_bounded minimize differential_evolution
    (materials : list Material) (config : Config) :
  let calls :=
    fst (optimize_blend minimize differential_evolution materials config) in
  (List.length calls <= 7)%nat
  /\ (auto_relax_of config = false -> (List.length calls <= 2)%nat)
  /\ ((List.length materials < 2)%nat -> calls = [])
  /\ Forall (fun c => solver c = Scipy.SLSQP) (removelast calls).
Proof.
  cbv zeta. rewrite optimize_blend_calls.
  destruct (Nat.ltb (List.length materials) 2) eqn:En.
  { simpl. repeat split; try lia; constructor. }
  apply Nat.ltb_ge in En.
  destruct (solve_stages _ _ _ _ _ _ _ _ _) as [calls out] eqn:Hst.
  destruct (solve_stages_trace _ _ _ _ _ _ _ _ _ _ _ Hst)
    as [initial [attempts [global [Hcalls [Hi [Hg [Hsweep [Hord _]]]]]]]].
  simpl fst.
  assert (Hk : (List.length attempts <= 5)%nat).
  { apply (f_equal (@List.length Q)) in Hord.
    rewrite length_map, length_firstn in Hord. simpl in Hord. lia. }
  assert (Hlen : List.length calls
                 = (List.length initial + List.length attempts
                    + List.length global)%nat).
  { rewrite Hcalls, !length_app, !length_map. lia. }
  split; [lia|]. split; [|split; [lia|]].
  - intro Hoff. destruct attempts as [|a attempts]; [simpl in Hlen; lia|].
    destruct Hsweep as [Hon _]; [discriminate | congruence].
  - rewrite Hcalls.
    assert (Hlocal : Forall (fun c => solver c = Scipy.SLSQP)
                       (map (local_call
                               (objective_of
                                  (extract_material_parameters materials config)
                                  (fst (get_targets_and_limits
                                          (extract_material_parameters materials config)
                                          config))
                                  (snd (get_targets_and_limits
                                          (extract_material_parameters materials config)
                                          config))
                                  config)
                               (repeat (1 / inject_Z (Z.of_nat (List.length materials)))
                                       (List.length materials))
                               (repeat (0, 1) (List.length materials))
                               (setup_constraints materials config
                                                  (List.length materials)))
                            initial
                        ++ map (sweep_call
                                  (extract_material_parameters materials config)
                                  (fst (get_targets_and_limits
                                          (extract_material_parameters materials config)
                                          config))
                                  (snd (get_targets_and_limits
                                          (extract_material_parameters materials config)
                                          config))
                                  config
                                  (repeat (1 / inject_Z (Z.of_nat (List.length materials)))
                                          (List.length materials))
                                  (repeat (0, 1) (List.length materials))
                                  (setup_constraints materials config
                                                     (List.length materials)))
                             attempts)).
    { rewrite Forall_app. split; apply Forall_forall; intros c Hc;
        apply in_map_iff in Hc; destruct Hc as [y [<- _]]; reflexivity. }
    rewrite app_assoc.
    destruct global as [|g [|g' global]].
    + simpl map. rewrite app_nil_r. now apply Forall_removelast.
    + simpl map. rewrite removelast_last. exact Hlocal.
    + simpl in Hg. lia.
Qed.


(** ** What the constraints ask of a ratio vector *)

Lemma find_material_bound (materials : list Material)
    (material_id : option string) (idx : nat) :
  find_material materials material_id 0 = Some idx ->
  (idx < List.length materials)%nat.
Proof.
  intro H. pose proof (find_material_spec materials material_id 0) as Hs.
  rewrite H in Hs. destruct Hs as [k [m [-> [Hnth _]]]]. simpl.
  apply nth_error_Some. congruence.
Qed.

Lemma emitted_satisfied (materials : list Material) (x : list Q)
    (c : MaterialConstraint) :
  List.length x = List.length materials ->
  (Forall (satisfied x) (emitted materials c)
   <-> forall idx v,
         find_material materials (materialId c) 0 = Some idx ->
         nth_error x idx = Some v ->
         (forall mn, minPercentage c = Some mn -> mn / 100 <= v)
         /\ (forall mx, maxPercentage c = Some mx -> v <= mx / 100)).
Proof.
  intro Hlen. unfold emitted.
  destruct (find_material materials (materialId c) 0) as [idx|] eqn:Hf.
  - assert (Hi : (idx < List.length x)%nat)
      by (rewrite Hlen; eapply find_material_bound; exact Hf).
    destruct (nth_error x idx) as [v|] eqn:Hv;
      [|apply nth_error_None in Hv; lia].
    assert (Hmin : forall mn,
               satisfied x (mkConstraint Ineq (RatioMinusMin idx (mn / 100)))
               <-> mn / 100 <= v).
    { intro mn. unfold satisfied. cbn [c_fun c_type constraint_apply].
      unfold subscript. rewrite Hv. cbn [bind]. split; intro; lra. }
    assert (Hmax : forall mx,
               satisfied x (mkConstraint Ineq (MaxMinusRatio idx (mx / 100)))
               <-> v <= mx / 100).
    { intro mx. unfold satisfied. cbn [c_fun c_type constraint_apply].
      unfold subscript. rewrite Hv. cbn [bind]. split; intro; lra. }
    split.
    + intros Hall idx' v' Hidx Hv'. injection Hidx as <-.
      rewrite Hv in Hv'. injection Hv' as <-.
      rewrite Forall_app in Hall. destruct Hall as [Ha Hb]. split.
      * intros mn Hmn. rewrite Hmn in Ha. inversion Ha; subst. now apply Hmin.
      * intros mx Hmx. rewrite Hmx in Hb. inversion Hb; subst. now apply Hmax.
    + intro H. destruct (H idx v eq_refl Hv) as [Ha Hb].
      rewrite Forall_app. split.
      * destruct (minPercentage c) as [mn|]; [|constructor].
        constructor; [apply Hmin; now apply Ha | constructor].
      * destruct (maxPercentage c) as [mx|]; [|constructor].
        constructor; [apply Hmax; now apply Hb | constructor].
  - split; [intros _ idx v Hidx; discriminate | constructor].
Qed.

(** A ratio vector with one entry per material satisfies the constraints of
    [setup_constraints] exactly when it sums to 1 and, for every entry of
    [materialConstraints] whose id is that of a material, the ratio of the
    first material with this id is at least the minimum percentage over 100
    and at most the maximum percentage over 100, where these are given. *)
Theorem constraints_feasible_set (materials : list Material) (config : Config)
    (n_materials : nat) (x : list Q) :
  List.length x = List.length materials ->
  (Forall (satisfied x) (setup_constraints materials config n_materials)
   <-> Qsum x == 1
       /\ forall c idx v,
            In c (materialConstraints config) ->
            find_material materials (materialId c) 0 = Some idx ->
            nth_error x idx = Some v ->
            (forall mn, minPercentage c = Some mn -> mn / 100 <= v)
            /\ (forall mx, maxPercentage c = Some mx -> v <= mx / 100)).
Proof.
  intro Hlen. unfold setup_constraints.
  rewrite fold_add_material_constraint. simpl app.
  assert (Heq : satisfied x (mkConstraint Eq_ SumMinusOne) <-> Qsum x == 1).
  { unfold satisfied. cbn [c_fun c_type constraint_apply].
    split; intro H; lra. }
  assert (Hflat : Forall (satisfied x)
                    (flat_map (emitted materials) (materialConstraints config))
                  <-> forall c, In c (materialConstraints config) ->
                                Forall (satisfied x) (emitted materials c)).
  { rewrite Forall_forall. split.
    - intros H c Hc. apply Forall_forall. intros k Hk. apply H.
      apply in_flat_map. now exists c.
    - intros H k Hk. apply in_flat_map in Hk. destruct Hk as [c [Hc Hk]].
      specialize (H c Hc). rewrite Forall_forall in H. now apply H. }
  split.
  - intro H. inversion H as [|? ? H1 H2]; subst.
    split; [now apply Heq|].
    intros c idx v Hc. apply (emitted_satisfied materials x c Hlen).
    now apply Hflat.
  - intros [Hsum Hent]. constructor; [now apply Heq|].
    apply Hflat. intros c Hc. apply (emitted_satisfied materials x c Hlen).
    intros idx v. now apply Hent.
Qed.

Lemma constraints_feasible_set_witness :
  Forall (satisfied [0.85; 0.15])
         (setup_constraints Inputs.ph_materials Inputs.constrained_config 2).
Proof.
  apply (constraints_feasible_set Inputs.ph_materials Inputs.constrained_config
                                  2 [0.85; 0.15]); [reflexivity|].
  split; [reflexivity|].
  intros c idx v [<- | [<- | [<- | []]]] Hidx Hv; simpl in Hidx;
    try discriminate; injection Hidx as <-; simpl in Hv; injection Hv as <-;
    split; intros q Hq; simpl in Hq; try discriminate; injection Hq as <-;
    discriminate.
Defined.

(** ** The reported ratios, in order *)

Lemma dict_set_fresh {V : Type} (d : dict V) (k : string) (v : V) :
  ~ In k (keys d) -> dict_set d k v = d ++ [(k, v)].
Proof.
  induction d as [|[k' v'] d IH]; simpl; intro Hn; [reflexivity|].
  destruct (String.eqb k' k) eqn:E.
  - apply String.eqb_eq in E. subst k'. exfalso. apply Hn. now left.
  - rewrite IH; [reflexivity | tauto].
Qed.

Lemma skipn_nth_error {A : Type} (l : list A) (i : nat) (a : A) :
  nth_error l i = Some a -> skipn i l = a :: skipn (S i) l.
Proof.
  revert i. induction l as [|b l IH]; intros [|i] H; simpl in H; try discriminate.
  - now injection H as ->.
  - simpl. now apply IH.
Qed.

(** With distinct ids the comprehension appends one item per material. *)
Lemma blend_ratios_from_distinct (ratios : list Q) (materials : list Material) :
  forall i acc d,
    NoDup (map id materials) ->
    (forall m, In m materials -> ~ In (id m) (keys acc)) ->
    blend_ratios_from ratios materials i acc = Ok d ->
    d = acc ++ combine (map id materials) (skipn i ratios).
Proof.
  induction materials as [|m rest IH]; intros i acc d Hnd Hfresh H; simpl in H.
  - injection H as <-. simpl. now rewrite app_nil_r.
  - unfold subscript in H. destruct (nth_error ratios i) as [q|] eqn:Eq;
      [|discriminate].
    simpl in H. simpl in Hnd. inversion Hnd as [|? ? Hm Hnd']; subst.
    rewrite dict_set_fresh in H by (apply Hfresh; now left).
    rewrite (IH (S i) (acc ++ [(id m, q)]) d Hnd'); [| |exact H].
    + now rewrite <- app_assoc, (skipn_nth_error _ _ _ Eq).
    + intros m' Hm'. unfold keys. rewrite map_app, in_app_iff. simpl.
      intros [Hin | [Heq | []]].
      * apply (Hfresh m'); [now right | exact Hin].
      * apply Hm. rewrite Heq. now apply in_map.
Qed.

(** When the materials have distinct ids, the [blendRatios] of the result
    lists the materials in their order, each id with the ratio at the
    material's position in the ratio vector; entries of the vector past the
    last material are ignored. *)
Theorem blend_ratios_in_order (success : bool) (ratios : list Q)
    (materials : list Material) (residuals : list Residual)
    (blend_params : dict Q) (iterations : nat) (convergence : bool)
    (relaxed_tolerance : option Q) (config : Config) (r : OptimizationResult) :
  build_result success ratios materials residuals blend_params iterations
               convergence relaxed_tolerance config = Ok r ->
  NoDup (map id materials) ->
  blendRatios r = combine (map id materials) ratios.
Proof.
  unfold build_result. intros H Hnd.
  destruct (blend_ratios_from ratios materials 0 []) as [d|] eqn:Eb;
    [|discriminate].
  simpl in H. destruct (tonnage_from ratios materials 0); [|discriminate].
  simpl in H. injection H as <-. simpl.
  exact (blend_ratios_from_distinct ratios materials 0 [] d Hnd
           (fun _ _ (H : In _ (keys [])) => H) Eb).
Qed.

Lemma blend_ratios_in_order_witness :
  exists r,
    build_result true [0.25; 0.75; 0.5] Inputs.ph_materials [] [] 3 true None
                 Inputs.ph_config = Ok r
    /\ blendRatios r = [("m1", 0.25); ("m2", 0.75)].
Proof.
  destruct (build_result true [0.25; 0.75; 0.5] Inputs.ph_materials [] [] 3
              true None Inputs.ph_config) as [r|e] eqn:E; [|discriminate E].
  exists r. split; [reflexivity|].
  apply (blend_ratios_in_order _ _ _ _ _ _ _ _ _ r E).
  repeat constructor; simpl; intuition discriminate.
Defined.

(** ** When the report of a run is produced *)

Lemma extract_material_parameters_lengths (materials : list Material)
    (config : Config) :
  Forall (fun kv => List.length (snd kv) = List.length materials)
         (extract_material_parameters materials config).
Proof.
  unfold extract_material_parameters.
  assert (Hset : forall (d : dict (list (option Q))) k v,
             Forall (fun kv => List.length (snd kv) = List.length materials) d ->
             List.length v = List.length materials ->
             Forall (fun kv => List.length (snd kv) = List.length materials)
                    (dict_set d k v)).
  { induction d as [|[k' v'] d IH]; intros k v Hd Hv; simpl.
    - now repeat constructor.
    - inversion Hd as [|? ? Hk Hd']; subst.
      destruct (String.eqb k' k); constructor; auto. }
  generalize (@nil (string * list (option Q))) (Forall_nil
    (fun kv : string * list (option Q) =>
       List.length (snd kv) = List.length materials)).
  induction (selectedParameters config) as [|p rest IH]; intros acc Hacc; simpl.
  - exact Hacc.
  - apply IH. apply Hset; [exact Hacc | apply length_map].
Qed.

Lemma blend_loop_keys (ratios : list Q) (items : dict (list (option Q))) :
  forall acc blend_params,
    blend_loop ratios items acc = Ok blend_params ->
    forall p, In p (keys blend_params) -> In p (keys acc) \/ In p (keys items).
Proof.
  induction items as [|[k vs] rest IH]; intros acc blend_params H p Hp;
    simpl in H.
  - injection H as <-. now left.
  - destruct (blend_value_of ratios vs) as [[v|]|]; simpl in H; [| |discriminate].
    + destruct (IH _ _ H p Hp) as [Hacc | Hrest]; [|right; now right].
      destruct (dict_set_keys_In _ _ _ _ Hacc) as [-> | Hin];
        [right; now left | now left].
    + destruct (IH _ _ H p Hp) as [Hacc | Hrest]; [now left | right; now right].
Qed.

Lemma residuals_loop_errors targets limits tolerance items :
  forall acc e,
    residuals_loop targets limits tolerance items acc = Raise e -> e = TypeError.
Proof.
  induction items as [|[p b] rest IH]; intros acc e H; simpl in H;
    [discriminate|].
  destruct (residual_entry targets limits tolerance p b) as [r|e'] eqn:Hr;
    simpl in H.
  - now apply (IH _ _ H).
  - injection H as <-. exact (residual_entry_errors _ _ _ _ _ _ Hr).
Qed.

Lemma build_result_total (success : bool) (ratios : list Q)
    (materials : list Material) (residuals : list Residual)
    (blend_params : dict Q) (iterations : nat) (convergence : bool)
    (relaxed_tolerance : option Q) (config : Config) :
  (List.length materials <= List.length ratios)%nat ->
  exists r,
    build_result success ratios materials residuals blend_params iterations
                 convergence relaxed_tolerance config = Ok r.
Proof.
  intro Hlen. unfold build_result.
  destruct (proj1 (blend_ratios_from_returns ratios materials 0 [])) as [d ->];
    [now left|].
  destruct (proj1 (tonnage_from_returns ratios materials 0)) as [ts ->];
    [now left|].
  simpl. eexists. reflexivity.
Qed.

(** The target [get_targets_and_limits] stores is [None] exactly for a
    zero-seeking parameter whose resolved limits have no lower bound. *)
Lemma resolved_target_None (config : Config) (p : string) :
  is_none (resolve_target p (resolve_limits config p)) = true
  <-> In p zero_seeking
      /\ get_or (resolve_limits config p) "lower" PyNone = PyNone.
Proof.
  split.
  - intro H. destruct (in_dec string_dec p zero_seeking) as [Hz | Hz].
    + split; [exact Hz|]. unfold resolve_target in H.
      apply str_in_In in Hz. rewrite Hz in H.
      unfold resolve_limits, get_or in *. simpl in *.
      destruct (match dict_get _ "lower" with Some v => v | None => _ end);
        [reflexivity | discriminate].
    + rewrite (resolve_target_range_seeking config p Hz) in H. discriminate.
  - intros [Hz Hlow]. now rewrite resolve_target_zero_seeking.
Qed.

(** Past the solvers.  For a final vector with one entry per material and a
    non-zero sum, on the parameter vectors, targets and limits
    [optimize_blend] derives from its input: the ratios are normalised and
    the blend parameters computed without error, and the report is produced
    exactly when no zero-seeking parameter that has a blend value lacks a
    lower bound; otherwise the call raises [TypeError], and nothing else. *)
Theorem report_outcome (materials : list Material) (config : Config)
    (final : Scipy.OptimizeResult) (relaxed_tolerance : option Q) :
  let material_params := extract_material_parameters materials config in
  let targets := fst (get_targets_and_limits material_params config) in
  let limits := snd (get_targets_and_limits material_params config) in
  List.length (Scipy.x final) = List.length materials ->
  ~ Qsum (Scipy.x final) == 0 ->
  exists ratios blend_params,
    normalize_ratios (Scipy.x final) = Ok ratios
    /\ calculate_blend_parameters ratios material_params = Ok blend_params
    /\ ((exists r, report materials config material_params targets limits
                          final relaxed_tolerance = Ok r)
        <-> forall p, In p (keys blend_params) -> In p zero_seeking ->
                      get_or (resolve_limits config p) "lower" PyNone <> PyNone)
    /\ (forall e, report materials config material_params targets limits
                         final relaxed_tolerance = Raise e ->
                  e = TypeError).
Proof.
  intros material_params targets limits Hlen Hnz.
  unfold report, normalize_ratios.
  destruct (Qeq_bool (Qsum (Scipy.x final)) 0) eqn:E;
    [apply Qeq_bool_iff in E; contradiction|].
  set (ratios := map (fun xi => xi / Qsum (Scipy.x final)) (Scipy.x final)).
  assert (Hrl : List.length ratios = List.length materials)
    by (unfold ratios; now rewrite length_map).
  assert (Hblend : exists blend,
             calculate_blend_parameters ratios material_params = Ok blend).
  { apply (blend_loop_returns ratios material_params []).
    eapply Forall_impl;
      [|exact (extract_material_parameters_lengths materials config)].
    intros kv Hkv. right. now rewrite Hkv. }
  destruct Hblend as [blend Hblend].
  exists ratios, blend. split; [reflexivity|]. split; [exact Hblend|].
  simpl bind at 1. simpl bind at 3. rewrite Hblend. simpl bind at 1.
  simpl bind at 2.
  assert (Hkeys : forall p, In p (keys blend) -> In p (keys material_params)).
  { intros p Hp.
    destruct (blend_loop_keys _ _ _ _ Hblend p Hp) as [[] | H]. exact H. }
  assert (Htarget : forall p, In p (keys blend) ->
             get_or targets p (PyNum 0)
             = resolve_target p (resolve_limits config p)).
  { intros p Hp. unfold get_or, targets.
    now rewrite (proj1 (get_targets_and_limits_lookup material_params config p
                          (Hkeys p Hp))). }
  split.
  - split.
    + intros [r Hr] p Hp Hz Hlow.
      rewrite (calculate_residuals_None_target blend targets limits config p Hp)
        in Hr; [discriminate|].
      unfold targets. now apply zero_seeking_target_None; [apply Hkeys| |].
    + intro Hok. unfold calculate_residuals.
      destruct (residuals_loop_returns targets limits (config_tolerance config)
                  blend []) as [rs ->].
      * intros p b Hin. assert (Hp : In p (keys blend)).
        { apply in_map_iff. now exists (p, b). }
        rewrite (Htarget p Hp).
        destruct (is_none (resolve_target p (resolve_limits config p))) eqn:En;
          [|reflexivity].
        apply resolved_target_None in En. destruct En as [Hz Hlow].
        exfalso. exact (Hok p Hp Hz Hlow).
      * simpl. apply build_result_total. lia.
  - intros e He. unfold calculate_residuals in He.
    destruct (residuals_loop targets limits (config_tolerance config) blend [])
      as [rs|e'] eqn:Hloop; simpl in He.
    + destruct (build_result_total (Scipy.success final) ratios materials
                  (sort_desc rs) blend
                  (match Scipy.nit final with Some k => k | None => 0%nat end)
                  (Scipy.success final) relaxed_tolerance config) as [r Hr];
        [lia|].
      rewrite Hr in He. discriminate.
    + injection He as <-. exact (residuals_loop_errors _ _ _ _ _ _ Hloop).
Qed.

Lemma report_outcome_witness :
  exists r,
    report Inputs.clay_materials Inputs.clay_config
      (extract_material_parameters Inputs.clay_materials Inputs.clay_config)
      (fst (get_targets_and_limits
              (extract_material_parameters Inputs.clay_materials
                                           Inputs.clay_config)
              Inputs.clay_config))
      (snd (get_targets_and_limits
              (extract_material_parameters Inputs.clay_materials
                                           Inputs.clay_config)
              Inputs.clay_config))
      (Scipy.mkOptimizeResult [1; 3] false None) None = Ok r.
Proof.
  destruct (report_outcome Inputs.clay_materials Inputs.clay_config
              (Scipy.mkOptimizeResult [1; 3] false None) None)
    as [ratios [blend [_ [Hb [Hiff _]]]]].
  - reflexivity.
  - discriminate.
  - apply Hiff. intros p Hp Hz. exfalso.
    assert (Hk : In p ["Clay"]).
    { destruct (blend_loop_keys _ _ _ _ Hb p Hp) as [[] | H]. exact H. }
    destruct Hk as [<- | []]. unfold zero_seeking in Hz. simpl in Hz.
    intuition discriminate.
Defined.
